(** * MushIoT device simulator: the tick loop of [Tester/sim_device.py]

    A shallow embedding of the simulator's main loop.

    - The values that [json] and [requests] hand to the loop are a small
      type of Python values; the builtins applied to them ([bool], [int],
      [float], [str], [or], [dict.get]) are functions on that type, with
      [None] for a raised exception.
    - The locals of [main] that outlive an iteration, the one-slot
      mailbox [pending["patch"]] shared with the listener thread, the
      state of [random] and the requests answered so far make up an
      explicit state.
    - The body of the loop is a computation over that state that may
      raise: an exception leaves every assignment made so far in place
      and ends the iteration, as [try: ... except Exception] does.
    - What the outside world does in one iteration -- the answer to the
      settings fetch, whether each POST returns, what the listener
      delivers and when, the value of the wall-clock sine term -- is an
      input of that iteration; a run is the loop over a list of such
      inputs.

    Line numbers refer to [Tester/sim_device.py]. *)

From Stdlib Require Import ZArith List String Ascii Bool Lia.
From Stdlib Require Import Floats.SpecFloat.
From Stdlib Require Import DecimalString DecimalZ.
Import ListNotations.

Open Scope string_scope.
Open Scope Z_scope.

(** ** Python values and builtins *)

Module Py.

(** A Python [float] is an IEEE binary64 value. *)
Definition float := spec_float.
Definition prec : Z := 53.
Definition emax : Z := 1024.

(** What [json.loads] / [r.json()] can return. A [dict] is kept as an
    association list; [lookup] takes the first binding of a key. *)
#[warnings="-register-all"]
Inductive value :=
| VNone
| VBool (b : bool)
| VInt (z : Z)
| VFloat (f : float)
| VStr (s : string)
| VList (l : list value)
| VDict (d : list (string * value)).

Definition dict := list (string * value).

(** Truth value testing: [None], [False], zero of a numeric type and
    empty strings and containers are false. *)
Definition float_is_zero (f : float) : bool :=
  match f with S754_zero _ => true | _ => false end.

Definition truthy (v : value) : bool :=
  match v with
  | VNone => false
  | VBool b => b
  | VInt z => negb (z =? 0)
  | VFloat f => negb (float_is_zero f)
  | VStr s => negb (s =? "")%string
  | VList l => match l with [] => false | _ => true end
  | VDict d => match d with [] => false | _ => true end
  end.

(** [a or b] *)
Definition or_ (a b : value) : value := if truthy a then a else b.

Fixpoint lookup (d : dict) (k : string) : option value :=
  match d with
  | [] => None
  | (k', v) :: d' => if (k' =? k)%string then Some v else lookup d' k
  end.

(** [k in d] *)
Definition contains (d : dict) (k : string) : bool :=
  match lookup d k with Some _ => true | None => false end.

(** [d.get(k, dflt)] on a dict *)
Definition get (d : dict) (k : string) (dflt : value) : value :=
  match lookup d k with Some v => v | None => dflt end.

(** [v.get(k, dflt)] on any value: only a dict has the method
    ([None] stands for the [AttributeError]). *)
Definition method_get (v : value) (k : string) (dflt : value) : option value :=
  match v with
  | VDict d => Some (get d k dflt)
  | _ => None
  end.

(** [float(z)] for an int: nearest binary64, [OverflowError] when out of range. *)
Definition float_of_Z (z : Z) : option float :=
  match binary_normalize prec emax z 0 false with
  | S754_infinity _ => None
  | f => Some f
  end.

(** [int(f)] for a float: truncation toward zero; raises on inf and nan. *)
Definition trunc (f : float) : option Z :=
  match f with
  | S754_zero _ => Some 0
  | S754_finite s m e =>
      let mag := match e with
                 | Z0 => Zpos m
                 | Zpos p => Zpos m * 2 ^ Zpos p
                 | Zneg p => Zpos m / 2 ^ Zpos p
                 end in
      Some (if s then - mag else mag)
  | S754_infinity _ | S754_nan => None
  end.

(** [a / b] on two ints (true division). The quotient of the two
    nearest floats is the correctly rounded quotient whenever both
    ints are below 2^53 in magnitude, which is the only use made of it. *)
Definition truediv (a b : Z) : option float :=
  if b =? 0 then None
  else match float_of_Z a, float_of_Z b with
       | Some fa, Some fb => Some (SFdiv prec emax fa fb)
       | _, _ => None
       end.

(** The string-handling builtins are taken as an interface: what
    [str.lower], [str()] of a non-string, [int()] of a string and
    [float()] of a string return is CPython's business. *)
Fixpoint plain_lowercase (s : string) : bool :=
  match s with
  | EmptyString => true
  | String c s' =>
    ((97 <=? N_of_ascii c)%N && (N_of_ascii c <=? 122)%N) && plain_lowercase s'
  end.

Class Builtins := {
  str_lower : string -> string;
  str_repr : value -> string;
  int_of_str : string -> option Z;
  float_of_str : string -> option float;
  (** a string of the letters a..z is its own lower-case form *)
  str_lower_plain : forall s, plain_lowercase s = true -> str_lower s = s
}.

Section Coercions.
Context `{Builtins}.

(** [str(v)] *)
Definition str (v : value) : string :=
  match v with
  | VStr s => s
  | _ => str_repr v
  end.

(** [v.lower()]: only a str has the method. *)
Definition method_lower (v : value) : option string :=
  match v with
  | VStr s => Some (str_lower s)
  | _ => None
  end.

(** [bool(v)] *)
Definition bool_ (v : value) : bool := truthy v.

(** [int(v)]; [None] stands for the [TypeError] / [ValueError] / [OverflowError]. *)
Definition int_ (v : value) : option Z :=
  match v with
  | VInt z => Some z
  | VBool b => Some (if b then 1 else 0)
  | VFloat f => trunc f
  | VStr s => int_of_str s
  | VNone | VList _ | VDict _ => None
  end.

(** [float(v)] *)
Definition float_ (v : value) : option float :=
  match v with
  | VInt z => float_of_Z z
  | VBool b => float_of_Z (if b then 1 else 0)
  | VFloat f => Some f
  | VStr s => float_of_str s
  | VNone | VList _ | VDict _ => None
  end.
End Coercions.

(** The module-level generator of [random]: [random.seed(n)] and the
    one primitive [randint] and [choice] are built on. *)
Class Random := {
  rng_state : Type;
  rng_seed : Z -> rng_state;
  randbelow : Z -> rng_state -> Z * rng_state;
  randbelow_range : forall n g, 0 < n -> 0 <= fst (randbelow n g) < n
}.

Section Draws.
Context `{Random}.

(** [random.randint(a, b)] = [a + _randbelow(b - a + 1)] *)
Definition randint (a b : Z) (g : rng_state) : Z * rng_state :=
  let (k, g') := randbelow (b - a + 1) g in (a + k, g').

(** [random.choice(seq)] = [seq[_randbelow(len(seq))]] *)
Definition choice (seq : string) (g : rng_state) : option ascii * rng_state :=
  let (k, g') := randbelow (Z.of_nat (String.length seq)) g in
  (String.get (Z.to_nat k) seq, g').
End Draws.

(** *** A small instance of the two interfaces

    Used to run the loop on concrete inputs. It covers the ASCII and
    decimal fragment: [lower] on the letters A..Z, [str()] of [None],
    booleans and ints, [int()] and [float()] of an optionally signed
    string of decimal digits; outside that fragment it is a stand-in,
    and no concrete run below leaves the fragment. The generator is a
    linear congruential one: the concrete moistures below are those of
    this generator, not of the Mersenne Twister. *)

Definition ascii_lower_char (c : ascii) : ascii :=
  let n := N_of_ascii c in
  if ((65 <=? n) && (n <=? 90))%N then ascii_of_N (n + 32) else c.

Fixpoint ascii_lower (s : string) : string :=
  match s with
  | EmptyString => EmptyString
  | String c s' => String (ascii_lower_char c) (ascii_lower s')
  end.

Fixpoint digits_value (s : string) (acc : Z) : option Z :=
  match s with
  | EmptyString => Some acc
  | String c s' =>
      let n := N_of_ascii c in
      if ((48 <=? n) && (n <=? 57))%N
      then digits_value s' (10 * acc + Z.of_N (n - 48))
      else None
  end.

Definition decimal_int (s : string) : option Z :=
  match s with
  | EmptyString => None
  | String "-"%char (String c s') => option_map Z.opp (digits_value (String c s') 0)
  | String "+"%char (String c s') => digits_value (String c s') 0
  | String "-"%char EmptyString | String "+"%char EmptyString => None
  | _ => digits_value s 0
  end.

Definition digit_char (d : Z) : ascii := ascii_of_N (48 + Z.to_N d).

Fixpoint decimal_digits (fuel : nat) (z : Z) (acc : string) : string :=
  match fuel with
  | O => acc
  | S fuel' =>
      let acc' := String (digit_char (z mod 10)) acc in
      if z / 10 =? 0 then acc' else decimal_digits fuel' (z / 10) acc'
  end.

Definition decimal_of_Z (z : Z) : string :=
  let body := decimal_digits (S (Z.to_nat (Z.log2 (Z.abs z)))) (Z.abs z) "" in
  if z <? 0 then String "-"%char body else body.

Definition small_repr (v : value) : string :=
  match v with
  | VNone => "None"
  | VBool true => "True"
  | VBool false => "False"
  | VInt z => decimal_of_Z z
  | _ => ""
  end.

Definition small_builtins : Builtins :=
  {| str_lower := ascii_lower;
     str_repr := small_repr;
     int_of_str := decimal_int;
     float_of_str := fun s => match decimal_int s with
                              | Some z => float_of_Z z
                              | None => None
                              end;
     str_lower_plain := ltac:(
       induction s as [|c s IH]; cbn [plain_lowercase ascii_lower]; intro E;
       [reflexivity|];
       apply andb_prop in E; destruct E as [Ec Es];
       apply andb_prop in Ec; destruct Ec as [Ea _];
       rewrite (IH Es); unfold ascii_lower_char;
       apply N.leb_le in Ea;
       replace (N_of_ascii c <=? 90)%N with false
         by (symmetry; apply N.leb_gt; lia);
       rewrite andb_false_r; reflexivity) |}.

Definition lcg_next (g : Z) : Z := (1103515245 * g + 12345) mod 2147483648.

Definition lcg_random : Random :=
  {| rng_state := Z;
     rng_seed := fun n => n mod 2147483648;
     randbelow := fun n g => (lcg_next g mod n, lcg_next g);
     randbelow_range := ltac:(intros n g Hn; simpl; apply Z.mod_pos_bound; exact Hn) |}.

(** *** Builtins used outside the tick loop *)

(** [str(z)] and [f"{z}"] for an int: the decimal digits, with a minus
    sign for a negative number. *)
Definition str_of_int (z : Z) : string := NilZero.string_of_int (Z.to_int z).

(** [d[k] = v]: the binding of a key already there is replaced in
    place, a new key goes last. *)
Fixpoint dict_set (d : dict) (k : string) (v : value) : dict :=
  match d with
  | [] => [(k, v)]
  | (k', v') :: d' =>
      if (k' =? k)%string then (k, v) :: d' else (k', v') :: dict_set d' k v
  end.

(** [s.split(":", 1)[1]]: what follows the first colon ([None]: there is
    no colon, an [IndexError]). *)
Fixpoint after_colon (s : string) : option string :=
  match s with
  | EmptyString => None
  | String c s' => if Ascii.eqb c ":" then Some s' else after_colon s'
  end.

(** [str.strip()] and [json.loads] ([None]: it raises) are taken as an
    interface, like the other text builtins. *)
Class Text := {
  str_strip : string -> string;
  json_loads : string -> option value;
  str_of_float : float -> string
}.

(** A small instance: [strip] removes blanks, tabs, carriage returns and
    line feeds at both ends; [json.loads] knows the documents [{}],
    [null] and the decimal integers, and the two documents
    [{"patch": {"pumpOffAbove": 60}}] and [{"patch": 5}] under the names
    [doc_patch] and [doc_bad_patch]; [str()] of a float prints a whole
    number as its digits and [.0]. Everywhere else the instance is a
    stand-in. *)
Definition is_blank (c : ascii) : bool :=
  let n := N_of_ascii c in
  ((n =? 32) || (n =? 9) || (n =? 10) || (n =? 13))%N.

Fixpoint strip_left (s : string) : string :=
  match s with
  | EmptyString => EmptyString
  | String c s' => if is_blank c then strip_left s' else s
  end.

Fixpoint strip_right (s : string) : string :=
  match s with
  | EmptyString => EmptyString
  | String c s' =>
      match strip_right s' with
      | EmptyString => if is_blank c then EmptyString else String c EmptyString
      | t => String c t
      end
  end.

Definition quote : string := String (ascii_of_N 34) EmptyString.

Definition doc_patch : string :=
  "{" ++ quote ++ "patch" ++ quote ++ ": {" ++ quote ++ "pumpOffAbove" ++ quote
      ++ ": 60}}".

Definition doc_bad_patch : string :=
  "{" ++ quote ++ "patch" ++ quote ++ ": 5}".

Definition small_loads (s : string) : option value :=
  if (s =? "{}")%string then Some (VDict [])
  else if (s =? "null")%string then Some VNone
  else if (s =? doc_patch)%string
       then Some (VDict [("patch", VDict [("pumpOffAbove", VInt 60)])])
  else if (s =? doc_bad_patch)%string then Some (VDict [("patch", VInt 5)])
  else option_map VInt (decimal_int s).

Definition small_str_of_float (f : float) : string :=
  match trunc f with
  | Some z => str_of_int z ++ ".0"
  | None => "nan"
  end.

Definition small_text : Text :=
  {| str_strip := fun s => strip_right (strip_left s);
     json_loads := small_loads;
     str_of_float := small_str_of_float |}.

End Py.

(** ** The simulator *)

Module Sim.
Import Py.

(** The two kinds of request the loop posts ([post_ack], [post_reading]). *)
Inductive request :=
| Ack (pump_on : bool) (mode : string) (note : string)
| Reading (moisture : Z) (pump_on : bool) (raw : Z).

(** What the SSE listener thread does to the state it shares with the
    loop: it calls [on_settings()] or [on_command(patch)], the latter
    only with a [dict]. *)
Inductive sse_event :=
| EvSettings
| EvCommand (patch : dict).

(** The three ways [get_settings] can go: [requests.get] or [r.json()]
    raises, the response is not [r.ok], or a JSON body comes back. *)
Inductive fetch_result :=
| FetchRaise
| FetchNotOk
| FetchJson (body : value).

(** What the outside world contributes to one iteration of the loop. A
    [post_*] call "returns" when [requests.post] gets any response and
    raises otherwise. [wave] is the value that
    [int(5 * math.sin(time.time()/60.0))] takes in this tick. *)
Record tick_in := mkTick {
  sse_before : list sse_event;     (* callbacks run before the test at line 246 *)
  sse_racing : list sse_event;     (* callbacks run between lines 247 and 248,
                                      in an iteration that executes them *)
  fetch : fetch_result;
  ack_cmd_returns : bool;
  ack_applied_returns : bool;
  ack_sim_returns : bool;
  reading_returns : bool;
  wave : Z
}.

(** Command-line arguments the loop depends on. *)
Record args := mkArgs {
  arg_device : string;
  arg_interval : float;
  arg_seed : option Z
}.

(** The working settings of a tick, once all five are assigned. *)
Record settings := mkSettings {
  s_mode : string;
  s_override_on : bool;
  s_on_below : Z;
  s_off_above : Z;
  s_send_interval : float
}.

(** A statement either completes with a value or raises. *)
Inductive outcome (A : Type) :=
| Done (a : A)
| Raised.
Arguments Done {A} a.
Arguments Raised {A}.

Section Simulator.
Context `{Builtins} `{Random}.

(** The locals of [main] that outlive an iteration, the one-slot mailbox
    [pending["patch"]], the generator, and the requests answered so far
    (oldest first). A local first assigned inside the loop is [None]
    until then. *)
Record state := mkState {
  moisture : Z;
  pump_on : bool;
  last_ack_state : option (bool * string);
  settings_applied_acked : bool;
  mode : option string;
  override_on : option bool;
  on_below : option Z;
  off_above : option Z;
  send_interval : option float;
  raw : option Z;
  pending_patch : option dict;
  rng : rng_state;
  sent : list request
}.

Definition with_moisture (x : Z) (st : state) : state :=
  mkState x (pump_on st) (last_ack_state st) (settings_applied_acked st)
    (mode st) (override_on st) (on_below st) (off_above st) (send_interval st)
    (raw st) (pending_patch st) (rng st) (sent st).
Definition with_pump_on (x : bool) (st : state) : state :=
  mkState (moisture st) x (last_ack_state st) (settings_applied_acked st)
    (mode st) (override_on st) (on_below st) (off_above st) (send_interval st)
    (raw st) (pending_patch st) (rng st) (sent st).
Definition with_last_ack_state (x : option (bool * string)) (st : state) : state :=
  mkState (moisture st) (pump_on st) x (settings_applied_acked st)
    (mode st) (override_on st) (on_below st) (off_above st) (send_interval st)
    (raw st) (pending_patch st) (rng st) (sent st).
Definition with_settings_applied_acked (x : bool) (st : state) : state :=
  mkState (moisture st) (pump_on st) (last_ack_state st) x
    (mode st) (override_on st) (on_below st) (off_above st) (send_interval st)
    (raw st) (pending_patch st) (rng st) (sent st).
Definition with_mode (x : option string) (st : state) : state :=
  mkState (moisture st) (pump_on st) (last_ack_state st) (settings_applied_acked st)
    x (override_on st) (on_below st) (off_above st) (send_interval st)
    (raw st) (pending_patch st) (rng st) (sent st).
Definition with_override_on (x : option bool) (st : state) : state :=
  mkState (moisture st) (pump_on st) (last_ack_state st) (settings_applied_acked st)
    (mode st) x (on_below st) (off_above st) (send_interval st)
    (raw st) (pending_patch st) (rng st) (sent st).
Definition with_on_below (x : option Z) (st : state) : state :=
  mkState (moisture st) (pump_on st) (last_ack_state st) (settings_applied_acked st)
    (mode st) (override_on st) x (off_above st) (send_interval st)
    (raw st) (pending_patch st) (rng st) (sent st).
Definition with_off_above (x : option Z) (st : state) : state :=
  mkState (moisture st) (pump_on st) (last_ack_state st) (settings_applied_acked st)
    (mode st) (override_on st) (on_below st) x (send_interval st)
    (raw st) (pending_patch st) (rng st) (sent st).
Definition with_send_interval (x : option float) (st : state) : state :=
  mkState (moisture st) (pump_on st) (last_ack_state st) (settings_applied_acked st)
    (mode st) (override_on st) (on_below st) (off_above st) x
    (raw st) (pending_patch st) (rng st) (sent st).
Definition with_raw (x : option Z) (st : state) : state :=
  mkState (moisture st) (pump_on st) (last_ack_state st) (settings_applied_acked st)
    (mode st) (override_on st) (on_below st) (off_above st) (send_interval st)
    x (pending_patch st) (rng st) (sent st).
Definition with_pending_patch (x : option dict) (st : state) : state :=
  mkState (moisture st) (pump_on st) (last_ack_state st) (settings_applied_acked st)
    (mode st) (override_on st) (on_below st) (off_above st) (send_interval st)
    (raw st) x (rng st) (sent st).
Definition with_rng (x : rng_state) (st : state) : state :=
  mkState (moisture st) (pump_on st) (last_ack_state st) (settings_applied_acked st)
    (mode st) (override_on st) (on_below st) (off_above st) (send_interval st)
    (raw st) (pending_patch st) x (sent st).
Definition with_sent (x : list request) (st : state) : state :=
  mkState (moisture st) (pump_on st) (last_ack_state st) (settings_applied_acked st)
    (mode st) (override_on st) (on_below st) (off_above st) (send_interval st)
    (raw st) (pending_patch st) (rng st) x.

(** *** Statements that may raise *)

Definition M (A : Type) : Type := state -> outcome A * state.

Definition ret {A} (a : A) : M A := fun st => (Done a, st).
Definition raise {A} : M A := fun st => (Raised, st).
Definition bind {A B} (m : M A) (k : A -> M B) : M B :=
  fun st => match m st with
            | (Done a, st') => k a st'
            | (Raised, st') => (Raised, st')
            end.
Definition gets {A} (f : state -> A) : M A := fun st => (Done (f st), st).
Definition modify (f : state -> state) : M unit := fun st => (Done tt, f st).

(** A builtin call that may raise. *)
Definition lift {A} (o : option A) : M A :=
  match o with Some a => ret a | None => raise end.

(** Reading a local that may not be bound yet ([UnboundLocalError]). *)
Definition local {A} (f : state -> option A) : M A :=
  fun st => lift (f st) st.

(** [if c: body] *)
Definition when (c : bool) (body : M unit) : M unit :=
  if c then body else ret tt.

(** [try: body / except Exception: pass] *)
Definition try_pass (body : M unit) : M unit :=
  fun st => (Done tt, snd (body st)).

Notation "x <- m ;; k" := (bind m (fun x => k))
  (at level 61, m at next level, right associativity).
Notation "m ;; k" := (bind m (fun _ => k))
  (at level 61, right associativity).
Notation "' pat <- m ;; k" := (bind m (fun x => let 'pat := x in k))
  (at level 61, pat pattern, m at next level, right associativity).

(** *** Helpers of the script *)

(** [clamp(x, lo, hi)] = [max(lo, min(hi, x))] *)
Definition clamp (x lo hi : Z) : Z := Z.max lo (Z.min hi x).

(** [auto_device_id]: the prefix, a dash and six [random.choice] draws
    from the hexadecimal digits. *)
Fixpoint hex_suffix (n : nat) (g : rng_state) : string * rng_state :=
  match n with
  | O => (EmptyString, g)
  | S n' =>
      let (c, g1) := choice "0123456789abcdef" g in
      let (s, g2) := hex_suffix n' g1 in
      (match c with Some a => String a s | None => s end, g2)
  end.

Definition auto_device_id (prefix : string) (g : rng_state) : string * rng_state :=
  let (s, g') := hex_suffix 6 g in (prefix ++ "-" ++ s, g').

(** [get_settings]: a response that is not [r.ok] gives [{}], a body
    gives [r.json() or {}]. *)
Definition get_settings (i : tick_in) : M value :=
  match fetch i with
  | FetchRaise => raise
  | FetchNotOk => ret (VDict [])
  | FetchJson body => ret (or_ body (VDict []))
  end.

(** [post_ack] and [post_reading]: the request is recorded when the call returns. *)
Definition post_ack (returns : bool) (pump : bool) (m : string) (note : string) : M unit :=
  if returns
  then modify (fun st => with_sent (sent st ++ [Ack pump m note]) st)
  else raise.

Definition post_reading (returns : bool) (mo : Z) (pump : bool) (r : Z) : M unit :=
  if returns
  then modify (fun st => with_sent (sent st ++ [Reading mo pump r]) st)
  else raise.

(** *** The listener's callbacks *)

(** The loop's state holds the patch slot and not the wake flag: the
    flag is read by the sleep only, and the sleep and both shared
    objects are in [Shared] and [sleep] below. [on_settings] sets the
    flag and nothing else. *)
Definition on_settings (st : state) : state := st.

(** [on_command]: the slot is overwritten (and the flag set, see
    [Shared.on_command]). *)
Definition on_command (patch : dict) (st : state) : state :=
  with_pending_patch (Some patch) st.

Definition listener (evs : list sse_event) (st : state) : state :=
  fold_left (fun s e => match e with
                        | EvSettings => on_settings s
                        | EvCommand p => on_command p s
                        end) evs st.

(** *** Start of [main] (lines 193-218), after the key is provisioned *)

Definition startup (a : args) (entropy : rng_state) : state :=
  let g0 := match arg_seed a with
            | Some n => rng_seed n
            | None => entropy
            end in
  let g1 := if (arg_device a =? "auto")%string
            then snd (auto_device_id "esp32" g0)
            else g0 in
  let (m, g2) := randint 35 60 g1 in
  mkState m false None false None None None None None None None g2 [].

(** *** The loop body, statement by statement *)

(** Lines 238-243. *)
Definition fetch_settings (a : args) (i : tick_in) : M unit :=
  s <- get_settings i ;;
  v <- lift (method_get s "pumpMode" VNone) ;;
  m <- lift (method_lower (or_ v (VStr "auto"))) ;;
  modify (with_mode (Some m)) ;;
  v <- lift (method_get s "overridePumpOn" (VBool false)) ;;
  modify (with_override_on (Some (bool_ v))) ;;
  v <- lift (method_get s "pumpOnBelow" (VInt 35)) ;;
  z <- lift (int_ v) ;;
  modify (with_on_below (Some z)) ;;
  v <- lift (method_get s "pumpOffAbove" (VInt 45)) ;;
  z <- lift (int_ v) ;;
  modify (with_off_above (Some z)) ;;
  v <- lift (method_get s "sendIntervalSec" VNone) ;;
  f <- lift (float_ (or_ v (VFloat (arg_interval a)))) ;;
  modify (with_send_interval (Some f)).

(** [v or <local>]: the local is read only when [v] is false. *)
Definition or_local (v : value) (rd : M value) : M value :=
  if truthy v then ret v else rd.

(** Lines 249-261: the five fields of the patch, in this order. *)
Definition patch_mode (p : dict) : M unit :=
  when (contains p "pumpMode")
    (v <- or_local (get p "pumpMode" VNone) (m <- local mode ;; ret (VStr m)) ;;
     modify (with_mode (Some (str_lower (str v))))).

Definition patch_override_on (p : dict) : M unit :=
  when (contains p "overridePumpOn")
    (modify (with_override_on (Some (bool_ (get p "overridePumpOn" VNone))))).

Definition patch_on_below (p : dict) : M unit :=
  when (contains p "pumpOnBelow")
    (v <- or_local (get p "pumpOnBelow" VNone) (z <- local on_below ;; ret (VInt z)) ;;
     z <- lift (int_ v) ;;
     modify (with_on_below (Some z))).

Definition patch_off_above (p : dict) : M unit :=
  when (contains p "pumpOffAbove")
    (v <- or_local (get p "pumpOffAbove" VNone) (z <- local off_above ;; ret (VInt z)) ;;
     z <- lift (int_ v) ;;
     modify (with_off_above (Some z))).

Definition patch_send_interval (p : dict) : M unit :=
  when (contains p "sendIntervalSec")
    (try_pass
       (v <- or_local (get p "sendIntervalSec" VNone)
                      (f <- local send_interval ;; ret (VFloat f)) ;;
        f <- lift (float_ v) ;;
        modify (with_send_interval (Some f)))).

Definition merge_patch (p : dict) : M unit :=
  patch_mode p ;;
  patch_override_on p ;;
  patch_on_below p ;;
  patch_off_above p ;;
  patch_send_interval p.

(** The five settings locals, when all are bound. *)
Definition working (st : state) : option settings :=
  match mode st, override_on st, on_below st, off_above st, send_interval st with
  | Some m, Some o, Some ob, Some oa, Some f => Some (mkSettings m o ob oa f)
  | _, _, _, _, _ => None
  end.

(** All five settings locals assigned at once. *)
Definition with_settings (s : settings) (st : state) : state :=
  with_send_interval (Some (s_send_interval s))
    (with_off_above (Some (s_off_above s))
       (with_on_below (Some (s_on_below s))
          (with_override_on (Some (s_override_on s))
             (with_mode (Some (s_mode s)) st)))).

(** The values lines 239-243 give for an empty settings object. *)
Definition defaults (a : args) : settings :=
  mkSettings "auto" false 35 45 (arg_interval a).

(** The merge as the specification words it: a field whose key is in
    the patch takes the patch's value after coercion to the field's
    type, a field whose key is absent keeps its value. [None] when a
    coercion fails. *)
Definition spec_merge (p : dict) (s : settings) : option settings :=
  let m := if contains p "pumpMode"
           then str_lower (str (get p "pumpMode" VNone)) else s_mode s in
  let o := if contains p "overridePumpOn"
           then bool_ (get p "overridePumpOn" VNone) else s_override_on s in
  match (if contains p "pumpOnBelow"
         then int_ (get p "pumpOnBelow" VNone) else Some (s_on_below s)),
        (if contains p "pumpOffAbove"
         then int_ (get p "pumpOffAbove" VNone) else Some (s_off_above s)),
        (if contains p "sendIntervalSec"
         then float_ (get p "sendIntervalSec" VNone) else Some (s_send_interval s))
  with
  | Some ob, Some oa, Some f => Some (mkSettings m o ob oa f)
  | _, _, _ => None
  end.

(** Lines 264-271: the pump state the patch asks for. *)
Definition desired_pump (mode : string) (override_on : bool)
    (on_below off_above moisture : Z) (pump_on : bool) : bool :=
  if (mode =? "manual")%string then override_on
  else if negb pump_on && (moisture <? on_below) then true
  else if pump_on && (moisture >? off_above) then false
  else pump_on.

(** Lines 289-295: the control logic of every tick. *)
Definition control_logic (mode : string) (override_on : bool)
    (on_below off_above moisture : Z) (pump_on : bool) : bool :=
  if (mode =? "manual")%string then override_on
  else if negb pump_on && (moisture <? on_below) then true
  else if pump_on && (moisture >? off_above) then false
  else pump_on.

(** The locals a decision reads. All of them were assigned at lines
    239-243 of the same iteration. *)
Definition decision_inputs : M (string * bool * Z * Z * Z * bool) :=
  m <- local mode ;;
  o <- local override_on ;;
  ob <- local on_below ;;
  oa <- local off_above ;;
  mo <- gets moisture ;;
  pump <- gets pump_on ;;
  ret (m, o, ob, oa, mo, pump).

(** Lines 246-276. [if pending["patch"]] holds for a non-empty dict. *)
Definition apply_pending (i : tick_in) : M unit :=
  pend <- gets pending_patch ;;
  match pend with
  | Some (b :: p') =>
      let p := b :: p' in                    (* p = pending["patch"] *)
      modify (listener (sse_racing i)) ;;
      modify (with_pending_patch None) ;;    (* pending["patch"] = None *)
      merge_patch p ;;
      '(m, o, ob, oa, mo, pump) <- decision_inputs ;;
      let d := desired_pump m o ob oa mo pump in
      post_ack (ack_cmd_returns i) d m "cmd" ;;
      modify (with_last_ack_state (Some (d, m))) ;;
      modify (with_pump_on d)
  | _ => ret tt
  end.

(** Lines 279-281. *)
Definition ack_settings_applied (i : tick_in) : M unit :=
  acked <- gets settings_applied_acked ;;
  when (negb acked)
    (pump <- gets pump_on ;;
     m <- local mode ;;
     post_ack (ack_applied_returns i) pump m "settings applied" ;;
     modify (with_settings_applied_acked true)).

(** Line 284-285 as a function of the three numbers involved. *)
Definition env_step (moisture draw wave : Z) : Z :=
  clamp (moisture + (draw + wave)) 0 100.

(** Line 286: [1400 + int((100 - moisture) * (3200 - 1400) / 100)]. *)
Definition raw_of (moisture : Z) : option Z :=
  match truediv ((100 - moisture) * (3200 - 1400)) 100 with
  | Some q => match trunc q with
              | Some t => Some (1400 + t)
              | None => None
              end
  | None => None
  end.

(** Lines 284-286. *)
Definition environment (i : tick_in) : M unit :=
  g <- gets rng ;;
  let (d, g') := randint (-2) 2 g in
  modify (with_rng g') ;;
  m <- gets moisture ;;
  modify (with_moisture (m + (d + wave i))) ;;
  m <- gets moisture ;;
  modify (with_moisture (clamp m 0 100)) ;;
  m <- gets moisture ;;
  r <- lift (raw_of m) ;;
  modify (with_raw (Some r)).

(** Lines 289-295. *)
Definition control : M unit :=
  '(m, o, ob, oa, mo, pump) <- decision_inputs ;;
  modify (with_pump_on (control_logic m o ob oa mo pump)).

(** [last_ack_state is None or last_ack_state != (pump_on, mode)] *)
Definition ack_due (last : option (bool * string)) (pump : bool) (m : string) : bool :=
  match last with
  | None => true
  | Some (p', m') => negb (Bool.eqb p' pump && (m' =? m)%string)
  end.

(** Lines 298-300. *)
Definition ack_on_change (i : tick_in) : M unit :=
  last <- gets last_ack_state ;;
  pump <- gets pump_on ;;
  m <- local mode ;;
  when (ack_due last pump m)
    (post_ack (ack_sim_returns i) pump m "sim" ;;
     modify (with_last_ack_state (Some (pump, m)))).

(** Line 303. *)
Definition report (i : tick_in) : M unit :=
  mo <- gets moisture ;;
  pump <- gets pump_on ;;
  r <- local raw ;;
  post_reading (reading_returns i) mo pump r.

(** The statements before the environment step, and lines 238-303 of
    the [try]. The manifest poll at lines 306-309, which ends the
    [try], assigns no local; it is [ota_poll] below, and
    [loop_body_polled] is the body with it. *)
Definition before_environment (a : args) (i : tick_in) : M unit :=
  fetch_settings a i ;;
  apply_pending i ;;
  ack_settings_applied i.

Definition loop_body (a : args) (i : tick_in) : M unit :=
  before_environment a i ;;
  environment i ;;
  control ;;
  ack_on_change i ;;
  report i.

(** One iteration: the listener's callbacks, then the body under
    [try ... except Exception]. *)
Definition iteration (a : args) (i : tick_in) (st : state) : state :=
  snd (loop_body a i (listener (sse_before i) st)).

(** The sleep at lines 314-322 reads [send_interval]; when no iteration
    has assigned it yet that is an [UnboundLocalError] outside the
    [try], and the process ends. *)
Definition crashed (st : state) : bool :=
  match send_interval st with
  | None => true
  | Some _ => false
  end.

(** The states after each iteration that ran. *)
Fixpoint run (a : args) (ins : list tick_in) (st : state) : list state :=
  match ins with
  | [] => []
  | i :: rest =>
      let st' := iteration a i st in
      st' :: (if crashed st' then [] else run a rest st')
  end.

(** The moisture after each iteration of a run. *)
Definition moistures (a : args) (ins : list tick_in) (st : state) : list Z :=
  map moisture (run a ins st).

(** Whether an iteration gets as far as the environment step, and the
    list of these over a run. *)
Definition advanced (a : args) (i : tick_in) (st : state) : bool :=
  match fst (before_environment a i (listener (sse_before i) st)) with
  | Done _ => true
  | Raised => false
  end.

Fixpoint steps (a : args) (ins : list tick_in) (st : state) : list bool :=
  match ins with
  | [] => []
  | i :: rest =>
      let st' := iteration a i st in
      advanced a i st :: (if crashed st' then [] else steps a rest st')
  end.

(** The requests one iteration added, given that [sent] only grows. *)
Definition emitted (a : args) (i : tick_in) (st : state) : list request :=
  skipn (List.length (sent st)) (sent (iteration a i st)).

(** *** Vocabulary of the statements proved below *)

(** [preserves f m]: whatever [m] does, and whether or not it raises,
    the observation [f] of the state is the same afterwards. *)
Definition preserves {A X} (f : state -> X) (m : M A) : Prop :=
  forall st, f (snd (m st)) = f st.

(** [oblivious m]: the statement [m] neither reads nor writes the local
    [raw]: run from a state with another value of [raw], it has the
    same outcome and leaves the same state, [raw] still being that
    other value. *)
Definition oblivious {A} (m : M A) : Prop :=
  forall x st, m (with_raw x st) = (fst (m st), with_raw x (snd (m st))).

(** Observations of the state: what the environment step works on,
    everything but the five settings, what an acknowledgement involves,
    and what the handling of a patch leaves alone. *)
Definition env_of (st : state) : Z * rng_state := (moisture st, rng st).

Definition rest_of (st : state) :=
  (moisture st, pump_on st, last_ack_state st, settings_applied_acked st,
   raw st, pending_patch st, rng st, sent st).

Definition ack_view (st : state) :=
  (last_ack_state st, pump_on st, sent st).

Definition tick_view (st : state) :=
  (moisture st, settings_applied_acked st, raw st, rng st).

(** [if pending["patch"]]: there is a patch and it is not empty. *)
Definition patch_truthy (o : option dict) : bool :=
  match o with
  | Some (_ :: _) => true
  | _ => false
  end.

(** No [command] event among the listener's callbacks. *)
Definition no_command (evs : list sse_event) : bool :=
  forallb (fun e => match e with EvSettings => true | EvCommand _ => false end) evs.

(** What lines 249-261 leave in each of the five settings, given its
    current value ([None]: the coercion raises). *)
Definition merged_mode (p : dict) (m : string) : string :=
  if contains p "pumpMode"
  then str_lower (str (or_ (get p "pumpMode" VNone) (VStr m))) else m.

Definition merged_override_on (p : dict) (o : bool) : bool :=
  if contains p "overridePumpOn" then bool_ (get p "overridePumpOn" VNone) else o.

Definition merged_on_below (p : dict) (z : Z) : option Z :=
  if contains p "pumpOnBelow"
  then int_ (or_ (get p "pumpOnBelow" VNone) (VInt z)) else Some z.

Definition merged_off_above (p : dict) (z : Z) : option Z :=
  if contains p "pumpOffAbove"
  then int_ (or_ (get p "pumpOffAbove" VNone) (VInt z)) else Some z.

Definition merged_send_interval (p : dict) (f : float) : float :=
  if contains p "sendIntervalSec"
  then match float_ (or_ (get p "sendIntervalSec" VNone) (VFloat f)) with
       | Some f' => f'
       | None => f
       end
  else f.

(** The fields whose patch value goes through [v or current]. *)
Definition value_fields : list string :=
  ["pumpMode"; "pumpOnBelow"; "pumpOffAbove"; "sendIntervalSec"].

(** The four parts of the requests of one iteration: the reply to a
    command ([st0]: the state the body starts from), the one-time
    "settings applied", the acknowledgement of lines 298-300 ([last]:
    the pair recorded when they are reached), and the reading. *)
Definition cmd_part (cmd : list request) (st0 st' : state) : Prop :=
  (cmd = [] /\ (patch_truthy (pending_patch st0) = true \/
                pending_patch st' = pending_patch st0)) \/
  (exists d m, cmd = [Ack d m "cmd"] /\ patch_truthy (pending_patch st0) = true).

Definition applied_part (app : list request) (st st' : state) : Prop :=
  (app = [] /\ settings_applied_acked st' = settings_applied_acked st) \/
  (exists p m, app = [Ack p m "settings applied"] /\
               settings_applied_acked st = false /\
               settings_applied_acked st' = true).

Definition sim_part (last : option (bool * string)) (sim : list request)
    (st' : state) : Prop :=
  (sim = [] /\ last_ack_state st' = last) \/
  (exists p m, sim = [Ack p m "sim"] /\ ack_due last p m = true /\
               last_ack_state st' = Some (p, m) /\
               pump_on st' = p /\ mode st' = Some m).

Definition reading_part (rd : list request) (st' : state) : Prop :=
  rd = [] \/
  (exists r, rd = [Reading (moisture st') (pump_on st') r] /\
             raw_of (moisture st') = Some r).

(** The pair recorded once the patch has been dealt with. *)
Definition recorded_after (cmd : list request) (last : option (bool * string)) :
    option (bool * string) :=
  match cmd with
  | [Ack d m _] => Some (d, m)
  | _ => last
  end.

(** The acknowledgements of a trace. *)
Definition is_ack (r : request) : bool :=
  match r with
  | Ack _ _ _ => true
  | Reading _ _ _ => false
  end.



End Simulator.

Notation "x <- m ;; k" := (bind m (fun x => k))
  (at level 61, m at next level, right associativity).
Notation "m ;; k" := (bind m (fun _ => k))
  (at level 61, right associativity).
Notation "' pat <- m ;; k" := (bind m (fun x => let 'pat := x in k))
  (at level 61, pat pattern, m at next level, right associativity).

(** ** Around the loop: URLs, provisioning, the listener, the sleep,
    the manifest poll, and the launcher of [Tester/sim_multi.py] *)

(** The two shared objects of lines 223-231 in full: the patch slot and
    the wake flag, with the callbacks as the listener calls them. *)
Module Shared.

Record mailbox := mkMailbox {
  mb_patch : option dict;      (* pending["patch"] *)
  mb_flag : bool               (* sse_nudge["flag"] *)
}.

Definition on_settings (mb : mailbox) : mailbox :=
  mkMailbox (mb_patch mb) true.

Definition on_command (patch : dict) (mb : mailbox) : mailbox :=
  mkMailbox (Some patch) true.

Definition deliver (evs : list sse_event) (mb : mailbox) : mailbox :=
  fold_left (fun b e => match e with
                        | EvSettings => on_settings b
                        | EvCommand p => on_command p b
                        end) evs mb.

(** Lines 246-248 on the shared objects. [at_read] are the callbacks
    that run between the test at line 246 and the read at line 247,
    [at_clear] those that run between the read and the write at line
    248. The result: the patch the loop goes on with ([None]: the branch
    is not taken), and the objects after line 248. *)
Definition take (at_read at_clear : list sse_event) (mb : mailbox) :
    option dict * mailbox :=
  match mb_patch mb with
  | Some (_ :: _) =>
      let mb1 := deliver at_read mb in       (* p = pending["patch"] *)
      let mb2 := deliver at_clear mb1 in     (* pending["patch"] = None *)
      (mb_patch mb1, mkMailbox None (mb_flag mb2))
  | _ => (None, mb)
  end.

End Shared.

(** The answer to a request other than the settings fetch: [requests]
    raises, or a response comes back with [r.ok] and what [r.json()]
    gives ([None]: it raises). *)
Inductive response :=
| RespRaise
| Resp (ok : bool) (json : option value).

(** What [STATE_FILE] holds when [load_state] looks. *)
Inductive file_read :=
| FileAbsent
| FileUnreadable
| FileJson (v : value).

(** How lines 199-212 end: an exception outside the [try], [sys.exit(1)],
    or a key in hand -- rotated or not, with the state given to
    [save_state] if any. *)
Inductive provisioned :=
| Crash
| Exit1
| Ready (api_key : value) (rotated : bool) (saved : option value).

(** One turn of the [while] at lines 315-322: the callbacks that ran
    since the previous turn, whether the clock test holds, and
    [stop_flag]. *)
Record poll := mkPoll {
  callbacks : list sse_event;
  in_time : bool;
  stop_seen : bool
}.

Inductive wake :=
| TimedOut
| Stopped
| Nudged
| StillAsleep.

(** The arguments of [sim_multi.py]. *)
Record multi_args := mkMulti {
  m_count : Z;
  m_host : string;
  m_port : Z;
  m_https : bool;
  m_prefix : string;
  m_interval : float;
  m_enroll_secret : option string;
  m_seed : option Z
}.

Section Peripherals.
Context `{Builtins} `{Random} `{Text}.

(** [make_base_url] *)
Definition make_base_url (host : string) (port : Z) (use_https : bool) : string :=
  let proto := if use_https then "https" else "http" in
  let default_port := if use_https then 443 else 80 in
  if negb (port =? 0) && negb (port =? default_port)
  then proto ++ "://" ++ host ++ ":" ++ str_of_int port
  else proto ++ "://" ++ host.

(** [load_state]: the parsed file, or [{}] when the file is missing or
    reading or parsing it raises. *)
Definition load_state (f : file_read) : value :=
  match f with
  | FileJson v => v
  | FileAbsent | FileUnreadable => VDict []
  end.

(** [rotate_key]: the header it adds, and what it returns ([None]: it raises). *)
Definition rotate_headers (enroll_secret : option string) : list (string * string) :=
  match enroll_secret with
  | Some secret => if (secret =? "")%string then [] else [("x-enroll-secret", secret)]
  | None => []
  end.

Definition rotate_key (r : response) : option value :=
  match r with
  | RespRaise => None                       (* requests.post raises *)
  | Resp false _ => None                    (* r.raise_for_status() *)
  | Resp true None => None                  (* r.json() raises *)
  | Resp true (Some data) =>
      match method_get data "apiKey" VNone with
      | Some key => if truthy key then Some key else None
      | None => None
      end
  end.

(** Lines 199-212 of [main]. Line 200 is outside the [try]. *)
Definition provision (f : file_read) (device_id : string) (r : response) : provisioned :=
  let state := load_state f in
  match method_get state "devices" (VDict []) with
  | None => Crash
  | Some devices =>
      match method_get devices device_id VNone with
      | None => Crash
      | Some api_key =>
          if truthy api_key then Ready api_key false None
          else
            match rotate_key r with
            | None => Exit1
            | Some key =>
                match state, devices with
                | VDict sd, VDict st =>
                    Ready key true
                      (Some (VDict (dict_set sd "devices"
                                      (VDict (dict_set st device_id key)))))
                | _, _ => Exit1
                end
            end
      end
  end.

(** [get_ota_manifest]: every failure is caught inside the function. *)
Definition get_ota_manifest (r : response) : value :=
  match r with
  | Resp true (Some j) => or_ j (VDict [])
  | _ => VDict []
  end.

(** Lines 306-309: [due] is [int(time.time()) % 600 == 0]. *)
Definition ota_poll (due : bool) (r : response) : M unit :=
  when due
    (let m := get_ota_manifest r in
     version <- lift (method_get m "version" VNone) ;;
     if truthy version
     then (url <- lift (method_get m "url" VNone) ;; ret tt)
     else ret tt).

(** The body of the [try] with the manifest poll at its end. *)
Definition loop_body_polled (a : args) (i : tick_in) (due : bool) (r : response) :
    M unit :=
  loop_body a i ;; ota_poll due r.

(** Lines 172-175: the patch a [command] event carries, if it carries one. *)
Definition command_patch (data : string) : option dict :=
  if (data =? "")%string then None
  else match json_loads data with
       | Some j =>
           match method_get j "patch" VNone with
           | Some (VDict patch) => Some patch
           | _ => None
           end
       | None => None
       end.

(** Lines 151-177: the callbacks the lines of the stream lead to, in
    order. Each line comes with the value of [stop_flag] when it is
    reached; [cb] tells whether [on_command_cb] was given. *)
Fixpoint listen_lines (cb : bool) (last_event : option string)
    (lines : list (bool * string)) : list sse_event :=
  match lines with
  | [] => []
  | (stop, line) :: rest =>
      if stop then []
      else if (line =? "")%string then listen_lines cb last_event rest
      else if prefix ":" line then listen_lines cb last_event rest
      else if prefix "event:" line then
        match after_colon line with
        | Some t => listen_lines cb (Some (str_strip t)) rest
        | None => []
        end
      else if prefix "data:" line then
        match after_colon line with
        | Some t =>
            let data := str_strip t in
            match last_event with
            | Some ev =>
                if (ev =? "settings")%string
                then EvSettings :: listen_lines cb last_event rest
                else if (ev =? "command")%string && cb
                then match command_patch data with
                     | Some patch => EvCommand patch :: listen_lines cb last_event rest
                     | None => listen_lines cb last_event rest
                     end
                else listen_lines cb last_event rest
            | None => listen_lines cb last_event rest
            end
        | None => []
        end
      else listen_lines cb last_event rest
  end.

(** The event type in force after some lines (no line seen with [stop_flag] set). *)
Fixpoint last_event_after (last_event : option string) (lines : list string) :
    option string :=
  match lines with
  | [] => last_event
  | line :: rest =>
      if negb (line =? "")%string && negb (prefix ":" line) && prefix "event:" line
      then match after_colon line with
           | Some t => last_event_after (Some (str_strip t)) rest
           | None => last_event
           end
      else last_event_after last_event rest
  end.

(** [listen_sse]: the connection raises, or answers with a status and lines. *)
Inductive stream :=
| StreamRaise
| Stream (status : Z) (lines : list (bool * string)).

Definition listen_sse (s : stream) (cb : bool) : list sse_event :=
  match s with
  | StreamRaise => []
  | Stream status lines => if status =? 200 then listen_lines cb None lines else []
  end.

(** Lines 314-322: how the sleep ends, the mailbox it leaves, and the
    number of calls of [time.sleep(0.25)]. [StillAsleep]: the turns
    given do not reach the end of the sleep. *)
Fixpoint sleep (polls : list poll) (mb : Shared.mailbox) :
    wake * Shared.mailbox * nat :=
  match polls with
  | [] => (StillAsleep, mb, O)
  | p :: rest =>
      let mb1 := Shared.deliver (callbacks p) mb in
      if negb (in_time p) then (TimedOut, mb1, O)
      else if stop_seen p then (Stopped, mb1, O)
      else if Shared.mb_flag mb1
           then (Nudged, Shared.mkMailbox (Shared.mb_patch mb1) false, O)
           else let '(w, mb', n) := sleep rest mb1 in (w, mb', S n)
  end.

(** [sim_multi.py]: [range(n)], the device id and the command line of
    [launch(i)], and the launches of the [for] loop. *)
Definition range (n : Z) : list Z := map Z.of_nat (seq 0 (Z.to_nat n)).

Definition device_id_of (m : multi_args) (i : Z) : string :=
  m_prefix m ++ str_of_int (i + 1).

Definition launch (executable sim_path : string) (m : multi_args) (i : Z) : list string :=
  [executable; sim_path;
   "--host"; m_host m;
   "--port"; str_of_int (m_port m);
   "--device"; device_id_of m i;
   "--interval"; str_of_float (m_interval m)]
  ++ (if m_https m then ["--https"] else [])
  ++ (match m_enroll_secret m with
      | Some secret => if (secret =? "")%string then [] else ["--enroll-secret"; secret]
      | None => []
      end)
  ++ (match m_seed m with
      | Some seed => ["--seed"; str_of_int (seed + i)]
      | None => []
      end).

Definition launched (m : multi_args) : list Z := range (Z.max 1 (m_count m)).

(** Line 200: [state.get("devices", {}).get(device_id)] ([None]: it
    raises, outside the [try]). *)
Definition cached_key (state : value) (device_id : string) : option value :=
  match method_get state "devices" (VDict []) with
  | Some devices => method_get devices device_id VNone
  | None => None
  end.

(** The lines of a stream the listener does not skip: those reached
    with [stop_flag] set, and the [event:] and [data:] lines. *)
Definition acted_on (l : bool * string) : bool :=
  fst l || prefix "event:" (snd l) || prefix "data:" (snd l).

(** The alphabet of [auto_device_id]. *)
Definition is_hex (c : ascii) : bool :=
  existsb (Ascii.eqb c) (list_ascii_of_string "0123456789abcdef").

(** The device id and the seed on the command line of [launch(i)]. *)
Definition launched_device (executable sim_path : string) (m : multi_args) (i : Z) :
    string :=
  nth 7 (launch executable sim_path m i) "".

Definition launched_seed (executable sim_path : string) (m : multi_args) (i : Z) :
    string :=
  last (launch executable sim_path m i) "".

End Peripherals.


(** ** [Tester/test_device.py]

    The one-shot tester shares the state file with the simulator.
    [load_state], [save_state] and [make_base_url] are the same
    functions in both scripts. *)
Module TestDevice.

(** The requests [main] makes after the rotation, with the key they carry. *)
Inductive call :=
| PostReading (api_key : value) (moisture : Z)
| PostAck (api_key : value) (pump_on : bool).

(** How [main] ends: an exception outside the [try], [sys.exit(1)] or
    "Done."; with the state given to [save_state], if any, and the
    requests made. *)
Inductive ended :=
| Crash
| Exit1 (saved : option value) (calls : list call)
| Finished (saved : option value) (calls : list call).

(** [rotate_key] ([None]: it raises). *)
Definition rotate_key (r : response) : option value :=
  match r with
  | RespRaise => None
  | Resp true json =>
      match json with
      | Some data =>
          match method_get data "apiKey" VNone with
          | Some key => if truthy key then Some key else None
          | None => None
          end
      | None => None
      end
  | Resp false _ => None
  end.

(** [main]. [provision], [reading] and [ack_on] are the arguments of
    the same names; [reading_ok] and [ack_ok] tell whether the request
    returns with [r.ok]: [post_reading] and [post_ack] raise otherwise. *)
Definition main (provision : bool) (reading : Z) (ack_on : bool)
    (f : file_read) (device_id : string) (r : response)
    (reading_ok ack_ok : bool) : ended :=
  let state := load_state f in
  match method_get state "devices" (VDict []) with
  | None => Crash
  | Some devices =>
      match method_get devices device_id VNone with
      | None => Crash
      | Some cached =>
          let requests (api_key : value) (saved : option value) :=
            if reading_ok
            then if ack_ok
                 then Finished saved [PostReading api_key reading; PostAck api_key ack_on]
                 else Exit1 saved [PostReading api_key reading; PostAck api_key ack_on]
            else Exit1 saved [PostReading api_key reading] in
          if provision || negb (truthy cached)
          then match rotate_key r with
               | None => Exit1 None []
               | Some key =>
                   match state, devices with
                   | VDict sd, VDict st =>
                       requests key
                         (Some (VDict (dict_set sd "devices"
                                         (VDict (dict_set st device_id key)))))
                   | _, _ => Exit1 None []
                   end
               end
          else requests cached None
      end
  end.

Definition saved_by (e : ended) : option value :=
  match e with
  | Crash => None
  | Exit1 s _ | Finished s _ => s
  end.

Definition calls_of (e : ended) : list call :=
  match e with
  | Crash => []
  | Exit1 _ c | Finished _ c => c
  end.

Definition key_of (c : call) : value :=
  match c with
  | PostReading k _ | PostAck k _ => k
  end.

End TestDevice.

(** ** Inputs used in the concrete runs *)

(** A patch whose [pumpOnBelow] is a JSON array: [int([1])] is a [TypeError]. *)
Definition bad_patch : dict :=
  [("pumpOnBelow", VList [VInt 1]); ("pumpOffAbove", VInt 60)].

(** The float 60.0 (the default of [--interval]) and the float 5.0. *)
Definition f60 : float := S754_finite false 8444249301319680 (-47).
Definition f5 : float := S754_finite false 5629499534213120 (-50).

(** [--device esp32-sim1 --interval 60 --seed 0] *)
Definition args0 : args := mkArgs "esp32-sim1" f60 (Some 0).

(** The state after startup under the small instance. *)
Definition start0 : @state lcg_random := @startup lcg_random args0 0.

(** A settings object that selects manual mode. *)
Definition manual_body : value :=
  VDict [("pumpMode", VStr "manual"); ("overridePumpOn", VBool true);
         ("pumpOnBelow", VInt 20); ("pumpOffAbove", VInt 80);
         ("sendIntervalSec", VInt 5)].

Definition tick_manual : tick_in :=
  mkTick [] [] (FetchJson manual_body) true true true true 0.

(** A fetch that succeeds with [{"pumpMode": "auto"}]. *)
Definition tick_auto : tick_in :=
  mkTick [] [] (FetchJson (VDict [("pumpMode", VStr "auto")])) true true true true 0.

(** A tick before which the listener delivers the patch [p]. *)
Definition tick_patch (p : dict) : tick_in :=
  mkTick [EvCommand p] [] FetchNotOk true true true true 0.

Definition zero_patch : dict := [("pumpOnBelow", VInt 0)].
Definition thresholds_patch : dict :=
  [("pumpOnBelow", VInt 30); ("pumpOffAbove", VInt 60)].

(** The startup state with the default settings assigned. *)
Definition defaults0 : @state lcg_random :=
  @with_settings lcg_random (defaults args0) start0.

(** A tick in which the fetch is not OK, nothing arrives from the
    listener, every request returns, and the sine term is [w]. *)
Definition tick_at (w : Z) : tick_in :=
  mkTick [] [] FetchNotOk true true true true w.

(** The states after a first tick with manual settings, and after a
    first tick whose fetch is not OK. *)
Definition after_manual : @state lcg_random :=
  @iteration small_builtins lcg_random args0 tick_manual start0.


(** An answer to the rotation request that carries a key. *)
Definition key_response : response :=
  Resp true (Some (VDict [("apiKey", VStr "k1")])).

(** The state [save_state] is given when the key [k1] is rotated for
    [esp32-sim1] with no state file. *)
Definition saved0 : value :=
  VDict [("devices", VDict [("esp32-sim1", VStr "k1")])].

(** The lines of a stream that names the [command] event and then
    carries the document [doc_patch]. *)
Definition command_lines : list (bool * string) := [(false, "event: command")].
Definition data_lines : list (bool * string) :=
  [(false, "data: " ++ doc_patch); (false, "")].
Definition stream0 : stream := Stream 200 (command_lines ++ data_lines).

(** ** Properties *)

Section Properties.
Context `{Builtins} `{Random}.

(** *** Running a sequence of statements *)

Lemma bind_run {A B} (m : M A) (k : A -> M B) (st : state) :
  bind m k st =
    match fst (m st) with
    | Done x => k x (snd (m st))
    | Raised => (Raised, snd (m st))
    end.
Proof.
  unfold bind. destruct (m st) as [[x|] st']; reflexivity.
Qed.

Lemma bind_done {A B} (m : M A) (k : A -> M B) (st st' : state) (x : A) :
  m st = (Done x, st') -> bind m k st = k x st'.
Proof.
  intro E. unfold bind. rewrite E. reflexivity.
Qed.

Lemma bind_raised {A B} (m : M A) (k : A -> M B) (st st' : state) :
  m st = (Raised, st') -> bind m k st = (Raised, st').
Proof.
  intro E. unfold bind. rewrite E. reflexivity.
Qed.

(** *** Frames: what a statement leaves alone *)

Lemma preserves_ret {A X} (f : state -> X) (x : A) : preserves f (ret x).
Proof. intro st. reflexivity. Qed.

Lemma preserves_raise {A X} (f : state -> X) : preserves f (raise : M A).
Proof. intro st. reflexivity. Qed.

Lemma preserves_gets {A X} (f : state -> X) (g : state -> A) : preserves f (gets g).
Proof. intro st. reflexivity. Qed.

Lemma preserves_lift {A X} (f : state -> X) (o : option A) : preserves f (lift o).
Proof. intro st. destruct o; reflexivity. Qed.

Lemma preserves_local {A X} (f : state -> X) (g : state -> option A) :
  preserves f (local g).
Proof. intro st. unfold local. destruct (g st); reflexivity. Qed.

Lemma preserves_modify {X} (f : state -> X) (g : state -> state) :
  (forall st, f (g st) = f st) -> preserves f (modify g).
Proof. intros E st. apply E. Qed.

Lemma preserves_bind {A B X} (f : state -> X) (m : M A) (k : A -> M B) :
  preserves f m -> (forall x, preserves f (k x)) -> preserves f (bind m k).
Proof.
  intros Hm Hk st. rewrite bind_run.
  destruct (fst (m st)) as [x|]; cbn [snd].
  - rewrite Hk. apply Hm.
  - apply Hm.
Qed.

Lemma preserves_when {X} (f : state -> X) (c : bool) (m : M unit) :
  preserves f m -> preserves f (when c m).
Proof. intros Hm. destruct c; [exact Hm | apply preserves_ret]. Qed.

Lemma preserves_try_pass {X} (f : state -> X) (m : M unit) :
  preserves f m -> preserves f (try_pass m).
Proof. intros Hm st. apply Hm. Qed.

Lemma preserves_or_local {X} (f : state -> X) (v : value) (rd : M value) :
  preserves f rd -> preserves f (or_local v rd).
Proof. intros Hr. unfold or_local. destruct (truthy v); [apply preserves_ret | exact Hr]. Qed.

Lemma preserves_post_ack {X} (f : state -> X) (r pump : bool) (m note : string) :
  (forall st x, f (with_sent x st) = f st) -> preserves f (post_ack r pump m note).
Proof.
  intros E. unfold post_ack. destruct r; [|apply preserves_raise].
  apply preserves_modify. intro st. apply E.
Qed.

Lemma preserves_post_reading {X} (f : state -> X) (r : bool) (mo : Z) (pump : bool) (x : Z) :
  (forall st x, f (with_sent x st) = f st) -> preserves f (post_reading r mo pump x).
Proof.
  intros E. unfold post_reading. destruct r; [|apply preserves_raise].
  apply preserves_modify. intro st. apply E.
Qed.

Lemma preserves_get_settings {X} (f : state -> X) (i : tick_in) :
  preserves f (get_settings i).
Proof.
  unfold get_settings. destruct (fetch i); (apply preserves_raise || apply preserves_ret).
Qed.

(** One step of a frame proof; [frame] runs it to the end. *)
Ltac frame_step :=
  match goal with
  | |- preserves _ (bind _ _) => apply preserves_bind; [|intros]
  | |- preserves _ (ret _) => apply preserves_ret
  | |- preserves _ raise => apply preserves_raise
  | |- preserves _ (gets _) => apply preserves_gets
  | |- preserves _ (lift _) => apply preserves_lift
  | |- preserves _ (local _) => apply preserves_local
  | |- preserves _ (when _ _) => apply preserves_when
  | |- preserves _ (try_pass _) => apply preserves_try_pass
  | |- preserves _ (or_local _ _) => apply preserves_or_local
  | |- preserves _ (get_settings _) => apply preserves_get_settings
  | |- preserves _ (post_ack _ _ _ _) =>
      apply preserves_post_ack; intros; reflexivity
  | |- preserves _ (post_reading _ _ _ _) =>
      apply preserves_post_reading; intros; reflexivity
  | |- preserves _ (modify _) => apply preserves_modify; intros; reflexivity
  | |- preserves _ (match ?x with _ => _ end) => destruct x
  end.

Ltac frame := repeat frame_step.

Lemma listener_env (evs : list sse_event) (st : state) :
  env_of (listener evs st) = env_of st.
Proof.
  revert st. induction evs as [|e evs IH]; intro st; [reflexivity|].
  cbn [listener fold_left]. change (env_of (listener evs
    (match e with EvSettings => on_settings st | EvCommand p => on_command p st end))
    = env_of st).
  rewrite IH. destruct e; reflexivity.
Qed.

Ltac unfold_patch :=
  unfold merge_patch, patch_mode, patch_override_on, patch_on_below,
    patch_off_above, patch_send_interval.

Lemma merge_patch_env (p : dict) : preserves env_of (merge_patch p).
Proof. unfold_patch. frame. Qed.

Lemma decision_inputs_preserves {X} (f : state -> X) : preserves f decision_inputs.
Proof. unfold decision_inputs. frame. Qed.

Lemma before_environment_env (a : args) (i : tick_in) :
  preserves env_of (before_environment a i).
Proof.
  unfold before_environment, fetch_settings, apply_pending, ack_settings_applied.
  frame; try apply merge_patch_env; try apply decision_inputs_preserves.
  apply preserves_modify. intro st. apply listener_env.
Qed.

Lemma after_environment_env (i : tick_in) :
  preserves env_of (control ;; ack_on_change i ;; report i).
Proof.
  unfold control, ack_on_change, report.
  frame; apply decision_inputs_preserves.
Qed.

(** *** The environment step *)

Lemma clamp_range (x lo hi : Z) : lo <= hi -> lo <= clamp x lo hi <= hi.
Proof. unfold clamp. lia. Qed.

Lemma env_step_range (m d w : Z) : 0 <= env_step m d w <= 100.
Proof. unfold env_step. apply clamp_range. lia. Qed.

(** Line 286 on each of the 101 moisture values a clamped reading can take. *)
Lemma raw_of_table :
  forallb (fun m => match raw_of m with
                    | Some r => r =? 1400 + (100 - m) * (3200 - 1400) / 100
                    | None => false
                    end)
          (map Z.of_nat (seq 0 101)) = true.
Proof. vm_compute. reflexivity. Qed.

Lemma raw_of_closed (m : Z) :
  0 <= m <= 100 -> raw_of m = Some (1400 + (100 - m) * (3200 - 1400) / 100).
Proof.
  intro Hm.
  assert (Hin : In m (map Z.of_nat (seq 0 101))).
  { apply in_map_iff. exists (Z.to_nat m). split; [lia|].
    apply in_seq. lia. }
  pose proof (proj1 (forallb_forall _ _) raw_of_table m Hin) as E.
  cbv beta in E. destruct (raw_of m) as [r|]; [|discriminate].
  apply Z.eqb_eq in E. rewrite E. reflexivity.
Qed.

Lemma environment_run (i : tick_in) (st : state) :
  let d := fst (randint (-2) 2 (rng st)) in
  let m' := env_step (moisture st) d (wave i) in
  environment i st =
    (Done tt,
     with_raw (Some (1400 + (100 - m') * (3200 - 1400) / 100))
       (with_moisture m' (with_rng (snd (randint (-2) 2 (rng st))) st))).
Proof.
  intros d m'. subst d m'. unfold environment.
  rewrite (bind_done _ _ st st (rng st)) by reflexivity.
  destruct (randint (-2) 2 (rng st)) as [d g'] eqn:Ed. cbn [fst snd].
  unfold bind, modify, gets. cbn [moisture with_moisture with_rng].
  fold (env_step (moisture st) d (wave i)).
  rewrite (raw_of_closed (env_step (moisture st) d (wave i)))
    by apply env_step_range.
  reflexivity.
Qed.

(** The moisture and the generator after the body of the loop: advanced
    by one environment step when the statements before line 284
    completed, untouched when one of them raised. *)
Lemma loop_body_env (a : args) (i : tick_in) (st : state) :
  env_of (snd (loop_body a i st)) =
    match fst (before_environment a i st) with
    | Done _ => (env_step (moisture st) (fst (randint (-2) 2 (rng st))) (wave i),
                 snd (randint (-2) 2 (rng st)))
    | Raised => env_of st
    end.
Proof.
  unfold loop_body. rewrite bind_run.
  pose proof (before_environment_env a i st) as Hb.
  destruct (fst (before_environment a i st)) as [[]|]; cbn [snd]; [|exact Hb].
  set (st1 := snd (before_environment a i st)) in *.
  rewrite (bind_done _ _ st1 _ tt (environment_run i st1)).
  rewrite after_environment_env.
  unfold env_of in Hb. injection Hb as Hm Hg.
  unfold env_of. cbn [moisture rng with_raw with_moisture with_rng].
  rewrite Hm, Hg. reflexivity.
Qed.

Lemma iteration_env (a : args) (i : tick_in) (st : state) :
  env_of (iteration a i st) =
    match fst (before_environment a i (listener (sse_before i) st)) with
    | Done _ => (env_step (moisture st) (fst (randint (-2) 2 (rng st))) (wave i),
                 snd (randint (-2) 2 (rng st)))
    | Raised => env_of st
    end.
Proof.
  unfold iteration. rewrite loop_body_env.
  pose proof (listener_env (sse_before i) st) as E.
  unfold env_of in E. injection E as Em Eg.
  rewrite Em, Eg. unfold env_of. rewrite Em, Eg. reflexivity.
Qed.

(** C8. One step of the environment model, for any draw and any value
    of the sine term, takes a moisture in [0,100] to a moisture in
    [0,100]; the statement at lines 284-285 computes that step, and so
    the moisture is in [0,100] after every iteration of the loop. *)
Theorem C8_environment_in_range
    (a : args) (i : tick_in) (st : state) (draw sine : Z) :
  0 <= moisture st <= 100 ->
  0 <= env_step (moisture st) draw sine <= 100 /\
  moisture (snd (environment i st))
    = env_step (moisture st) (fst (randint (-2) 2 (rng st))) (wave i) /\
  0 <= moisture (iteration a i st) <= 100.
Proof.
  intro Hm. split; [apply env_step_range|]. split.
  - rewrite environment_run. reflexivity.
  - pose proof (iteration_env a i st) as E.
    destruct (fst (before_environment a i (listener (sse_before i) st)));
      unfold env_of in E; injection E as Em _; rewrite Em;
      [apply env_step_range | exact Hm].
Qed.

(** *** The raw sensor value *)

Lemma oblivious_ret {A} (v : A) : oblivious (ret v).
Proof. intros x st. reflexivity. Qed.

Lemma oblivious_raise {A} : oblivious (raise : M A).
Proof. intros x st. reflexivity. Qed.

Lemma oblivious_lift {A} (o : option A) : oblivious (lift o).
Proof. intros x st. destruct o; reflexivity. Qed.

Lemma oblivious_gets {A} (f : state -> A) :
  (forall x st, f (with_raw x st) = f st) -> oblivious (gets f).
Proof. intros E x st. unfold gets. rewrite E. reflexivity. Qed.

Lemma oblivious_local {A} (f : state -> option A) :
  (forall x st, f (with_raw x st) = f st) -> oblivious (local f).
Proof.
  intros E x st. unfold local. rewrite E. destruct (f st); reflexivity.
Qed.

Lemma oblivious_modify (g : state -> state) :
  (forall x st, g (with_raw x st) = with_raw x (g st)) -> oblivious (modify g).
Proof. intros E x st. unfold modify. rewrite E. reflexivity. Qed.

Lemma oblivious_bind {A B} (m : M A) (k : A -> M B) :
  oblivious m -> (forall v, oblivious (k v)) -> oblivious (bind m k).
Proof.
  intros Hm Hk x st. unfold bind. rewrite Hm.
  destruct (m st) as [[v|] st']; cbn [fst snd]; [apply Hk | reflexivity].
Qed.

Lemma oblivious_when (c : bool) (m : M unit) : oblivious m -> oblivious (when c m).
Proof. intro Hm. destruct c; [exact Hm | apply oblivious_ret]. Qed.

Lemma oblivious_try_pass (m : M unit) : oblivious m -> oblivious (try_pass m).
Proof. intros Hm x st. unfold try_pass. rewrite Hm. reflexivity. Qed.

Lemma oblivious_or_local (v : value) (rd : M value) :
  oblivious rd -> oblivious (or_local v rd).
Proof. intro Hr. unfold or_local. destruct (truthy v); [apply oblivious_ret | exact Hr]. Qed.

Lemma oblivious_post_ack (r pump : bool) (m note : string) :
  oblivious (post_ack r pump m note).
Proof.
  unfold post_ack. destruct r; [|apply oblivious_raise].
  apply oblivious_modify. reflexivity.
Qed.

Lemma oblivious_get_settings (i : tick_in) : oblivious (get_settings i).
Proof.
  unfold get_settings. destruct (fetch i); (apply oblivious_raise || apply oblivious_ret).
Qed.

Lemma listener_with_raw (evs : list sse_event) (x : option Z) (st : state) :
  listener evs (with_raw x st) = with_raw x (listener evs st).
Proof.
  revert st. induction evs as [|e evs IH]; intro st; [reflexivity|].
  destruct e; cbn [listener fold_left]; [apply IH|].
  change (on_command patch (with_raw x st)) with (with_raw x (on_command patch st)).
  apply IH.
Qed.

Ltac oblivious_step :=
  match goal with
  | |- oblivious (bind _ _) => apply oblivious_bind; [|intros]
  | |- oblivious (ret _) => apply oblivious_ret
  | |- oblivious raise => apply oblivious_raise
  | |- oblivious (gets _) => apply oblivious_gets; reflexivity
  | |- oblivious (lift _) => apply oblivious_lift
  | |- oblivious (local _) => apply oblivious_local; reflexivity
  | |- oblivious (when _ _) => apply oblivious_when
  | |- oblivious (try_pass _) => apply oblivious_try_pass
  | |- oblivious (or_local _ _) => apply oblivious_or_local
  | |- oblivious (get_settings _) => apply oblivious_get_settings
  | |- oblivious (post_ack _ _ _ _) => apply oblivious_post_ack
  | |- oblivious (modify (listener _)) =>
      apply oblivious_modify; intros; apply listener_with_raw
  | |- oblivious (modify _) => apply oblivious_modify; reflexivity
  | |- oblivious (match ?x with _ => _ end) => destruct x
  end.

Ltac oblivious_auto := repeat oblivious_step.

Lemma oblivious_decision_inputs : oblivious decision_inputs.
Proof. unfold decision_inputs. oblivious_auto. Qed.

Lemma oblivious_merge_patch (p : dict) : oblivious (merge_patch p).
Proof. unfold_patch. oblivious_auto. Qed.

Lemma oblivious_before_environment (a : args) (i : tick_in) :
  oblivious (before_environment a i).
Proof.
  unfold before_environment, fetch_settings, apply_pending, ack_settings_applied.
  oblivious_auto;
    solve [apply oblivious_merge_patch | apply oblivious_decision_inputs].
Qed.

Lemma oblivious_control_and_ack (i : tick_in) : oblivious (control ;; ack_on_change i).
Proof.
  unfold control, ack_on_change. oblivious_auto. apply oblivious_decision_inputs.
Qed.

(** The environment step assigns [raw] without reading it. *)
Lemma environment_forgets_raw (i : tick_in) (x : option Z) (st : state) :
  environment i (with_raw x st) = environment i st.
Proof. rewrite !environment_run. reflexivity. Qed.

Lemma loop_body_forgets_raw (a : args) (i : tick_in) (x : option Z) (st : state) :
  with_raw None (snd (loop_body a i (with_raw x st)))
    = with_raw None (snd (loop_body a i st)).
Proof.
  unfold loop_body.
  rewrite (bind_run (before_environment a i) _ (with_raw x st)).
  rewrite (bind_run (before_environment a i) _ st).
  rewrite (oblivious_before_environment a i x st). cbn [fst snd].
  set (st1 := snd (before_environment a i st)).
  destruct (fst (before_environment a i st)) as [[]|]; [|reflexivity].
  rewrite (bind_run (environment i) _ (with_raw x st1)).
  rewrite (bind_run (environment i) _ st1).
  rewrite environment_forgets_raw. reflexivity.
Qed.

Lemma raw_closed_form (m : Z) :
  1400 + (100 - m) * (3200 - 1400) / 100 = 3200 - 18 * m.
Proof.
  replace ((100 - m) * (3200 - 1400)) with ((18 * (100 - m)) * 100) by lia.
  rewrite Z.div_mul by lia. lia.
Qed.


(** *** Merging a patch *)

Lemma patch_mode_run (p : dict) (st : state) (m : string) :
  mode st = Some m ->
  patch_mode p st =
    (Done tt,
     if contains p "pumpMode"
     then with_mode (Some (str_lower (str (or_ (get p "pumpMode" VNone) (VStr m))))) st
     else st).
Proof.
  intro Hm. unfold patch_mode, when, or_local, or_.
  destruct (contains p "pumpMode"); [|reflexivity].
  destruct (truthy (get p "pumpMode" VNone)); [reflexivity|].
  unfold bind, local. rewrite Hm. reflexivity.
Qed.

Lemma patch_override_on_run (p : dict) (st : state) :
  patch_override_on p st =
    (Done tt,
     if contains p "overridePumpOn"
     then with_override_on (Some (bool_ (get p "overridePumpOn" VNone))) st
     else st).
Proof.
  unfold patch_override_on, when.
  destruct (contains p "overridePumpOn"); reflexivity.
Qed.

Lemma patch_on_below_run (p : dict) (st : state) (z : Z) :
  on_below st = Some z ->
  patch_on_below p st =
    if contains p "pumpOnBelow"
    then match int_ (or_ (get p "pumpOnBelow" VNone) (VInt z)) with
         | Some z' => (Done tt, with_on_below (Some z') st)
         | None => (Raised, st)
         end
    else (Done tt, st).
Proof.
  intro Hz. unfold patch_on_below, when, or_local, or_.
  destruct (contains p "pumpOnBelow"); [|reflexivity].
  destruct (truthy (get p "pumpOnBelow" VNone)).
  - unfold bind, ret, lift. destruct (int_ _); reflexivity.
  - unfold bind, local. rewrite Hz. cbn [lift ret].
    unfold lift. destruct (int_ _); reflexivity.
Qed.

Lemma patch_off_above_run (p : dict) (st : state) (z : Z) :
  off_above st = Some z ->
  patch_off_above p st =
    if contains p "pumpOffAbove"
    then match int_ (or_ (get p "pumpOffAbove" VNone) (VInt z)) with
         | Some z' => (Done tt, with_off_above (Some z') st)
         | None => (Raised, st)
         end
    else (Done tt, st).
Proof.
  intro Hz. unfold patch_off_above, when, or_local, or_.
  destruct (contains p "pumpOffAbove"); [|reflexivity].
  destruct (truthy (get p "pumpOffAbove" VNone)).
  - unfold bind, ret, lift. destruct (int_ _); reflexivity.
  - unfold bind, local. rewrite Hz. cbn [lift ret].
    unfold lift. destruct (int_ _); reflexivity.
Qed.

Lemma patch_send_interval_run (p : dict) (st : state) (f : float) :
  send_interval st = Some f ->
  patch_send_interval p st =
    (Done tt,
     if contains p "sendIntervalSec"
     then match float_ (or_ (get p "sendIntervalSec" VNone) (VFloat f)) with
          | Some f' => with_send_interval (Some f') st
          | None => st
          end
     else st).
Proof.
  intro Hf. unfold patch_send_interval, when, try_pass, or_local, or_.
  destruct (contains p "sendIntervalSec"); [|reflexivity].
  destruct (truthy (get p "sendIntervalSec" VNone)).
  - unfold bind, ret, lift. destruct (float_ _); reflexivity.
  - unfold bind, local. rewrite Hf. cbn [lift ret].
    unfold lift. destruct (float_ _); reflexivity.
Qed.

Lemma working_inv (st : state) (s : settings) :
  working st = Some s ->
  mode st = Some (s_mode s) /\ override_on st = Some (s_override_on s) /\
  on_below st = Some (s_on_below s) /\ off_above st = Some (s_off_above s) /\
  send_interval st = Some (s_send_interval s).
Proof.
  unfold working.
  destruct (mode st), (override_on st), (on_below st), (off_above st),
    (send_interval st); try discriminate.
  intros [= <-]. cbn. repeat split; reflexivity.
Qed.

Lemma merge_patch_run (p : dict) (st : state) (s : settings) :
  working st = Some s ->
  let st2 := with_override_on (Some (merged_override_on p (s_override_on s)))
               (with_mode (Some (merged_mode p (s_mode s))) st) in
  merge_patch p st =
    match merged_on_below p (s_on_below s) with
    | None => (Raised, st2)
    | Some ob =>
        match merged_off_above p (s_off_above s) with
        | None => (Raised, with_on_below (Some ob) st2)
        | Some oa =>
            (Done tt,
             with_send_interval (Some (merged_send_interval p (s_send_interval s)))
               (with_off_above (Some oa) (with_on_below (Some ob) st2)))
        end
    end.
Proof.
  intros Hw st2. subst st2.
  destruct (working_inv st s Hw) as (Hm & Ho & Hob & Hoa & Hf).
  destruct st as [mo pu la sa md ov ob oa si rw pe rg se].
  cbn [mode override_on on_below off_above send_interval] in *. subst.
  unfold merge_patch, merged_mode, merged_override_on, merged_on_below,
    merged_off_above, merged_send_interval.
  erewrite bind_done by (apply patch_mode_run; reflexivity).
  erewrite bind_done by (apply patch_override_on_run).
  destruct (contains p "pumpMode"), (contains p "overridePumpOn").
  all: erewrite bind_run; erewrite patch_on_below_run by reflexivity.
  all: destruct (contains p "pumpOnBelow");
       [destruct (int_ (or_ (get p "pumpOnBelow" VNone) (VInt (s_on_below s))));
        [|reflexivity]|].
  all: cbn [fst snd]; erewrite bind_run; erewrite patch_off_above_run by reflexivity.
  all: destruct (contains p "pumpOffAbove");
       [destruct (int_ (or_ (get p "pumpOffAbove" VNone) (VInt (s_off_above s))));
        [|reflexivity]|].
  all: cbn [fst snd]; erewrite patch_send_interval_run by reflexivity.
  all: destruct (contains p "sendIntervalSec");
       [destruct (float_ (or_ (get p "sendIntervalSec" VNone) (VFloat (s_send_interval s))))|];
       reflexivity.
Qed.

Lemma or_truthy (v w : value) : truthy v = true -> or_ v w = v.
Proof. intro E. unfold or_. rewrite E. reflexivity. Qed.

Lemma or_falsy (v w : value) : truthy v = false -> or_ v w = w.
Proof. intro E. unfold or_. rewrite E. reflexivity. Qed.

Lemma merge_patch_completes (p : dict) (st : state) (s : settings) :
  working st = Some s ->
  (contains p "pumpOnBelow" = true -> truthy (get p "pumpOnBelow" VNone) = true ->
   int_ (get p "pumpOnBelow" VNone) <> None) ->
  (contains p "pumpOffAbove" = true -> truthy (get p "pumpOffAbove" VNone) = true ->
   int_ (get p "pumpOffAbove" VNone) <> None) ->
  exists zb za,
    merged_on_below p (s_on_below s) = Some zb /\
    merged_off_above p (s_off_above s) = Some za.
Proof.
  intros Hw Hob Hoa.
  assert (Iob : exists z, merged_on_below p (s_on_below s) = Some z).
  { unfold merged_on_below. destruct (contains p "pumpOnBelow") eqn:C; [|eauto].
    destruct (truthy (get p "pumpOnBelow" VNone)) eqn:T.
    - rewrite (or_truthy _ _ T). specialize (Hob eq_refl eq_refl).
      destruct (int_ (get p "pumpOnBelow" VNone)); [eauto|contradiction].
    - rewrite (or_falsy _ _ T). cbn. eauto. }
  assert (Ioa : exists z, merged_off_above p (s_off_above s) = Some z).
  { unfold merged_off_above. destruct (contains p "pumpOffAbove") eqn:C; [|eauto].
    destruct (truthy (get p "pumpOffAbove" VNone)) eqn:T.
    - rewrite (or_truthy _ _ T). specialize (Hoa eq_refl eq_refl).
      destruct (int_ (get p "pumpOffAbove" VNone)); [eauto|contradiction].
    - rewrite (or_falsy _ _ T). cbn. eauto. }
  destruct Iob as [zb Zb]. destruct Ioa as [za Za]. eauto.
Qed.

(** What [v or current] does with a value that is false in Python's
    sense (null, false, 0, an empty string, list or object): the field
    falls back to the current value. *)
Lemma merge_patch_falsy (p : dict) (st : state) (s : settings) :
  working st = Some s ->
  let st' := snd (merge_patch p st) in
  fst (merge_patch p st) = Done tt ->
  (contains p "pumpMode" = true -> truthy (get p "pumpMode" VNone) = false ->
   mode st' = Some (str_lower (s_mode s))) /\
  (contains p "pumpOnBelow" = true -> truthy (get p "pumpOnBelow" VNone) = false ->
   on_below st' = on_below st) /\
  (contains p "pumpOffAbove" = true -> truthy (get p "pumpOffAbove" VNone) = false ->
   off_above st' = off_above st) /\
  (contains p "sendIntervalSec" = true ->
   truthy (get p "sendIntervalSec" VNone) = false ->
   send_interval st' = send_interval st).
Proof.
  intros Hw st'. subst st'.
  destruct (working_inv st s Hw) as (Hm & Ho & Eob & Eoa & Hf).
  rewrite (merge_patch_run p st s Hw).
  destruct (merged_on_below p (s_on_below s)) as [zb|] eqn:Zb; [|discriminate].
  destruct (merged_off_above p (s_off_above s)) as [za|] eqn:Za; [|discriminate].
  intros _.
  cbn [fst snd mode override_on on_below off_above send_interval
       with_mode with_override_on with_on_below with_off_above with_send_interval].
  unfold merged_on_below in Zb. unfold merged_off_above in Za.
  unfold merged_mode, merged_send_interval.
  rewrite Eob, Eoa, Hf.
  repeat match goal with |- _ /\ _ => split end.
  - intros C T. rewrite C, (or_falsy _ _ T). reflexivity.
  - intros C T. rewrite C, (or_falsy _ _ T) in Zb. cbn in Zb. congruence.
  - intros C T. rewrite C, (or_falsy _ _ T) in Za. cbn in Za. congruence.
  - intros C T. rewrite C, (or_falsy _ _ T). reflexivity.
Qed.

(** The merge field by field. With the five settings assigned and the
    two thresholds of the patch, where present and true, accepted by
    [int()], merging a patch completes and touches nothing but the
    settings. A field whose key is absent keeps its value. A field
    whose key is present with a value that is true in Python's sense
    takes that value after coercion ([str().lower()], [int()],
    [float()]); [overridePumpOn] takes the truth value of whatever is
    there. A [pumpMode], [pumpOnBelow] or [pumpOffAbove] that is null
    leaves the current value in place (the mode lower-cased once
    more), and so does a [sendIntervalSec] that [float()] rejects.
    When every value present is true, the result is the merge as the
    specification words it. *)
Lemma merge_patch_fields (p : dict) (st : state) (s : settings) :
  working st = Some s ->
  (contains p "pumpOnBelow" = true -> truthy (get p "pumpOnBelow" VNone) = true ->
   int_ (get p "pumpOnBelow" VNone) <> None) ->
  (contains p "pumpOffAbove" = true -> truthy (get p "pumpOffAbove" VNone) = true ->
   int_ (get p "pumpOffAbove" VNone) <> None) ->
  let st' := snd (merge_patch p st) in
  fst (merge_patch p st) = Done tt /\
  rest_of st' = rest_of st /\
  (contains p "pumpMode" = false -> mode st' = mode st) /\
  (contains p "overridePumpOn" = false -> override_on st' = override_on st) /\
  (contains p "pumpOnBelow" = false -> on_below st' = on_below st) /\
  (contains p "pumpOffAbove" = false -> off_above st' = off_above st) /\
  (contains p "sendIntervalSec" = false -> send_interval st' = send_interval st) /\
  (contains p "pumpMode" = true -> truthy (get p "pumpMode" VNone) = true ->
   mode st' = Some (str_lower (str (get p "pumpMode" VNone)))) /\
  (contains p "overridePumpOn" = true ->
   override_on st' = Some (bool_ (get p "overridePumpOn" VNone))) /\
  (contains p "pumpOnBelow" = true -> truthy (get p "pumpOnBelow" VNone) = true ->
   on_below st' = int_ (get p "pumpOnBelow" VNone)) /\
  (contains p "pumpOffAbove" = true -> truthy (get p "pumpOffAbove" VNone) = true ->
   off_above st' = int_ (get p "pumpOffAbove" VNone)) /\
  (contains p "sendIntervalSec" = true ->
   truthy (get p "sendIntervalSec" VNone) = true ->
   forall f, float_ (get p "sendIntervalSec" VNone) = Some f ->
   send_interval st' = Some f) /\
  (contains p "pumpMode" = true -> get p "pumpMode" VNone = VNone ->
   mode st' = Some (str_lower (s_mode s))) /\
  (contains p "pumpOnBelow" = true -> get p "pumpOnBelow" VNone = VNone ->
   on_below st' = on_below st) /\
  (contains p "pumpOffAbove" = true -> get p "pumpOffAbove" VNone = VNone ->
   off_above st' = off_above st) /\
  (contains p "sendIntervalSec" = true ->
   float_ (get p "sendIntervalSec" VNone) = None ->
   send_interval st' = send_interval st) /\
  ((forall k, In k value_fields -> contains p k = true ->
    truthy (get p k VNone) = true) ->
   forall s', spec_merge p s = Some s' -> working st' = Some s').
Proof.
  intros Hw Hob Hoa st'. subst st'.
  destruct (merge_patch_completes p st s Hw Hob Hoa) as (zb & za & Zb & Za).
  assert (Hdone : fst (merge_patch p st) = Done tt)
    by (rewrite (merge_patch_run p st s Hw), Zb, Za; reflexivity).
  destruct (merge_patch_falsy p st s Hw Hdone) as (Fm & Fb & Fa & _).
  split; [exact Hdone|].
  destruct (working_inv st s Hw) as (Hm & Ho & Eob & Eoa & Hf).
  rewrite (merge_patch_run p st s Hw) in *. rewrite Zb, Za in *.
  cbn [fst snd mode override_on on_below off_above send_interval
       with_mode with_override_on with_on_below with_off_above with_send_interval]
    in *.
  unfold merged_on_below in Zb. unfold merged_off_above in Za.
  unfold merged_mode, merged_override_on, merged_send_interval.
  rewrite Hm, Ho, Eob, Eoa, Hf.
  split; [reflexivity|].
  repeat match goal with |- _ /\ _ => split end.
  - intros C. rewrite C. reflexivity.
  - intros C. rewrite C. reflexivity.
  - intros C. rewrite C in Zb. congruence.
  - intros C. rewrite C in Za. congruence.
  - intros C. rewrite C. reflexivity.
  - intros C T. rewrite C, (or_truthy _ _ T). reflexivity.
  - intros C. rewrite C. reflexivity.
  - intros C T. rewrite C, (or_truthy _ _ T) in Zb. congruence.
  - intros C T. rewrite C, (or_truthy _ _ T) in Za. congruence.
  - intros C T f Ef. rewrite C, (or_truthy _ _ T), Ef. reflexivity.
  - intros C E. apply (Fm C). rewrite E. reflexivity.
  - intros C E. rewrite <- Eob. apply (Fb C). rewrite E. reflexivity.
  - intros C E. rewrite <- Eoa. apply (Fa C). rewrite E. reflexivity.
  - intros C Ef. rewrite C.
    destruct (truthy (get p "sendIntervalSec" VNone)) eqn:T.
    + rewrite (or_truthy _ _ T), Ef. reflexivity.
    + rewrite (or_falsy _ _ T). reflexivity.
  - intros Hall s' Es. unfold spec_merge in Es. unfold working.
    cbn [mode override_on on_below off_above send_interval
         with_mode with_override_on with_on_below with_off_above with_send_interval].
    assert (Tm := Hall "pumpMode"). assert (Tb := Hall "pumpOnBelow").
    assert (Ta := Hall "pumpOffAbove"). assert (Tf := Hall "sendIntervalSec").
    unfold value_fields in *. cbn [In] in *.
    destruct (contains p "pumpMode");
      [rewrite (or_truthy _ (VStr (s_mode s))) by (apply Tm; auto)|];
    (destruct (contains p "pumpOnBelow");
      [rewrite or_truthy in Zb by (apply Tb; auto 6)|]);
    (destruct (contains p "pumpOffAbove");
      [rewrite or_truthy in Za by (apply Ta; auto 6)|]);
    (destruct (contains p "sendIntervalSec");
      [rewrite (or_truthy _ (VFloat (s_send_interval s))) by (apply Tf; auto 6)|]).
    all: rewrite ?Zb, ?Za in Es.
    all: try (destruct (float_ (get p "sendIntervalSec" VNone)); [|discriminate]).
    all: congruence.
Qed.

Lemma listener_frame {X} (f : state -> X) (evs : list sse_event) (st : state) :
  (forall x st, f (with_pending_patch x st) = f st) ->
  f (listener evs st) = f st.
Proof.
  intro E. revert st. induction evs as [|e evs IH]; intro st; [reflexivity|].
  cbn [listener fold_left].
  change (f (listener evs (match e with
                           | EvSettings => on_settings st
                           | EvCommand p => on_command p st
                           end)) = f st).
  rewrite IH. destruct e; [reflexivity|]. apply E.
Qed.

Lemma fetch_settings_not_ok (a : args) (i : tick_in) (st : state) :
  fetch i = FetchNotOk ->
  fetch_settings a i st = (Done tt, with_settings (defaults a) st).
Proof.
  intro E. unfold fetch_settings, get_settings. rewrite E.
  cbn. rewrite (str_lower_plain "auto") by reflexivity. reflexivity.
Qed.

Lemma fetch_settings_raise (a : args) (i : tick_in) (st : state) :
  fetch i = FetchRaise -> fetch_settings a i st = (Raised, st).
Proof.
  intro E. unfold fetch_settings, get_settings. rewrite E. reflexivity.
Qed.

Lemma working_with_settings (s : settings) (st : state) :
  working (with_settings s st) = Some s.
Proof. destruct s. reflexivity. Qed.

(** C6 (as amended). On any tick, the first or a later one, where the
    settings fetch comes back not OK, lines 239-243 assign the defaults
    (auto, false, 35, 45, the configured interval) whatever the
    previous tick had. When the fetch raises instead, the rest of the
    tick is skipped and nothing the loop holds is changed. *)
Theorem C6_failed_fetch (a : args) (i : tick_in) (st : state) :
  match fetch i with
  | FetchNotOk =>
      fetch_settings a i st = (Done tt, with_settings (defaults a) st) /\
      working (snd (fetch_settings a i st)) = Some (defaults a)
  | FetchRaise =>
      fetch_settings a i st = (Raised, st) /\
      iteration a i st = listener (sse_before i) st
  | FetchJson _ => True
  end.
Proof.
  destruct (fetch i) as [| |body] eqn:E; [| |exact I].
  - split; [apply fetch_settings_raise; exact E|].
    unfold iteration, loop_body, before_environment.
    rewrite !bind_run. rewrite (fetch_settings_raise a i _ E). reflexivity.
  - rewrite (fetch_settings_not_ok a i st E). split; [reflexivity|].
    apply working_with_settings.
Qed.

(** C5, at the patch [{"pumpOnBelow": [1], "pumpOffAbove": 60}]. From any
    state, with the fetch not OK (defaults 35 and 45) and whatever the
    requests would do: [int([1])] raises, the body of the loop ends
    there, [pumpOffAbove] -- present in the patch and coercible to 60
    -- is still 45, no acknowledgement and no reading have been sent,
    and the patch is gone. *)
Theorem C5_bad_threshold_aborts_tick
    (a : args) (st : state) (racing : list sse_event) (b1 b2 b3 b4 : bool) (w : Z) :
  let i := mkTick [EvCommand bad_patch] racing FetchNotOk b1 b2 b3 b4 w in
  let st' := iteration a i st in
  contains bad_patch "pumpOffAbove" = true /\
  int_ (get bad_patch "pumpOffAbove" VNone) = Some 60 /\
  fst (loop_body a i (listener (sse_before i) st)) = Raised /\
  off_above st' = Some 45 /\
  sent st' = sent st /\
  pending_patch st' = None.
Proof.
  intros i st'. subst st'. unfold iteration.
  split; [reflexivity|]. split; [reflexivity|].
  set (st0 := listener (sse_before i) st).
  assert (E0 : st0 = with_pending_patch (Some bad_patch) st) by reflexivity.
  unfold loop_body, before_environment.
  rewrite (bind_run (fetch_settings a i;; _)).
  rewrite (bind_run (fetch_settings a i)).
  rewrite (fetch_settings_not_ok a i st0 eq_refl). cbn [fst snd].
  set (st1 := with_settings (defaults a) st0).
  assert (Ha : exists st2, apply_pending i st1 = (Raised, st2) /\
                 off_above st2 = Some 45 /\ sent st2 = sent st /\
                 pending_patch st2 = None).
  { unfold apply_pending. rewrite (bind_done _ _ st1 st1 (Some bad_patch)) by reflexivity.
    unfold bad_patch at 1.
    rewrite (bind_done _ _ st1 (listener racing st1) tt) by reflexivity.
    rewrite (bind_done _ _ _ (with_pending_patch None (listener racing st1)) tt)
      by reflexivity.
    eexists. split.
    - apply bind_raised. rewrite (merge_patch_run _ _ (defaults a)).
      + fold bad_patch.
        change (merged_on_below bad_patch (s_on_below (defaults a))) with (@None Z).
        reflexivity.
      + rewrite <- (working_with_settings (defaults a) st0). fold st1.
        change (working (with_pending_patch None (listener racing st1)))
          with (working (listener racing st1)).
        apply (listener_frame working). reflexivity.
    - cbn [off_above sent pending_patch with_override_on with_mode with_pending_patch].
      rewrite (listener_frame off_above), (listener_frame sent) by reflexivity.
      repeat split. }
  destruct Ha as (st2 & Ha & Hoff & Hsent & Hpend).
  rewrite (bind_run (apply_pending i)). rewrite Ha. cbn [fst snd].
  repeat split; assumption.
Qed.

(** *** The statements that acknowledge *)

Lemma apply_pending_idle (i : tick_in) (st : state) :
  patch_truthy (pending_patch st) = false -> apply_pending i st = (Done tt, st).
Proof.
  intro E. unfold apply_pending.
  rewrite (bind_done _ _ st st (pending_patch st)) by reflexivity.
  destruct (pending_patch st) as [[|b p]|]; try reflexivity. discriminate.
Qed.

Lemma decision_inputs_run (st : state) (s : settings) :
  working st = Some s ->
  decision_inputs st =
    (Done (s_mode s, s_override_on s, s_on_below s, s_off_above s,
           moisture st, pump_on st), st).
Proof.
  intro Hw. destruct (working_inv st s Hw) as (Hm & Ho & Hob & Hoa & _).
  unfold decision_inputs.
  erewrite bind_done by (unfold local; rewrite Hm; reflexivity).
  erewrite bind_done by (unfold local; rewrite Ho; reflexivity).
  erewrite bind_done by (unfold local; rewrite Hob; reflexivity).
  erewrite bind_done by (unfold local; rewrite Hoa; reflexivity).
  reflexivity.
Qed.

Lemma merge_patch_bound (p : dict) (st : state) (s : settings) :
  working st = Some s -> exists s', working (snd (merge_patch p st)) = Some s'.
Proof.
  intro Hw. rewrite (merge_patch_run p st s Hw).
  destruct (working_inv st s Hw) as (_ & _ & Hob & Hoa & Hf).
  destruct (merged_on_below p (s_on_below s));
    [destruct (merged_off_above p (s_off_above s))|];
    unfold working;
    cbn [snd mode override_on on_below off_above send_interval
         with_mode with_override_on with_on_below with_off_above with_send_interval];
    rewrite ?Hob, ?Hoa, ?Hf; eauto.
Qed.

Lemma merge_patch_rest (p : dict) : preserves rest_of (merge_patch p).
Proof. unfold_patch. frame. Qed.

Lemma apply_pending_taken (i : tick_in) (st : state) (s : settings) :
  working st = Some s ->
  patch_truthy (pending_patch st) = true ->
  let r := apply_pending i st in
  pending_patch (snd r) = None /\
  tick_view (snd r) = tick_view st /\
  (exists s', working (snd r) = Some s') /\
  ((fst r = Raised /\ ack_view (snd r) = ack_view st) \/
   (fst r = Done tt /\ ack_cmd_returns i = true /\
    exists d m, sent (snd r) = (sent st ++ [Ack d m "cmd"])%list /\
                last_ack_state (snd r) = Some (d, m) /\
                pump_on (snd r) = d /\ mode (snd r) = Some m)).
Proof.
  intros Hw Ht r. subst r. unfold apply_pending.
  rewrite (bind_done _ _ st st (pending_patch st)) by reflexivity.
  destruct (pending_patch st) as [[|b p']|] eqn:Ep; try discriminate.
  set (p := b :: p').
  rewrite (bind_done _ _ st (listener (sse_racing i) st) tt) by reflexivity.
  set (stc := with_pending_patch None (listener (sse_racing i) st)).
  rewrite (bind_done _ _ _ stc tt) by reflexivity.
  assert (Hwc : working stc = Some s).
  { rewrite <- Hw. change (working stc) with (working (listener (sse_racing i) st)).
    apply (listener_frame working). reflexivity. }
  assert (Hrc : rest_of (snd (merge_patch p stc)) = rest_of stc)
    by apply merge_patch_rest.
  assert (Hr0 : forall X (f : state -> X),
             (forall x st, f (with_pending_patch x st) = f st) -> f stc = f st).
  { intros X f Ef. unfold stc. rewrite Ef. apply listener_frame. exact Ef. }
  destruct (merge_patch_bound p stc s Hwc) as [s' Hs'].
  set (stm := snd (merge_patch p stc)) in *.
  unfold rest_of in Hrc. injection Hrc as Hmo Hpu Hla Hsa Hrw Hpe Hrg Hse.
  assert (Hview : tick_view stm = tick_view st).
  { unfold tick_view. rewrite Hmo, Hsa, Hrw, Hrg.
    apply (Hr0 _ tick_view). reflexivity. }
  assert (Hack : ack_view stm = ack_view st).
  { unfold ack_view. rewrite Hla, Hpu, Hse. apply (Hr0 _ ack_view). reflexivity. }
  assert (Hpend : pending_patch stm = None) by (rewrite Hpe; reflexivity).
  rewrite bind_run. fold stm.
  destruct (fst (merge_patch p stc)) as [[]|].
  - rewrite (bind_done _ _ stm stm _ (decision_inputs_run stm s' Hs')).
    cbv beta iota. unfold post_ack.
    destruct (ack_cmd_returns i) eqn:Er.
    + unfold bind, modify. cbn [fst snd].
      split; [exact Hpend|]. split; [exact Hview|].
      split; [exists s'; exact Hs'|].
      right. split; [reflexivity|]. split; [reflexivity|].
      eexists _, _. split; [|split; [reflexivity|split; [reflexivity|]]].
      * cbn [sent with_pump_on with_last_ack_state with_sent].
        unfold ack_view in Hack. injection Hack as _ _ Hs. rewrite Hs. reflexivity.
      * destruct (working_inv stm s' Hs') as (Hm' & _). exact Hm'.
    + unfold bind, raise. cbn [fst snd].
      split; [exact Hpend|]. split; [exact Hview|].
      split; [exists s'; exact Hs'|].
      left. split; [reflexivity|exact Hack].
  - cbn [fst snd].
    split; [exact Hpend|]. split; [exact Hview|].
    split; [exists s'; exact Hs'|].
    left. split; [reflexivity|exact Hack].
Qed.

Lemma fetch_settings_rest (a : args) (i : tick_in) :
  preserves rest_of (fetch_settings a i).
Proof. unfold fetch_settings. frame. Qed.

(** When lines 238-243 complete, all five settings are assigned. *)
Lemma fetch_settings_done (a : args) (i : tick_in) (st : state) :
  fst (fetch_settings a i st) = Done tt ->
  exists s, snd (fetch_settings a i st) = with_settings s st.
Proof.
  unfold fetch_settings, get_settings, bind, lift, ret, raise, modify.
  destruct (fetch i) as [| |body]; cbn [fst snd]; try discriminate;
    repeat match goal with
           | |- context [match ?x with Some _ => _ | None => _ end] =>
               destruct x; cbn [fst snd]; try discriminate
           end;
    intros _; eexists (mkSettings _ _ _ _ _); reflexivity.
Qed.

Lemma working_frame (st st' : state) :
  mode st' = mode st -> override_on st' = override_on st ->
  on_below st' = on_below st -> off_above st' = off_above st ->
  send_interval st' = send_interval st -> working st' = working st.
Proof. intros E1 E2 E3 E4 E5. unfold working. rewrite E1, E2, E3, E4, E5. reflexivity. Qed.

Lemma ack_settings_applied_run (i : tick_in) (st : state) (m : string) :
  mode st = Some m ->
  ack_settings_applied i st =
    if settings_applied_acked st then (Done tt, st)
    else if ack_applied_returns i
         then (Done tt,
               with_settings_applied_acked true
                 (with_sent (sent st ++ [Ack (pump_on st) m "settings applied"]) st))
         else (Raised, st).
Proof.
  intro Hm. unfold ack_settings_applied.
  rewrite (bind_done _ _ st st (settings_applied_acked st)) by reflexivity.
  destruct (settings_applied_acked st); [reflexivity|]. cbn [negb when].
  rewrite (bind_done _ _ st st (pump_on st)) by reflexivity.
  erewrite bind_done by (unfold local; rewrite Hm; reflexivity).
  unfold post_ack. destruct (ack_applied_returns i); reflexivity.
Qed.

Lemma control_run (st : state) (s : settings) :
  working st = Some s ->
  control st =
    (Done tt,
     with_pump_on (control_logic (s_mode s) (s_override_on s) (s_on_below s)
                     (s_off_above s) (moisture st) (pump_on st)) st).
Proof.
  intro Hw. unfold control.
  rewrite (bind_done _ _ st st _ (decision_inputs_run st s Hw)). reflexivity.
Qed.

Lemma ack_on_change_run (i : tick_in) (st : state) (m : string) :
  mode st = Some m ->
  ack_on_change i st =
    if ack_due (last_ack_state st) (pump_on st) m
    then if ack_sim_returns i
         then (Done tt,
               with_last_ack_state (Some (pump_on st, m))
                 (with_sent (sent st ++ [Ack (pump_on st) m "sim"]) st))
         else (Raised, st)
    else (Done tt, st).
Proof.
  intro Hm. unfold ack_on_change.
  rewrite (bind_done _ _ st st (last_ack_state st)) by reflexivity.
  rewrite (bind_done _ _ st st (pump_on st)) by reflexivity.
  erewrite bind_done by (unfold local; rewrite Hm; reflexivity).
  destruct (ack_due (last_ack_state st) (pump_on st) m); [|reflexivity].
  cbn [when]. unfold post_ack. destruct (ack_sim_returns i); reflexivity.
Qed.

Lemma report_run (i : tick_in) (st : state) (r : Z) :
  raw st = Some r ->
  report i st =
    if reading_returns i
    then (Done tt, with_sent (sent st ++ [Reading (moisture st) (pump_on st) r]) st)
    else (Raised, st).
Proof.
  intro Hr. unfold report.
  rewrite (bind_done _ _ st st (moisture st)) by reflexivity.
  rewrite (bind_done _ _ st st (pump_on st)) by reflexivity.
  erewrite bind_done by (unfold local; rewrite Hr; reflexivity).
  unfold post_reading. destruct (reading_returns i); reflexivity.
Qed.

(** *** The requests of one iteration *)

Lemma bind_assoc_run {A B C} (m : M A) (k : A -> M B) (h : B -> M C) (st : state) :
  bind (bind m k) h st = bind m (fun x => bind (k x) h) st.
Proof.
  unfold bind. destruct (m st) as [[x|] st1]; [|reflexivity].
  destruct (k x st1) as [[y|] st2]; reflexivity.
Qed.

Lemma loop_body_flat (a : args) (i : tick_in) (st : state) :
  loop_body a i st =
    (fetch_settings a i ;; apply_pending i ;; ack_settings_applied i ;;
     environment i ;; control ;; ack_on_change i ;; report i) st.
Proof.
  unfold loop_body, before_environment.
  rewrite bind_assoc_run. rewrite !(bind_run (fetch_settings a i) _ st).
  destruct (fst (fetch_settings a i st)) as [[]|]; [|reflexivity].
  rewrite bind_assoc_run. reflexivity.
Qed.

(** Lines 284-303, from a state in which the settings are assigned. *)
Lemma environment_tail_trace (i : tick_in) (st3 : state) (s : settings) :
  working st3 = Some s ->
  let st' := snd ((environment i ;; control ;; ack_on_change i ;; report i) st3) in
  exists sim rd,
    sent st' = (sent st3 ++ sim ++ rd)%list /\
    sim_part (last_ack_state st3) sim st' /\
    reading_part rd st' /\
    settings_applied_acked st' = settings_applied_acked st3 /\
    pending_patch st' = pending_patch st3.
Proof.
  intros Hw st'. subst st'.
  destruct (working_inv st3 s Hw) as (Hm & _).
  rewrite (bind_done _ _ st3 _ tt (environment_run i st3)).
  set (m' := env_step (moisture st3) (fst (randint (-2) 2 (rng st3))) (wave i)).
  set (r := 1400 + (100 - m') * (3200 - 1400) / 100).
  set (st4 := with_raw (Some r) (with_moisture m' (with_rng _ st3))).
  assert (Hw4 : working st4 = Some s) by (rewrite <- Hw; reflexivity).
  rewrite (bind_done _ _ st4 _ tt (control_run st4 s Hw4)).
  set (c := control_logic _ _ _ _ _ _).
  set (st5 := with_pump_on c st4).
  assert (Hm5 : mode st5 = Some (s_mode s)) by exact Hm.
  assert (Hraw : raw_of m' = Some r) by (apply raw_of_closed, env_step_range).
  rewrite bind_run, (ack_on_change_run i st5 (s_mode s) Hm5).
  change (last_ack_state st5) with (last_ack_state st3).
  change (pump_on st5) with c.
  destruct (ack_due (last_ack_state st3) c (s_mode s)) eqn:Ed;
    [destruct (ack_sim_returns i)|]; cbn [fst snd].
  - set (st6 := with_last_ack_state _ _).
    rewrite (report_run i st6 r eq_refl).
    destruct (reading_returns i); cbn [snd].
    + exists [Ack c (s_mode s) "sim"], [Reading m' c r].
      split; [cbn; rewrite <- app_assoc; reflexivity|].
      split; [right; exists c, (s_mode s); repeat split; assumption|].
      split; [right; exists r; split; [reflexivity|exact Hraw]|].
      split; reflexivity.
    + exists [Ack c (s_mode s) "sim"], [].
      split; [cbn; reflexivity|].
      split; [right; exists c, (s_mode s); repeat split; assumption|].
      split; [left; reflexivity|]. split; reflexivity.
  - exists [], []. split; [cbn; rewrite app_nil_r; reflexivity|].
    split; [left; split; reflexivity|].
    split; [left; reflexivity|]. split; reflexivity.
  - rewrite (report_run i st5 r eq_refl).
    destruct (reading_returns i); cbn [snd].
    + exists [], [Reading m' c r]. split; [reflexivity|].
      split; [left; split; reflexivity|].
      split; [right; exists r; split; [reflexivity|exact Hraw]|].
      split; reflexivity.
    + exists [], []. split; [cbn; rewrite app_nil_r; reflexivity|].
      split; [left; split; reflexivity|].
      split; [left; reflexivity|]. split; reflexivity.
Qed.

(** Lines 279-303. *)
Lemma applied_tail_trace (i : tick_in) (st2 : state) (s : settings) :
  working st2 = Some s ->
  let st' := snd ((ack_settings_applied i ;; environment i ;; control ;;
                   ack_on_change i ;; report i) st2) in
  exists app sim rd,
    sent st' = (sent st2 ++ app ++ sim ++ rd)%list /\
    applied_part app st2 st' /\
    sim_part (last_ack_state st2) sim st' /\
    reading_part rd st' /\
    pending_patch st' = pending_patch st2.
Proof.
  intros Hw st'. subst st'.
  destruct (working_inv st2 s Hw) as (Hm & _).
  rewrite bind_run, (ack_settings_applied_run i st2 (s_mode s) Hm).
  destruct (settings_applied_acked st2) eqn:Ef;
    [|destruct (ack_applied_returns i)]; cbn [fst snd].
  - destruct (environment_tail_trace i st2 s Hw) as (sim & rd & Hs & Hsim & Hrd & Hf & Hp).
    exists [], sim, rd. split; [exact Hs|].
    split; [left; split; [reflexivity|exact Hf]|].
    repeat split; assumption.
  - set (st3 := with_settings_applied_acked true _).
    assert (Hw3 : working st3 = Some s) by (rewrite <- Hw; reflexivity).
    destruct (environment_tail_trace i st3 s Hw3) as (sim & rd & Hs & Hsim & Hrd & Hf & Hp).
    exists [Ack (pump_on st2) (s_mode s) "settings applied"], sim, rd.
    split; [rewrite Hs; cbn; rewrite <- app_assoc; reflexivity|].
    split; [right; exists (pump_on st2), (s_mode s);
            split; [reflexivity|split; [exact Ef|exact Hf]]|].
    repeat split; assumption.
  - exists [], [], []. split; [cbn; rewrite app_nil_r; reflexivity|].
    split; [left; split; [reflexivity|reflexivity]|].
    split; [left; split; reflexivity|].
    split; [left; reflexivity|reflexivity].
Qed.

(** The requests of one iteration, in order: at most one acknowledgement
    of a command, at most one "settings applied", at most one on a
    change of the pair, at most one reading. *)
Lemma iteration_trace (a : args) (i : tick_in) (st : state) :
  let st0 := listener (sse_before i) st in
  let st' := iteration a i st in
  exists cmd apl sim rd,
    sent st' = (sent st ++ cmd ++ apl ++ sim ++ rd)%list /\
    cmd_part cmd st0 st' /\
    applied_part apl st st' /\
    sim_part (recorded_after cmd (last_ack_state st)) sim st' /\
    reading_part rd st'.
Proof.
  intros st0 st'. subst st'. unfold iteration. fold st0.
  assert (Hs0 : sent st0 = sent st) by (apply (listener_frame sent); reflexivity).
  assert (Hf0 : settings_applied_acked st0 = settings_applied_acked st)
    by (apply (listener_frame settings_applied_acked); reflexivity).
  assert (Hl0 : last_ack_state st0 = last_ack_state st)
    by (apply (listener_frame last_ack_state); reflexivity).
  rewrite loop_body_flat, bind_run.
  pose proof (fetch_settings_rest a i st0) as Hrest.
  pose proof (fetch_settings_done a i st0) as Hdone.
  destruct (fst (fetch_settings a i st0)) as [[]|].
  - destruct (Hdone eq_refl) as [s Es]. clear Hdone Hrest.
    rewrite Es. set (st1 := with_settings s st0).
    assert (Hw : working st1 = Some s) by apply working_with_settings.
    rewrite bind_run.
    destruct (patch_truthy (pending_patch st1)) eqn:Et.
    + destruct (apply_pending_taken i st1 s Hw Et)
        as (Hp & Hv & (s2 & Hw2) & [(Hr & Hack) | (Hd & _ & d & m & Hsent & Hlast & Hpump & Hmode)]).
      * rewrite Hr. cbn [snd]. unfold ack_view in Hack.
        injection Hack as El Ep Esent.
        unfold tick_view in Hv. injection Hv as _ Ef _ _.
        exists [], [], [], []. cbn [List.app recorded_after]. rewrite app_nil_r.
        split; [rewrite Esent; exact Hs0|].
        split; [left; split; [reflexivity|left; exact Et]|].
        split; [left; split; [reflexivity|rewrite Ef; exact Hf0]|].
        split; [left; split; [reflexivity|rewrite El; exact Hl0]|].
        left; reflexivity.
      * rewrite Hd. set (st2 := snd (apply_pending i st1)) in *.
        destruct (applied_tail_trace i st2 s2 Hw2)
          as (apl & sim & rd & Hs & Happ & Hsim & Hrd & _).
        unfold tick_view in Hv. injection Hv as _ Ef _ _.
        exists [Ack d m "cmd"], apl, sim, rd.
        split; [rewrite Hs, Hsent; change (sent st1) with (sent st0);
                rewrite Hs0, <- app_assoc; reflexivity|].
        split; [right; exists d, m; split; [reflexivity|exact Et]|].
        split.
        { unfold applied_part in *. change (settings_applied_acked st1)
            with (settings_applied_acked st0) in Ef.
          rewrite Ef, Hf0 in Happ. exact Happ. }
        split; [cbn [recorded_after]; rewrite <- Hlast; exact Hsim|exact Hrd].
    + rewrite (apply_pending_idle i st1 Et). cbn [fst snd].
      destruct (applied_tail_trace i st1 s Hw)
        as (apl & sim & rd & Hs & Happ & Hsim & Hrd & Hp).
      exists [], apl, sim, rd. cbn [List.app recorded_after].
      split; [rewrite Hs; change (sent st1) with (sent st0); rewrite Hs0; reflexivity|].
      split; [left; split; [reflexivity|right; exact Hp]|].
      split.
      { unfold applied_part in *. change (settings_applied_acked st1)
          with (settings_applied_acked st0) in Happ.
        rewrite Hf0 in Happ. exact Happ. }
      split; [|exact Hrd].
      change (last_ack_state st1) with (last_ack_state st0) in Hsim.
      rewrite Hl0 in Hsim. exact Hsim.
  - cbn [snd]. unfold rest_of in Hrest.
    injection Hrest as _ _ El Ef _ Ep _ Esent.
    exists [], [], [], []. cbn [List.app recorded_after]. rewrite app_nil_r.
    split; [rewrite Esent; exact Hs0|].
    split; [left; split; [reflexivity|right; exact Ep]|].
    split; [left; split; [reflexivity|rewrite Ef; exact Hf0]|].
    split; [left; split; [reflexivity|rewrite El; exact Hl0]|].
    left; reflexivity.
Qed.

Lemma emitted_trace (a : args) (i : tick_in) (st : state) (new : list request) :
  sent (iteration a i st) = (sent st ++ new)%list -> emitted a i st = new.
Proof.
  intro E. unfold emitted. rewrite E.
  rewrite skipn_app, skipn_all, Nat.sub_diag. reflexivity.
Qed.

(** *** A threshold of zero in a patch *)

Lemma tail_working (i : tick_in) :
  preserves working
    (ack_settings_applied i ;; environment i ;; control ;; ack_on_change i ;; report i).
Proof.
  unfold ack_settings_applied, environment, control, ack_on_change, report.
  frame; apply decision_inputs_preserves.
Qed.

(** C3, at the patches [{"pumpOnBelow": z}]. From any state, with the
    fetch not OK (defaults 35 and 45): the key is present and [int()]
    gives [z], so the merge as the claim words it sets the threshold to
    [z]. The loop acknowledges the command and clears the slot, and
    ends the tick with the threshold [z] -- unless [z] is 0: then
    line 254 falls back on the current value through [or on_below] and
    the threshold is still 35. The same object as the answer to the
    settings fetch (line 241) gives the threshold [z], 0 included. *)
Theorem C3_zero_threshold_dropped
    (a : args) (st : state) (racing : list sse_event) (b2 b3 b4 : bool) (w z : Z) :
  let p := [("pumpOnBelow", VInt z)] in
  let i := mkTick [EvCommand p] racing FetchNotOk true b2 b3 b4 w in
  let st' := iteration a i st in
  contains p "pumpOnBelow" = true /\
  int_ (get p "pumpOnBelow" VNone) = Some z /\
  spec_merge p (defaults a) = Some (mkSettings "auto" false z 45 (arg_interval a)) /\
  working st' =
    Some (mkSettings "auto" false (if z =? 0 then 35 else z) 45 (arg_interval a)) /\
  (exists d rest, emitted a i st = Ack d "auto" "cmd" :: rest) /\
  pending_patch st' = None /\
  (forall j, fetch j = FetchJson (VDict p) ->
     fst (fetch_settings a j st) = Done tt /\
     on_below (snd (fetch_settings a j st)) = Some z).
Proof.
  intros p i st'. subst st'.
  split; [reflexivity|]. split; [reflexivity|]. split; [reflexivity|].
  set (target := mkSettings "auto" false (if z =? 0 then 35 else z) 45 (arg_interval a)).
  assert (Main : working (iteration a i st) = Some target /\
                 (exists d rest,
                    sent (iteration a i st) = (sent st ++ Ack d "auto" "cmd" :: rest)%list) /\
                 pending_patch (iteration a i st) = None).
  { unfold iteration. set (st0 := listener (sse_before i) st).
    rewrite loop_body_flat, bind_run, (fetch_settings_not_ok a i st0 eq_refl).
    cbn [fst snd]. set (st1 := with_settings (defaults a) st0).
    assert (Ha : exists d st3,
               apply_pending i st1 = (Done tt, st3) /\ working st3 = Some target /\
               sent st3 = (sent st ++ [Ack d "auto" "cmd"])%list /\
               pending_patch st3 = None).
    { unfold apply_pending.
      rewrite (bind_done _ _ st1 st1 (Some p)) by reflexivity. unfold p at 1.
      rewrite (bind_done _ _ st1 (listener racing st1) tt) by reflexivity.
      set (stc := with_pending_patch None (listener racing st1)).
      rewrite (bind_done _ _ _ stc tt) by reflexivity.
      assert (Hwc : working stc = Some (defaults a)).
      { rewrite <- (working_with_settings (defaults a) st0). fold st1.
        change (working stc) with (working (listener racing st1)).
        apply (listener_frame working). reflexivity. }
      assert (Hsc : sent stc = sent st).
      { change (sent stc) with (sent (listener racing st1)).
        rewrite (listener_frame sent racing st1) by reflexivity.
        reflexivity. }
      fold p.
      set (stm := with_send_interval (Some (arg_interval a))
                    (with_off_above (Some 45)
                       (with_on_below (Some (if z =? 0 then 35 else z))
                          (with_override_on (Some false)
                             (with_mode (Some "auto") stc))))).
      assert (Hm : merge_patch p stc = (Done tt, stm)).
      { rewrite (merge_patch_run p stc (defaults a) Hwc).
        unfold merged_on_below, merged_off_above, merged_send_interval,
          merged_mode, merged_override_on, or_.
        cbn [p contains lookup String.eqb Ascii.eqb Bool.eqb get defaults
             s_mode s_override_on s_on_below s_off_above s_send_interval
             truthy int_].
        subst stm. destruct (z =? 0); reflexivity. }
      rewrite (bind_done _ _ stc stm tt Hm).
      assert (Hwm : working stm = Some target).
      { unfold working, stm. cbn. reflexivity. }
      rewrite (bind_done _ _ stm stm _ (decision_inputs_run stm target Hwm)).
      cbv zeta. cbn [ack_cmd_returns i].
      set (d := desired_pump _ _ _ _ _ _).
      exists d. eexists. split; [reflexivity|].
      cbn [working sent pending_patch mode override_on on_below off_above send_interval
           with_pump_on with_last_ack_state with_sent].
      split; [exact Hwm|]. split; [rewrite <- Hsc; reflexivity|reflexivity]. }
    destruct Ha as (d & st3 & Ha & Hw3 & Hs3 & Hp3).
    rewrite bind_run, Ha. cbn [fst snd].
    destruct (applied_tail_trace i st3 target Hw3)
      as (apl & sim & rd & Hs & _ & _ & _ & Hp).
    split; [rewrite tail_working; exact Hw3|].
    split; [|rewrite Hp; exact Hp3].
    exists d, (apl ++ sim ++ rd)%list. rewrite Hs, Hs3, <- app_assoc. reflexivity. }
  destruct Main as (Mw & (d & rest & Ms) & Mp).
  split; [exact Mw|].
  split; [exists d, rest; apply emitted_trace; exact Ms|].
  split; [exact Mp|].
  intros j Ej. unfold fetch_settings, get_settings. rewrite Ej.
  cbn. split; reflexivity.
Qed.

(** *** The pending patch *)

Lemma listener_no_command (evs : list sse_event) (st : state) :
  no_command evs = true -> listener evs st = st.
Proof.
  revert st. induction evs as [|e evs IH]; intros st E; [reflexivity|].
  cbn [no_command forallb] in E. apply andb_prop in E. destruct E as [Ee Er].
  destruct e; [|discriminate]. cbn [listener fold_left]. apply IH. exact Er.
Qed.

Lemma listener_last_command (evs : list sse_event) (q : dict) (st : state) :
  pending_patch (listener (evs ++ [EvCommand q]) st) = Some q.
Proof.
  unfold listener. rewrite fold_left_app. reflexivity.
Qed.

(** Once lines 238-243 have completed with a non-empty patch pending,
    the slot is empty at the end of the iteration, however it ends. *)
Lemma iteration_consumes (a : args) (i : tick_in) (st : state) :
  let st0 := listener (sse_before i) st in
  fst (fetch_settings a i st0) = Done tt ->
  patch_truthy (pending_patch st0) = true ->
  pending_patch (iteration a i st) = None.
Proof.
  intros st0 Hd Ht. unfold iteration. fold st0.
  rewrite loop_body_flat, bind_run, Hd.
  destruct (fetch_settings_done a i st0 Hd) as [s Es]. rewrite Es.
  set (st1 := with_settings s st0).
  assert (Hw : working st1 = Some s) by apply working_with_settings.
  destruct (apply_pending_taken i st1 s Hw Ht)
    as (Hp & _ & (s2 & Hw2) & [(Hr & _) | (Hdn & _)]).
  - rewrite bind_run, Hr. exact Hp.
  - rewrite bind_run, Hdn.
    destruct (applied_tail_trace i _ s2 Hw2) as (_ & _ & _ & _ & _ & _ & _ & E).
    rewrite E. exact Hp.
Qed.

Lemma patch_truthy_spec (o : option dict) :
  patch_truthy o = true <-> exists p, o = Some p /\ p <> [].
Proof.
  split.
  - destruct o as [[|b p]|]; try discriminate. intros _. exists (b :: p).
    split; [reflexivity|discriminate].
  - intros (p & -> & Hp). destruct p; [contradiction|reflexivity].
Qed.

(** An iteration that finds no non-empty patch leaves the slot alone and
    acknowledges no command. *)
Lemma iteration_idle_slot (a : args) (i : tick_in) (st : state) :
  let st0 := listener (sse_before i) st in
  patch_truthy (pending_patch st0) = false ->
  pending_patch (iteration a i st) = pending_patch st0 /\
  forall d m, ~ In (Ack d m "cmd") (emitted a i st).
Proof.
  intros st0 Hf.
  destruct (iteration_trace a i st) as (cmd & apl & sim & rd & Hs & Hc & Ha & Hsim & Hrd).
  fold st0 in Hc.
  rewrite (emitted_trace a i st _ Hs).
  destruct Hc as [(-> & [Ht | Hp]) | (d & m & _ & Ht)];
    try (rewrite Ht in Hf; discriminate).
  split; [exact Hp|]. intros d m Hin. cbn [app] in Hin.
  apply in_app_or in Hin. destruct Hin as [Hin | Hin].
  - destruct Ha as [(-> & _) | (p & m' & -> & _)]; [contradiction|].
    destruct Hin as [E|[]]. discriminate.
  - apply in_app_or in Hin. destruct Hin as [Hin | Hin].
    + destruct Hsim as [(-> & _) | (p & m' & -> & _)]; [contradiction|].
      destruct Hin as [E|[]]. discriminate.
    + destruct Hrd as [-> | (r & -> & _)]; [contradiction|].
      destruct Hin as [E|[]]. discriminate.
Qed.

(** C9. A patch that a tick consumes (it is pending and non-empty when
    lines 238-243 have completed) is cleared in that tick, also when
    applying its fields raises; with no new [command] event the next
    tick finds the slot empty, leaves it empty and acknowledges no
    command. The slot holds one patch: a later [command] event
    overwrites an earlier one. *)
Theorem C9_patch_consumed_once
    (a : args) (i i2 : tick_in) (st : state) (p : dict) :
  let st0 := listener (sse_before i) st in
  pending_patch st0 = Some p -> p <> [] ->
  fst (fetch_settings a i st0) = Done tt ->
  no_command (sse_before i2) = true ->
  let st' := iteration a i st in
  pending_patch st' = None /\
  pending_patch (listener (sse_before i2) st') = None /\
  pending_patch (iteration a i2 st') = None /\
  (forall d m, ~ In (Ack d m "cmd") (emitted a i2 st')) /\
  (forall evs q1 q2 st1,
     pending_patch (listener (evs ++ [EvCommand q1; EvCommand q2]) st1) = Some q2).
Proof.
  intros st0 Hp Hne Hd Hn st'.
  assert (Ht : patch_truthy (pending_patch st0) = true)
    by (apply patch_truthy_spec; exists p; split; assumption).
  assert (E1 : pending_patch st' = None) by (apply iteration_consumes; assumption).
  assert (E2 : listener (sse_before i2) st' = st')
    by (apply listener_no_command; exact Hn).
  assert (Hf : patch_truthy (pending_patch (listener (sse_before i2) st')) = false)
    by (rewrite E2, E1; reflexivity).
  destruct (iteration_idle_slot a i2 st' Hf) as [E3 E4].
  split; [exact E1|]. split; [rewrite E2; exact E1|].
  split; [rewrite E3, E2; exact E1|]. split; [exact E4|].
  intros evs q1 q2 st1.
  change (evs ++ [EvCommand q1; EvCommand q2])%list
    with (evs ++ ([EvCommand q1] ++ [EvCommand q2]))%list.
  rewrite app_assoc. apply listener_last_command.
Qed.

(** *** Acknowledgements *)





Lemma apply_pending_bound (i : tick_in) (st : state) (s : settings) :
  working st = Some s -> exists s', working (snd (apply_pending i st)) = Some s'.
Proof.
  intro Hw. destruct (patch_truthy (pending_patch st)) eqn:Et.
  - destruct (apply_pending_taken i st s Hw Et) as (_ & _ & Hb & _). exact Hb.
  - rewrite (apply_pending_idle i st Et). exists s. exact Hw.
Qed.




Lemma startup_fresh (a : args) (entropy : rng_state) :
  sent (startup a entropy) = [] /\
  settings_applied_acked (startup a entropy) = false /\
  last_ack_state (startup a entropy) = None /\
  pump_on (startup a entropy) = false /\
  pending_patch (startup a entropy) = None.
Proof.
  unfold startup. destruct (randint 35 60 _). repeat split.
Qed.


(** *** Runs from a seed *)

Lemma startup_seeded (a : args) (n : Z) (e1 e2 : rng_state) :
  arg_seed a = Some n -> startup a e1 = startup a e2.
Proof. intro E. unfold startup. rewrite E. reflexivity. Qed.

Lemma randint_range (lo hi : Z) (g : rng_state) :
  lo <= hi -> lo <= fst (randint lo hi g) <= hi.
Proof.
  intro Hle. unfold randint.
  pose proof (randbelow_range (hi - lo + 1) g ltac:(lia)) as Hr.
  destruct (randbelow (hi - lo + 1) g) as [k g']. cbn [fst] in *. lia.
Qed.

Lemma startup_moisture (a : args) (e : rng_state) :
  35 <= moisture (startup a e) <= 60.
Proof.
  unfold startup.
  match goal with
  | |- context [randint 35 60 ?g] =>
      pose proof (randint_range 35 60 g ltac:(lia)) as Hr;
      destruct (randint 35 60 g) as [m g2]
  end.
  exact Hr.
Qed.

Lemma steps_nil (a : args) (ins : list tick_in) (st : state) :
  steps a ins st = [] -> moistures a ins st = [].
Proof. destruct ins; [reflexivity|discriminate]. Qed.

(** With the generator in the same state, the same sine terms and the
    same iterations cut short, two runs go through the same moistures,
    whatever the server and the listener send. *)
Lemma runs_agree (a : args) (ins1 ins2 : list tick_in) (st1 st2 : state) :
  env_of st1 = env_of st2 ->
  map wave ins1 = map wave ins2 ->
  steps a ins1 st1 = steps a ins2 st2 ->
  moistures a ins1 st1 = moistures a ins2 st2.
Proof.
  revert ins2 st1 st2.
  induction ins1 as [|i1 r1 IH]; intros [|i2 r2] st1 st2 He Hw Hs;
    try discriminate; [reflexivity|].
  cbn [map] in Hw. injection Hw as Hw Hwr.
  cbn [steps] in Hs. injection Hs as Ha Hsr.
  unfold moistures. cbn [run map].
  assert (He' : env_of (iteration a i1 st1) = env_of (iteration a i2 st2)).
  { rewrite !iteration_env. unfold advanced in Ha.
    unfold env_of in He. injection He as Em Eg. rewrite Em, Eg, Hw.
    destruct (fst (before_environment a i1 _)), (fst (before_environment a i2 _));
      try discriminate; try reflexivity.
    unfold env_of. rewrite Em, Eg. reflexivity. }
  f_equal; [unfold env_of in He'; congruence|].
  destruct (crashed (iteration a i1 st1)), (crashed (iteration a i2 st2)).
  - reflexivity.
  - symmetry. symmetry in Hsr. apply (steps_nil a r2 _ Hsr).
  - apply (steps_nil a r1 _ Hsr).
  - apply (IH r2 _ _ He' Hwr Hsr).
Qed.

Lemma tick_at_advances (a : args) (w : Z) (st : state) :
  pending_patch st = None ->
  fst (before_environment a (tick_at w) (listener (sse_before (tick_at w)) st))
    = Done tt.
Proof.
  intro Hp. cbn [tick_at sse_before listener fold_left].
  unfold before_environment.
  rewrite (bind_done _ _ st _ tt (fetch_settings_not_ok a (tick_at w) st eq_refl)).
  set (st1 := with_settings (defaults a) st).
  assert (Ht : patch_truthy (pending_patch st1) = false)
    by (change (pending_patch st1) with (pending_patch st); rewrite Hp; reflexivity).
  rewrite (bind_done _ _ st1 _ tt (apply_pending_idle (tick_at w) st1 Ht)).
  rewrite (ack_settings_applied_run (tick_at w) st1 "auto" eq_refl).
  destruct (settings_applied_acked st1); reflexivity.
Qed.

Lemma run_single (a : args) (i : tick_in) (st : state) :
  run a [i] st = [iteration a i st].
Proof. cbn [run]. destruct (crashed (iteration a i st)); reflexivity. Qed.

Lemma tick_at_moisture (a : args) (w : Z) (st : state) :
  pending_patch st = None ->
  moisture (iteration a (tick_at w) st)
    = env_step (moisture st) (fst (randint (-2) 2 (rng st))) w.
Proof.
  intro Hp. pose proof (iteration_env a (tick_at w) st) as E.
  rewrite (tick_at_advances a w st Hp) in E.
  unfold env_of in E. injection E as E _. exact E.
Qed.

(** C4, at two runs with the same seed. Whatever the generator and the
    seed, a run whose first tick falls where the sine term is 0 and a
    run whose first tick falls where it is 4 start from the same state
    and differ in the first moisture. *)
Theorem C4_seeded_runs_differ
    (device : string) (interval : float) (seed : Z) (e1 e2 : rng_state) :
  let a := mkArgs device interval (Some seed) in
  startup a e1 = startup a e2 /\
  moistures a [tick_at 0] (startup a e1) <> moistures a [tick_at 4] (startup a e2).
Proof.
  intro a.
  assert (Es : startup a e1 = startup a e2) by (apply (startup_seeded a seed); reflexivity).
  split; [exact Es|]. rewrite <- Es.
  generalize (startup_fresh a e1) (startup_moisture a e1).
  generalize (startup a e1). intros st (_ & _ & _ & _ & Hp) Hm.
  pose proof (randint_range (-2) 2 (rng st) ltac:(lia)) as Hd.
  unfold moistures. rewrite !run_single. cbn [map].
  rewrite !(tick_at_moisture a _ st Hp).
  generalize dependent (fst (randint (-2) 2 (rng st))). intros d Hd.
  generalize dependent (moisture st). intros m Hm E.
  injection E as E. unfold env_step, clamp in E. lia.
Qed.

(** *** The reading report *)

Lemma trace_readings (cmd apl sim rd : list request) (st0 st st' : state)
    (last : option (bool * string)) :
  cmd_part cmd st0 st' -> applied_part apl st st' ->
  sim_part last sim st' -> reading_part rd st' ->
  forall mo pu r, In (Reading mo pu r) (cmd ++ apl ++ sim ++ rd) ->
    raw_of mo = Some r.
Proof.
  intros Hc Ha Hs Hr mo pu r Hin.
  apply in_app_or in Hin. destruct Hin as [Hin | Hin].
  { destruct Hc as [(-> & _) | (d & mc & -> & _)]; [contradiction|].
    destruct Hin as [E|[]]. discriminate. }
  apply in_app_or in Hin. destruct Hin as [Hin | Hin].
  { destruct Ha as [(-> & _) | (q & mq & -> & _)]; [contradiction|].
    destruct Hin as [E|[]]. discriminate. }
  apply in_app_or in Hin. destruct Hin as [Hin | Hin].
  { destruct Hs as [(-> & _) | (q & mq & -> & _)]; [contradiction|].
    destruct Hin as [E|[]]. discriminate. }
  destruct Hr as [-> | (r' & -> & Hraw)]; [contradiction|].
  destruct Hin as [E|[]]. injection E as <- _ <-. exact Hraw.
Qed.

(** C10. For a moisture m in [0,100] the raw value computed at line 286
    is 1400 + floor((100 - m) * (3200 - 1400) / 100); it lies in
    [1400, 3200] and is antitone in m. A reading report carries the raw
    value of the moisture it reports. The control logic and the
    acknowledgement that follow line 286 behave the same whatever [raw]
    holds, and an iteration started with another value of [raw] ends in
    the same state, [raw] aside: the value goes to the reading report
    and nowhere else. *)
Theorem C10_raw_value
    (a : args) (i : tick_in) (st : state) (m m' : Z) (x : option Z) :
  0 <= m <= 100 -> 0 <= m' <= 100 ->
  raw_of m = Some (1400 + (100 - m) * (3200 - 1400) / 100) /\
  1400 <= 1400 + (100 - m) * (3200 - 1400) / 100 <= 3200 /\
  (m <= m' -> forall r r', raw_of m = Some r -> raw_of m' = Some r' -> r' <= r) /\
  (forall mo pu r, In (Reading mo pu r) (emitted a i st) -> raw_of mo = Some r) /\
  (control ;; ack_on_change i) (with_raw x st)
    = (fst ((control ;; ack_on_change i) st),
       with_raw x (snd ((control ;; ack_on_change i) st))) /\
  with_raw None (iteration a i (with_raw x st)) = with_raw None (iteration a i st).
Proof.
  intros Hm Hm'. split; [apply raw_of_closed; exact Hm|]. split.
  { rewrite raw_closed_form. lia. }
  split.
  { intros Hle r r' Er Er'.
    rewrite (raw_of_closed m Hm), raw_closed_form in Er.
    rewrite (raw_of_closed m' Hm'), raw_closed_form in Er'.
    assert (r = 3200 - 18 * m) by congruence.
    assert (r' = 3200 - 18 * m') by congruence. lia. }
  split.
  { destruct (iteration_trace a i st)
      as (cmd & apl & sim & rd & Hs & Hc & Ha & Hsim & Hrd).
    rewrite (emitted_trace a i st _ Hs).
    exact (trace_readings cmd apl sim rd _ st _ _ Hc Ha Hsim Hrd). }
  split; [apply oblivious_control_and_ack|].
  unfold iteration. rewrite listener_with_raw. apply loop_body_forgets_raw.
Qed.

(** *** The control policy *)

(** The decision taken for a patch (lines 264-271) and the decision of
    every tick (lines 289-295) are the same function. *)
Lemma desired_pump_control_logic (mode : string) (o : bool) (ob oa m : Z) (prior : bool) :
  desired_pump mode o ob oa m prior = control_logic mode o ob oa m prior.
Proof. reflexivity. Qed.

Lemma control_logic_auto (mode : string) (o : bool) (ob oa m : Z) (prior : bool) :
  mode <> "manual" ->
  control_logic mode o ob oa m prior =
    if negb prior && (m <? ob) then true
    else if prior && (m >? oa) then false
    else prior.
Proof.
  intro Hm. unfold control_logic.
  destruct (String.eqb_spec mode "manual") as [E|_]; [contradiction|reflexivity].
Qed.

(** C1. In auto mode (any mode other than "manual"), for a moisture in
    [0,100] and thresholds with onBelow < offAbove, the decision turns
    the pump on exactly when it was off and the moisture is below
    onBelow, turns it off exactly when it was on and the moisture is
    above offAbove, and otherwise returns the prior state; so it never
    turns the pump on at a moisture >= onBelow and never leaves it on
    at a moisture > offAbove. *)
Theorem C1_auto_policy_hysteresis
    (mode : string) (o : bool) (ob oa m : Z) (prior : bool) :
  mode <> "manual" -> 0 <= m <= 100 -> ob < oa ->
  let next := control_logic mode o ob oa m prior in
  ((prior = false /\ next = true) <-> (prior = false /\ m < ob)) /\
  ((prior = true /\ next = false) <-> (prior = true /\ m > oa)) /\
  (~ (prior = false /\ m < ob) -> ~ (prior = true /\ m > oa) -> next = prior) /\
  (m >= ob -> prior = false -> next = false) /\
  (m > oa -> next = false).
Proof.
  intros Hm Hr Hlt next. subst next.
  rewrite (control_logic_auto mode o ob oa m prior Hm).
  destruct prior; cbn [negb andb];
    destruct (Z.ltb_spec m ob); destruct (Z.gtb_spec m oa);
    repeat split; intros; try tauto; try lia; try congruence;
    try (exfalso; intuition (lia || congruence)).
Qed.

(** C7. In manual mode the decision equals overridePumpOn whatever the
    moisture, the thresholds and the prior pump state, and deciding
    again on its own output gives the same output. *)
Theorem C7_manual_policy (o : bool) (ob oa m : Z) (prior : bool) :
  control_logic "manual" o ob oa m prior = o /\
  control_logic "manual" o ob oa m (control_logic "manual" o ob oa m prior)
    = control_logic "manual" o ob oa m prior.
Proof.
  split; reflexivity.
Qed.

(** *** More about the loop: when it ends, what a tick keeps *)

Lemma fetch_settings_raised (a : args) (i : tick_in) (st : state) :
  fst (fetch_settings a i st) = Raised ->
  send_interval (snd (fetch_settings a i st)) = send_interval st.
Proof.
  unfold fetch_settings, get_settings, bind, lift, ret, raise, modify.
  destruct (fetch i) as [| |body]; cbn [fst snd]; try reflexivity;
    repeat match goal with
           | |- context [match ?x with Some _ => _ | None => _ end] =>
               destruct x; cbn [fst snd]; try reflexivity
           end;
    discriminate.
Qed.

(** Once lines 238-243 have completed, the five settings are assigned at
    the end of the iteration, however it ends. *)
Lemma iteration_bound (a : args) (i : tick_in) (st : state) :
  fst (fetch_settings a i (listener (sse_before i) st)) = Done tt ->
  exists s, working (iteration a i st) = Some s.
Proof.
  intro Hd. unfold iteration. set (st0 := listener (sse_before i) st) in *.
  rewrite loop_body_flat, bind_run, Hd.
  destruct (fetch_settings_done a i st0 Hd) as [s Es]. rewrite Es.
  set (st1 := with_settings s st0).
  assert (Hw : working st1 = Some s) by apply working_with_settings.
  destruct (apply_pending_bound i st1 s Hw) as [s2 Hw2].
  rewrite bind_run.
  destruct (fst (apply_pending i st1)) as [[]|]; [|exists s2; exact Hw2].
  exists s2. rewrite tail_working. exact Hw2.
Qed.

Lemma working_send_interval (st : state) (s : settings) :
  working st = Some s -> crashed st = false.
Proof.
  intro Hw. destruct (working_inv st s Hw) as (_ & _ & _ & _ & Hf).
  unfold crashed. rewrite Hf. reflexivity.
Qed.

Lemma iteration_send_interval_kept (a : args) (i : tick_in) (st : state) :
  fst (fetch_settings a i (listener (sse_before i) st)) = Raised ->
  iteration a i st = snd (fetch_settings a i (listener (sse_before i) st)) /\
  send_interval (iteration a i st) = send_interval st.
Proof.
  intro Hr. unfold iteration. set (st0 := listener (sse_before i) st) in *.
  rewrite loop_body_flat, bind_run, Hr. cbn [snd]. split; [reflexivity|].
  rewrite (fetch_settings_raised a i st0 Hr).
  apply (listener_frame send_interval). reflexivity.
Qed.

(** X1. An iteration leaves [send_interval] unassigned -- so that the
    sleep at line 315 raises outside the [try] and the process ends --
    exactly when it was unassigned before and lines 238-243 raised. In
    that case nothing was sent and the run has no further iteration;
    from a state in which it is assigned, a run goes through every one
    of its inputs. *)
Theorem X1_loop_ends_only_before_first_settings
    (a : args) (i : tick_in) (ins : list tick_in) (st : state) :
  (crashed (iteration a i st) = true <->
   crashed st = true /\
   fst (fetch_settings a i (listener (sse_before i) st)) = Raised) /\
  (crashed (iteration a i st) = true ->
   sent (iteration a i st) = sent st /\
   run a (i :: ins) st = [iteration a i st]) /\
  (crashed st = false ->
   List.length (run a ins st) = List.length ins /\
   Forall (fun st' => crashed st' = false) (run a ins st)).
Proof.
  assert (Hiff : forall i st, crashed (iteration a i st) = true <->
            crashed st = true /\
            fst (fetch_settings a i (listener (sse_before i) st)) = Raised).
  { clear i st. intros i st.
    destruct (fst (fetch_settings a i (listener (sse_before i) st))) as [[]|] eqn:Ef.
    - destruct (iteration_bound a i st Ef) as [s Hs].
      rewrite (working_send_interval _ s Hs).
      split; [discriminate|intros [_ E]; discriminate].
    - destruct (iteration_send_interval_kept a i st Ef) as [_ E].
      unfold crashed. rewrite E. split; [auto|intros [E' _]; exact E']. }
  split; [apply Hiff|]. split.
  - intro Hc. destruct (proj1 (Hiff i st) Hc) as [_ Hr].
    destruct (iteration_send_interval_kept a i st Hr) as [E _].
    split.
    + rewrite E. pose proof (fetch_settings_rest a i (listener (sse_before i) st)) as R.
      unfold rest_of in R. injection R as _ _ _ _ _ _ _ R. rewrite R.
      apply (listener_frame sent). reflexivity.
    + cbn [run]. rewrite Hc. reflexivity.
  - revert st. induction ins as [|j ins IH]; intros st Hc; [split; [reflexivity|constructor]|].
    cbn [run].
    assert (Hn : crashed (iteration a j st) = false).
    { destruct (crashed (iteration a j st)) eqn:E; [|reflexivity].
      destruct (proj1 (Hiff j st) E) as [E' _]. rewrite E' in Hc. discriminate. }
    rewrite Hn. destruct (IH _ Hn) as [Hl Hf].
    split; [cbn [List.length]; rewrite Hl; reflexivity|].
    constructor; assumption.
Qed.

(** The settings lines 238-243 assign, as a function of the fetch alone. *)
Lemma fetch_settings_state_free (a : args) (i : tick_in) (st st' : state) :
  fst (fetch_settings a i st) = fst (fetch_settings a i st') /\
  (fst (fetch_settings a i st) = Done tt ->
   exists s, snd (fetch_settings a i st) = with_settings s st /\
             snd (fetch_settings a i st') = with_settings s st').
Proof.
  unfold fetch_settings, get_settings, bind, lift, ret, raise, modify.
  destruct (fetch i) as [| |body]; cbn [fst snd];
    repeat match goal with
           | |- context [match ?x with Some _ => _ | None => _ end] =>
               destruct x; cbn [fst snd]
           end;
    (split; [reflexivity|]); intro E; try discriminate E;
    eexists (mkSettings _ _ _ _ _); split; reflexivity.
Qed.

(** X2. What lines 238-243 leave in the five settings depends on the
    answer to the fetch and on [--interval] only, not on what the loop
    held before: whether they complete is the same from any two states,
    and when they do the five settings are assigned and are the same.
    So the values a patch has set are replaced at the next tick whose
    lines 238-243 complete. When these lines raise, [send_interval] is
    left as it was, the value set by a patch included. *)
Theorem X2_settings_come_from_the_fetch_alone
    (a : args) (i : tick_in) (st st' : state) :
  fst (fetch_settings a i st) = fst (fetch_settings a i st') /\
  (fst (fetch_settings a i st) = Done tt ->
   working (snd (fetch_settings a i st)) <> None /\
   working (snd (fetch_settings a i st)) = working (snd (fetch_settings a i st'))) /\
  (fst (fetch_settings a i st) = Raised ->
   send_interval (snd (fetch_settings a i st)) = send_interval st).
Proof.
  destruct (fetch_settings_state_free a i st st') as [E Hd].
  split; [exact E|]. split; [|apply fetch_settings_raised].
  intro D. destruct (Hd D) as (s & E1 & E2).
  rewrite E1, E2, !working_with_settings. split; [discriminate|reflexivity].
Qed.

(** *** The moisture over a run *)

Lemma iteration_moisture_range (a : args) (i : tick_in) (st : state) :
  0 <= moisture st <= 100 -> 0 <= moisture (iteration a i st) <= 100.
Proof.
  intro Hm. pose proof (iteration_env a i st) as E.
  destruct (fst (before_environment a i (listener (sse_before i) st)));
    unfold env_of in E; injection E as Em _; rewrite Em;
    [apply env_step_range | exact Hm].
Qed.

(** X3. The simulated moisture starts in [35,60] and is in [0,100] after
    every iteration of every run from the start of [main], whatever the
    server answers, whatever the listener delivers and whichever
    requests fail. *)
Theorem X3_moisture_stays_in_range
    (a : args) (entropy : rng_state) (ins : list tick_in) :
  35 <= moisture (startup a entropy) <= 60 /\
  Forall (fun m => 0 <= m <= 100) (moistures a ins (startup a entropy)).
Proof.
  pose proof (startup_moisture a entropy) as Hs. split; [exact Hs|].
  assert (Hr : 0 <= moisture (startup a entropy) <= 100) by lia.
  clear Hs. revert Hr. generalize (startup a entropy).
  unfold moistures. induction ins as [|i ins IH]; intros st Hm; [constructor|].
  cbn [run map].
  pose proof (iteration_moisture_range a i st Hm) as Hm'.
  constructor; [exact Hm'|].
  destruct (crashed (iteration a i st)); [constructor|apply IH; exact Hm'].
Qed.

(** X4. One iteration moves the moisture by at most 2 plus the size of
    the sine term (so by at most 7, the sine term being [int(5*sin ..)]):
    the clamp never moves it further than the unclamped sum would, and
    an iteration that raises before line 284 does not move it. *)
Theorem X4_moisture_step_bounded (a : args) (i : tick_in) (st : state) :
  0 <= moisture st <= 100 ->
  Z.abs (moisture (iteration a i st) - moisture st) <= 2 + Z.abs (wave i).
Proof.
  intro Hm. pose proof (iteration_env a i st) as E.
  destruct (fst (before_environment a i (listener (sse_before i) st)));
    unfold env_of in E; injection E as Em _; rewrite Em; [|lia].
  pose proof (randint_range (-2) 2 (rng st) ltac:(lia)) as Hd.
  unfold env_step, clamp. lia.
Qed.

(** *** An iteration that completes *)

Lemma ack_due_false (last : option (bool * string)) (p : bool) (m : string) :
  ack_due last p m = false -> last = Some (p, m).
Proof.
  destruct last as [[p' m']|]; [|discriminate]. cbn [ack_due].
  intro E. apply Bool.negb_false_iff, andb_prop in E. destruct E as [Ep Em].
  apply Bool.eqb_prop in Ep. apply String.eqb_eq in Em. congruence.
Qed.

(** Lines 279-303 when all of them complete. *)
Lemma applied_tail_done (i : tick_in) (st2 : state) (s : settings) :
  working st2 = Some s ->
  let r := (ack_settings_applied i ;; environment i ;; control ;;
            ack_on_change i ;; report i) st2 in
  fst r = Done tt ->
  working (snd r) = Some s /\
  settings_applied_acked (snd r) = true /\
  last_ack_state (snd r) = Some (pump_on (snd r), s_mode s) /\
  exists x before,
    raw (snd r) = Some x /\ raw_of (moisture (snd r)) = Some x /\
    sent (snd r) = (before ++ [Reading (moisture (snd r)) (pump_on (snd r)) x])%list.
Proof.
  intros Hw r. subst r.
  destruct (working_inv st2 s Hw) as (Hm & _).
  rewrite bind_run, (ack_settings_applied_run i st2 (s_mode s) Hm).
  assert (Tail : forall st3, working st3 = Some s ->
            settings_applied_acked st3 = true ->
            let r := (environment i ;; control ;; ack_on_change i ;; report i) st3 in
            fst r = Done tt ->
            working (snd r) = Some s /\
            settings_applied_acked (snd r) = true /\
            last_ack_state (snd r) = Some (pump_on (snd r), s_mode s) /\
            exists x before,
              raw (snd r) = Some x /\ raw_of (moisture (snd r)) = Some x /\
              sent (snd r) =
                (before ++ [Reading (moisture (snd r)) (pump_on (snd r)) x])%list).
  { clear st2 Hw Hm. intros st3 Hw Hf r. subst r.
    destruct (working_inv st3 s Hw) as (Hm & _).
    rewrite (bind_done _ _ st3 _ tt (environment_run i st3)).
    set (m' := env_step (moisture st3) (fst (randint (-2) 2 (rng st3))) (wave i)).
    set (x := 1400 + (100 - m') * (3200 - 1400) / 100).
    set (st4 := with_raw (Some x) (with_moisture m' (with_rng _ st3))).
    assert (Hw4 : working st4 = Some s) by (rewrite <- Hw; reflexivity).
    rewrite (bind_done _ _ st4 _ tt (control_run st4 s Hw4)).
    set (c := control_logic _ _ _ _ _ _).
    set (st5 := with_pump_on c st4).
    assert (Hm5 : mode st5 = Some (s_mode s)) by exact Hm.
    assert (Hraw : raw_of m' = Some x) by (apply raw_of_closed, env_step_range).
    rewrite bind_run, (ack_on_change_run i st5 (s_mode s) Hm5).
    change (last_ack_state st5) with (last_ack_state st3).
    change (pump_on st5) with c.
    destruct (ack_due (last_ack_state st3) c (s_mode s)) eqn:Ed;
      [destruct (ack_sim_returns i)|]; cbn [fst snd]; try discriminate.
    - set (st6 := with_last_ack_state _ _).
      rewrite (report_run i st6 x eq_refl).
      destruct (reading_returns i); cbn [fst snd]; [intros _|discriminate].
      split; [rewrite <- Hw; reflexivity|]. split; [exact Hf|].
      split; [reflexivity|]. exists x, (sent st3 ++ [Ack c (s_mode s) "sim"])%list.
      split; [reflexivity|]. split; [exact Hraw|reflexivity].
    - rewrite (report_run i st5 x eq_refl).
      destruct (reading_returns i); cbn [fst snd]; [intros _|discriminate].
      split; [rewrite <- Hw; reflexivity|]. split; [exact Hf|].
      split; [exact (ack_due_false _ _ _ Ed)|]. exists x, (sent st3).
      split; [reflexivity|]. split; [exact Hraw|reflexivity]. }
  destruct (settings_applied_acked st2) eqn:Ef;
    [|destruct (ack_applied_returns i)]; cbn [fst snd].
  - apply Tail; assumption.
  - apply Tail; [rewrite <- Hw; reflexivity|reflexivity].
  - discriminate.
Qed.

(** X5. After an iteration whose [try] body ran to its end, the server
    has been told where the device stands: the pair last acknowledged is
    the current pump state and mode, "settings applied" has been sent,
    the five settings are assigned, and the last request sent is the
    reading of the current moisture and pump state with the raw value
    line 286 computes from that moisture. *)
Theorem X5_completed_iteration_is_in_sync (a : args) (i : tick_in) (st : state) :
  fst (loop_body a i (listener (sse_before i) st)) = Done tt ->
  let st' := iteration a i st in
  exists s x before,
    working st' = Some s /\
    settings_applied_acked st' = true /\
    last_ack_state st' = Some (pump_on st', s_mode s) /\
    raw st' = Some x /\ raw_of (moisture st') = Some x /\
    sent st' = (before ++ [Reading (moisture st') (pump_on st') x])%list.
Proof.
  unfold iteration. set (st0 := listener (sse_before i) st).
  rewrite loop_body_flat, bind_run.
  destruct (fst (fetch_settings a i st0)) as [[]|] eqn:Hd; [|discriminate].
  destruct (fetch_settings_done a i st0 Hd) as [s Es]. rewrite Es.
  set (st1 := with_settings s st0).
  assert (Hw : working st1 = Some s) by apply working_with_settings.
  destruct (apply_pending_bound i st1 s Hw) as [s2 Hw2].
  rewrite bind_run.
  destruct (fst (apply_pending i st1)) as [[]|]; [|discriminate].
  intro Hdone.
  destruct (applied_tail_done i _ s2 Hw2 Hdone) as (H1 & H2 & H3 & x & before & H4 & H5 & H6).
  exists s2, x, before. repeat split; assumption.
Qed.

(** *** Thresholds that make the pump chatter *)

(** X6. In auto mode, deciding again at the same moisture confirms the
    decision for every moisture and prior state exactly when
    pumpOnBelow <= pumpOffAbove + 1. With thresholds further the wrong
    way round, the pump toggles on every tick while the moisture is
    strictly between them. *)
Theorem X6_auto_policy_settles_iff (mode : string) (o : bool) (ob oa : Z) :
  mode <> "manual" ->
  ((forall m prior,
      control_logic mode o ob oa m (control_logic mode o ob oa m prior)
        = control_logic mode o ob oa m prior) <-> ob <= oa + 1) /\
  (forall m prior, oa < m < ob -> control_logic mode o ob oa m prior = negb prior).
Proof.
  intro Hm. split; [split|].
  - intro Hs. destruct (Z_le_gt_dec ob (oa + 1)) as [|Hgt]; [assumption|].
    specialize (Hs (oa + 1) false).
    rewrite !(control_logic_auto mode o ob oa _ _ Hm) in Hs.
    cbn [negb andb] in Hs.
    destruct (Z.ltb_spec (oa + 1) ob); [|lia]. cbn [negb andb] in Hs.
    destruct (Z.gtb_spec (oa + 1) oa); [discriminate|lia].
  - intros Hle m prior.
    rewrite !(control_logic_auto mode o ob oa _ _ Hm).
    destruct prior; cbn [negb andb];
      destruct (Z.ltb_spec m ob); destruct (Z.gtb_spec m oa);
      cbn [negb andb]; try reflexivity;
      repeat match goal with
             | |- context [?x <? ?y] => destruct (Z.ltb_spec x y)
             | |- context [?x >? ?y] => destruct (Z.gtb_spec x y)
             end; try reflexivity; lia.
  - intros m prior Hb. rewrite (control_logic_auto mode o ob oa _ _ Hm).
    destruct prior; cbn [negb andb];
      destruct (Z.ltb_spec m ob); destruct (Z.gtb_spec m oa);
      try reflexivity; lia.
Qed.

(** *** Callbacks between the read and the write of the slot *)

Lemma listener_then_clear (evs : list sse_event) (st : state) :
  with_pending_patch None (listener evs st) = with_pending_patch None st.
Proof.
  revert st. induction evs as [|e evs IH]; intro st; [reflexivity|].
  cbn [listener fold_left]. change (fold_left _ evs ?s) with (listener evs s).
  rewrite IH. destruct e; reflexivity.
Qed.

(** The iteration does not depend on the callbacks that run between
    the read at line 247 and the write at line 248. *)
Lemma iteration_racing
    (a : args) (before racing racing' : list sse_event) (f : fetch_result)
    (c1 c2 c3 c4 : bool) (w : Z) (st : state) :
  iteration a (mkTick before racing f c1 c2 c3 c4 w) st =
  iteration a (mkTick before racing' f c1 c2 c3 c4 w) st.
Proof.
  unfold iteration. cbn [sse_before].
  set (st0 := listener before st).
  rewrite !loop_body_flat, !(bind_run (fetch_settings a _) _ st0).
  change (fetch_settings a (mkTick before racing' f c1 c2 c3 c4 w) st0)
    with (fetch_settings a (mkTick before racing f c1 c2 c3 c4 w) st0).
  destruct (fst (fetch_settings a _ st0)) as [[]|]; [|reflexivity].
  set (st1 := snd (fetch_settings a _ st0)).
  rewrite !(bind_run (apply_pending _) _ st1).
  assert (E : apply_pending (mkTick before racing f c1 c2 c3 c4 w) st1 =
              apply_pending (mkTick before racing' f c1 c2 c3 c4 w) st1).
  { unfold apply_pending.
    rewrite !(bind_done _ _ st1 st1 (pending_patch st1)) by reflexivity.
    destruct (pending_patch st1) as [[|b p]|]; try reflexivity.
    cbn [sse_racing].
    rewrite !(bind_done _ _ st1 (listener _ st1) tt) by reflexivity.
    rewrite !(bind_done _ _ (listener _ st1) (with_pending_patch None st1) tt)
      by (unfold modify; rewrite listener_then_clear; reflexivity).
    reflexivity. }
  rewrite E. reflexivity.
Qed.

(** *** The requests of a tick and its outcome *)

(** Lines 279-303: acknowledgements, and last the reading when all of
    them complete. *)
Lemma applied_tail_requests (i : tick_in) (st2 : state) (s : settings) :
  working st2 = Some s ->
  let r := (ack_settings_applied i ;; environment i ;; control ;;
            ack_on_change i ;; report i) st2 in
  exists acks,
    forallb is_ack acks = true /\ (List.length acks <= 2)%nat /\
    match fst r with
    | Done _ =>
        exists x, raw (snd r) = Some x /\ sent (snd r) =
          (sent st2 ++ acks ++ [Reading (moisture (snd r)) (pump_on (snd r)) x])%list
    | Raised => sent (snd r) = (sent st2 ++ acks)%list
    end.
Proof.
  intros Hw r. subst r.
  destruct (working_inv st2 s Hw) as (Hm & _).
  assert (Tail : forall st3, working st3 = Some s ->
            let r := (environment i ;; control ;; ack_on_change i ;; report i) st3 in
            exists acks,
              forallb is_ack acks = true /\ (List.length acks <= 1)%nat /\
              match fst r with
              | Done _ =>
                  exists x, raw (snd r) = Some x /\ sent (snd r) =
                    (sent st3 ++ acks ++
                     [Reading (moisture (snd r)) (pump_on (snd r)) x])%list
              | Raised => sent (snd r) = (sent st3 ++ acks)%list
              end).
  { clear st2 Hw Hm. intros st3 Hw r. subst r.
    destruct (working_inv st3 s Hw) as (Hm & _).
    rewrite (bind_done _ _ st3 _ tt (environment_run i st3)).
    set (m' := env_step (moisture st3) (fst (randint (-2) 2 (rng st3))) (wave i)).
    set (x := 1400 + (100 - m') * (3200 - 1400) / 100).
    set (st4 := with_raw (Some x) (with_moisture m' (with_rng _ st3))).
    assert (Hw4 : working st4 = Some s) by (rewrite <- Hw; reflexivity).
    rewrite (bind_done _ _ st4 _ tt (control_run st4 s Hw4)).
    set (c := control_logic _ _ _ _ _ _).
    set (st5 := with_pump_on c st4).
    assert (Hm5 : mode st5 = Some (s_mode s)) by exact Hm.
    rewrite bind_run, (ack_on_change_run i st5 (s_mode s) Hm5).
    change (last_ack_state st5) with (last_ack_state st3).
    change (pump_on st5) with c.
    destruct (ack_due (last_ack_state st3) c (s_mode s));
      [destruct (ack_sim_returns i)|]; cbn [fst snd].
    - set (st6 := with_last_ack_state _ _).
      rewrite (report_run i st6 x eq_refl).
      exists [Ack c (s_mode s) "sim"]. split; [reflexivity|]. split; [cbn; lia|].
      destruct (reading_returns i); cbn [fst snd].
      + exists x. split; [reflexivity|]. cbn. rewrite <- app_assoc. reflexivity.
      + reflexivity.
    - exists []. split; [reflexivity|]. split; [cbn; lia|]. cbn. apply eq_sym, app_nil_r.
    - rewrite (report_run i st5 x eq_refl).
      exists []. split; [reflexivity|]. split; [cbn; lia|].
      destruct (reading_returns i); cbn [fst snd].
      + exists x. split; reflexivity.
      + cbn. apply eq_sym, app_nil_r. }
  rewrite bind_run, (ack_settings_applied_run i st2 (s_mode s) Hm).
  destruct (settings_applied_acked st2);
    [|destruct (ack_applied_returns i)]; cbn [fst snd].
  - destruct (Tail st2 Hw) as (acks & Ha & Hl & Hs).
    exists acks. split; [exact Ha|]. split; [lia|exact Hs].
  - set (st3 := with_settings_applied_acked true _).
    assert (Hw3 : working st3 = Some s) by (rewrite <- Hw; reflexivity).
    destruct (Tail st3 Hw3) as (acks & Ha & Hl & Hs).
    exists (Ack (pump_on st2) (s_mode s) "settings applied" :: acks).
    split; [exact Ha|]. split; [cbn [List.length]; lia|].
    change (sent st3) with (sent st2 ++ [Ack (pump_on st2) (s_mode s) "settings applied"])%list in Hs.
    destruct (fst _) as [[]|].
    + destruct Hs as (x & Hx & Hs). exists x. split; [exact Hx|].
      rewrite Hs, <- app_assoc. reflexivity.
    + rewrite Hs, <- app_assoc. reflexivity.
  - exists []. split; [reflexivity|]. split; [cbn; lia|]. apply eq_sym, app_nil_r.
Qed.

(** The requests of one iteration, by the outcome of the body. *)
Lemma iteration_requests (a : args) (i : tick_in) (st : state) :
  let st' := iteration a i st in
  exists acks,
    forallb is_ack acks = true /\ (List.length acks <= 3)%nat /\
    match fst (loop_body a i (listener (sse_before i) st)) with
    | Done _ => exists x,
        raw st' = Some x /\
        emitted a i st = (acks ++ [Reading (moisture st') (pump_on st') x])%list
    | Raised => emitted a i st = acks
    end.
Proof.
  intro st'.
  assert (Em : forall new, sent st' = (sent st ++ new)%list -> emitted a i st = new)
    by (intros new E; apply emitted_trace; exact E).
  subst st'. unfold iteration in *. set (st0 := listener (sse_before i) st) in *.
  assert (Hs0 : sent st0 = sent st) by (apply (listener_frame sent); reflexivity).
  rewrite loop_body_flat in *. rewrite bind_run in *.
  pose proof (fetch_settings_rest a i st0) as Hrest.
  pose proof (fetch_settings_done a i st0) as Hdone.
  destruct (fst (fetch_settings a i st0)) as [[]|].
  2:{ exists []. split; [reflexivity|]. split; [cbn; lia|]. cbn [fst snd] in *.
      apply Em. unfold rest_of in Hrest. injection Hrest as _ _ _ _ _ _ _ R.
      rewrite R, Hs0, app_nil_r. reflexivity. }
  destruct (Hdone eq_refl) as [s Es]. rewrite Es in *. clear Hdone Hrest.
  set (st1 := with_settings s st0) in *.
  assert (Hw : working st1 = Some s) by apply working_with_settings.
  assert (Hs1 : sent st1 = sent st) by exact Hs0.
  rewrite bind_run in *.
  destruct (patch_truthy (pending_patch st1)) eqn:Ht.
  - destruct (apply_pending_taken i st1 s Hw Ht)
      as (_ & _ & (s2 & Hw2) & [(Hr & Hv) | (Hdn & _ & d & m & Hsent & _)]).
    + rewrite Hr in *. exists []. split; [reflexivity|]. split; [cbn; lia|].
      cbn [fst snd] in *. apply Em. unfold ack_view in Hv. injection Hv as _ _ R.
      rewrite R, Hs0, app_nil_r. reflexivity.
    + rewrite Hdn in *.
      destruct (applied_tail_requests i _ s2 Hw2) as (acks & Ha & Hl & Hs).
      exists (Ack d m "cmd" :: acks). split; [exact Ha|].
      split; [cbn [List.length]; lia|].
      rewrite Hsent, Hs1 in Hs.
      match type of Hs with match fst ?r with _ => _ end => destruct (fst r) as [[]|] end.
      * destruct Hs as (x & Hx & Hs). exists x. split; [exact Hx|].
        apply Em. rewrite Hs, <- app_assoc. reflexivity.
      * apply Em. rewrite Hs, <- app_assoc. reflexivity.
  - rewrite (apply_pending_idle i st1 Ht) in *. cbn [fst snd] in *.
    destruct (applied_tail_requests i st1 s Hw) as (acks & Ha & Hl & Hs).
    exists acks. split; [exact Ha|]. split; [lia|].
    rewrite Hs1 in Hs.
    match type of Hs with match fst ?r with _ => _ end => destruct (fst r) as [[]|] end.
    + destruct Hs as (x & Hx & Hs). exists x. split; [exact Hx|]. apply Em. exact Hs.
    + apply Em. exact Hs.
Qed.

Lemma all_acks_no_reading (acks : list request) (mo : Z) (p : bool) (x : Z) :
  forallb is_ack acks = true -> ~ In (Reading mo p x) acks.
Proof.
  intros Ha Hin. rewrite forallb_forall in Ha. specialize (Ha _ Hin). discriminate.
Qed.


End Properties.

(** ** Properties of the code around the loop *)

Section Surroundings.
Context `{Builtins} `{Random} `{Text}.

(** *** Strings *)

Lemma append_cancel (p a b : string) : p ++ a = p ++ b -> a = b.
Proof.
  induction p as [|c p IH]; cbn; intro E; [exact E|].
  injection E as E. apply IH. exact E.
Qed.

Lemma append_grows (p : string) (c : ascii) (s : string) : p ++ String c s <> p.
Proof.
  induction p as [|a p IH]; cbn; [discriminate|].
  intro E. injection E as E. exact (IH E).
Qed.

Lemma to_int_proper (z : Z) :
  Z.to_int z <> Decimal.Pos Decimal.Nil /\ Z.to_int z <> Decimal.Neg Decimal.Nil.
Proof.
  pose proof (DecimalZ.to_of (Z.to_int z)) as T. rewrite DecimalZ.of_to in T.
  split; intro E; rewrite E in T; discriminate T.
Qed.

(** [str] of an int determines the int. *)
Lemma str_of_int_inj (a b : Z) : str_of_int a = str_of_int b -> a = b.
Proof.
  unfold str_of_int. intro E. apply DecimalZ.to_int_inj.
  destruct (to_int_proper a) as [A1 A2]. destruct (to_int_proper b) as [B1 B2].
  pose proof (NilZero.isi (Z.to_int a) A1 A2) as Ia.
  pose proof (NilZero.isi (Z.to_int b) B1 B2) as Ib.
  rewrite E in Ia. rewrite Ia in Ib. injection Ib as Ib. exact Ib.
Qed.

Lemma prefix_split (p s : string) : prefix p s = true -> exists r, s = p ++ r.
Proof.
  revert s. induction p as [|c p IH]; intros s E; [exists s; reflexivity|].
  destruct s as [|c' s]; [discriminate|]. cbn [prefix] in E.
  destruct (ascii_dec c c') as [->|]; [|discriminate].
  destruct (IH s E) as [r ->]. exists r. reflexivity.
Qed.

(** *** [make_base_url] *)

(** X8. For one host and one scheme, two ports give the same base URL
    exactly when they are equal or each of them is 0 or the default port
    of the scheme (443 for https, 80 for http): port 0 stands for the
    default port, and every other port shows in the URL. *)
Theorem X8_base_url_shows_the_port (host : string) (p q : Z) (use_https : bool) :
  let d := if use_https then 443 else 80 in
  make_base_url host p use_https = make_base_url host q use_https <->
  p = q \/ ((p = 0 \/ p = d) /\ (q = 0 \/ q = d)).
Proof.
  intro d. unfold make_base_url. fold d.
  set (proto := if use_https then "https" else "http").
  destruct (Z.eqb_spec p 0) as [Ep0|Np0]; destruct (Z.eqb_spec p d) as [Epd|Npd];
    destruct (Z.eqb_spec q 0) as [Eq0|Nq0]; destruct (Z.eqb_spec q d) as [Eqd|Nqd];
    cbn [negb andb];
    try (split; [intros _; right; split; [auto|auto] | reflexivity]).
  all: split.
  all: try (intros [E|[[E|E] [E'|E']]]; solve [congruence | lia]).
  all: intro E; do 2 apply append_cancel in E; cbn [append] in E.
  all: try (symmetry in E; apply append_grows in E; contradiction).
  all: try (apply append_grows in E; contradiction).
  apply append_cancel in E. injection E as E.
  left. apply str_of_int_inj. exact E.
Qed.

(** *** [auto_device_id] *)

Lemma choice_hex (g : rng_state) :
  exists c, fst (choice "0123456789abcdef" g) = Some c /\ is_hex c = true.
Proof.
  unfold choice.
  change (Z.of_nat (String.length "0123456789abcdef")) with 16.
  pose proof (randbelow_range 16 g ltac:(lia)) as R.
  destruct (randbelow 16 g) as [k g']. cbn [fst] in *.
  assert (Hk : (Z.to_nat k < 16)%nat) by lia.
  set (n := Z.to_nat k) in *. clearbody n.
  do 16 (destruct n as [|n]; [eexists; split; reflexivity|]). lia.
Qed.

Lemma hex_suffix_format (n : nat) (g : rng_state) :
  String.length (fst (hex_suffix n g)) = n /\
  forallb is_hex (list_ascii_of_string (fst (hex_suffix n g))) = true.
Proof.
  revert g. induction n as [|n IH]; intro g; [split; reflexivity|].
  cbn [hex_suffix].
  destruct (choice_hex g) as (c & Ec & Hc).
  destruct (choice "0123456789abcdef" g) as [oc g1]. cbn [fst] in Ec. subst oc.
  destruct (IH g1) as [Il If].
  destruct (hex_suffix n g1) as [s g2]. cbn [fst] in *.
  split; [cbn [String.length]; rewrite Il; reflexivity|].
  cbn [list_ascii_of_string forallb]. rewrite Hc, If. reflexivity.
Qed.

(** X9. The device id [auto_device_id] makes is the prefix, a dash and
    exactly six characters, each of them one of [0123456789abcdef], for
    every state of the generator. *)
Theorem X9_auto_device_id_format (prefix : string) (g : rng_state) :
  exists suffix,
    fst (auto_device_id prefix g) = prefix ++ "-" ++ suffix /\
    String.length suffix = 6%nat /\
    forallb is_hex (list_ascii_of_string suffix) = true.
Proof.
  unfold auto_device_id. destruct (hex_suffix_format 6 g) as [Hl Hf].
  destruct (hex_suffix 6 g) as [s g']. cbn [fst] in *.
  exists s. repeat split; assumption.
Qed.

(** *** Provisioning *)

Lemma lookup_dict_set_same (d : dict) (k : string) (v : value) :
  lookup (dict_set d k v) k = Some v.
Proof.
  induction d as [|[k' v'] d IH]; cbn [dict_set lookup].
  - rewrite String.eqb_refl. reflexivity.
  - destruct (k' =? k)%string eqn:E; cbn [lookup].
    + rewrite String.eqb_refl. reflexivity.
    + rewrite E. exact IH.
Qed.

Lemma lookup_dict_set_other (d : dict) (k k' : string) (v : value) :
  k' <> k -> lookup (dict_set d k v) k' = lookup d k'.
Proof.
  intro Hne. assert (Hf : (k =? k')%string = false)
    by (apply String.eqb_neq; congruence).
  induction d as [|[k0 v0] d IH]; cbn [dict_set lookup].
  - rewrite Hf. reflexivity.
  - destruct (String.eqb_spec k0 k) as [->|Hn]; cbn [lookup].
    + rewrite Hf. reflexivity.
    + rewrite IH. reflexivity.
Qed.

Lemma get_dict_set_same (d : dict) (k : string) (v dflt : value) :
  get (dict_set d k v) k dflt = v.
Proof. unfold get. rewrite lookup_dict_set_same. reflexivity. Qed.

Lemma get_dict_set_other (d : dict) (k k' : string) (v dflt : value) :
  k' <> k -> get (dict_set d k v) k' dflt = get d k' dflt.
Proof. intro Hne. unfold get. rewrite lookup_dict_set_other by exact Hne. reflexivity. Qed.

Lemma rotate_key_truthy (r : response) (key : value) :
  rotate_key r = Some key -> truthy key = true.
Proof.
  unfold rotate_key. destruct r as [|[] [data|]]; try discriminate.
  destruct (method_get data "apiKey" VNone) as [k|]; [|discriminate].
  destruct (truthy k) eqn:E; [|discriminate]. intro E'. congruence.
Qed.

(** How lines 199-212 go, by what line 200 finds. *)
Lemma provision_cases (f : file_read) (device_id : string) (r : response) :
  match cached_key (load_state f) device_id with
  | None => provision f device_id r = Crash
  | Some k =>
      if truthy k then provision f device_id r = Ready k false None
      else match rotate_key r with
           | None => provision f device_id r = Exit1
           | Some key =>
               exists sd st,
                 load_state f = VDict sd /\
                 get sd "devices" (VDict []) = VDict st /\
                 provision f device_id r =
                   Ready key true
                     (Some (VDict (dict_set sd "devices"
                                     (VDict (dict_set st device_id key)))))
           end
  end.
Proof.
  unfold cached_key, provision.
  destruct (load_state f) as [| | | | | |sd]; cbn [method_get]; try reflexivity.
  destruct (get sd "devices" (VDict [])) as [| | | | | |st] eqn:Ed;
    cbn [method_get]; try reflexivity.
  destruct (truthy (get st device_id VNone)); [reflexivity|].
  destruct (rotate_key r) as [key|]; [|reflexivity].
  exists sd, st. repeat split. exact Ed.
Qed.

(** X10. A key that was rotated is found again: when lines 199-212
    rotate the key and hand a state to [save_state], the key is truthy,
    the state saved gives that key for the device, so that a later start
    from the saved file uses it without any request, whatever the server
    would answer; and the saved state gives every other device, and
    every other entry of the file, what the file gave before. *)
Theorem X10_rotated_key_is_found_again
    (f : file_read) (device_id : string) (r : response) (key saved : value) :
  provision f device_id r = Ready key true (Some saved) ->
  truthy key = true /\ rotate_key r = Some key /\
  cached_key saved device_id = Some key /\
  (forall r', provision (FileJson saved) device_id r' = Ready key false None) /\
  (forall other, other <> device_id ->
     cached_key saved other = cached_key (load_state f) other) /\
  (forall entry, entry <> "devices" ->
     method_get saved entry VNone = method_get (load_state f) entry VNone).
Proof.
  intro E. pose proof (provision_cases f device_id r) as C.
  destruct (cached_key (load_state f) device_id) as [k|] eqn:Ek;
    [|rewrite C in E; discriminate].
  destruct (truthy k) eqn:Et; [rewrite C in E; discriminate|].
  destruct (rotate_key r) as [key'|] eqn:Er; [|rewrite C in E; discriminate].
  destruct C as (sd & st & Hs & Hd & C). rewrite C in E.
  injection E as -> <-.
  pose proof (rotate_key_truthy r key Er) as Hk.
  assert (Hc : cached_key
                 (VDict (dict_set sd "devices" (VDict (dict_set st device_id key))))
                 device_id = Some key).
  { unfold cached_key. cbn [method_get]. rewrite get_dict_set_same.
    cbn [method_get]. rewrite get_dict_set_same. reflexivity. }
  split; [exact Hk|]. split; [reflexivity|]. split; [exact Hc|].
  split; [|split].
  - intro r'. pose proof (provision_cases
      (FileJson (VDict (dict_set sd "devices" (VDict (dict_set st device_id key)))))
      device_id r') as C'.
    cbn [load_state] in C'. rewrite Hc, Hk in C'. exact C'.
  - intros other Hne. rewrite Hs. unfold cached_key. cbn [method_get].
    rewrite get_dict_set_same, Hd. cbn [method_get].
    rewrite get_dict_set_other by exact Hne. reflexivity.
  - intros entry Hne. rewrite Hs. cbn [method_get].
    rewrite get_dict_set_other by exact Hne. reflexivity.
Qed.

(** X11. How provisioning ends. A truthy key in the state file is used
    as it is, with no request and nothing saved. The process exits with
    status 1 exactly when the file gives no truthy key for the device
    and the rotation fails; the rotation succeeds exactly on an OK
    response whose body is an object with a truthy [apiKey]. And line
    200, which is outside the [try], raises exactly when the file holds
    JSON that is not an object, or whose [devices] entry is not one. *)
Theorem X11_provisioning_outcomes
    (f : file_read) (device_id : string) (r : response) :
  (forall k, cached_key (load_state f) device_id = Some k -> truthy k = true ->
     provision f device_id r = Ready k false None) /\
  (provision f device_id r = Exit1 <->
     exists k, cached_key (load_state f) device_id = Some k /\
               truthy k = false /\ rotate_key r = None) /\
  (forall key, rotate_key r = Some key <->
     exists data, r = Resp true (Some (VDict data)) /\
                  get data "apiKey" VNone = key /\ truthy key = true) /\
  (provision f device_id r = Crash <->
     exists v, f = FileJson v /\
       forall st, method_get v "devices" (VDict []) <> Some (VDict st)).
Proof.
  pose proof (provision_cases f device_id r) as C.
  split; [|split; [|split]].
  - intros k Ek Et. rewrite Ek, Et in C. exact C.
  - split.
    + intro E. destruct (cached_key (load_state f) device_id) as [k|];
        [|rewrite C in E; discriminate].
      destruct (truthy k) eqn:Et; [rewrite C in E; discriminate|].
      destruct (rotate_key r) as [key|];
        [destruct C as (sd & st & _ & _ & C); rewrite C in E; discriminate|].
      exists k. repeat split. exact Et.
    + intros (k & Ek & Et & Er). rewrite Ek, Et, Er in C. exact C.
  - intro key. unfold rotate_key. split.
    + destruct r as [|[] [data|]]; try discriminate.
      destruct data as [| | | | | |d]; cbn [method_get]; try discriminate.
      destruct (truthy (get d "apiKey" VNone)) eqn:Et; [|discriminate].
      intro E. injection E as <-. exists d. repeat split. exact Et.
    + intros (data & -> & <- & Et). cbn [method_get]. rewrite Et. reflexivity.
  - split.
    + intro E. destruct (cached_key (load_state f) device_id) as [k|] eqn:Ek.
      * destruct (truthy k); [rewrite C in E; discriminate|].
        destruct (rotate_key r);
          [destruct C as (sd & st & _ & _ & C)|]; rewrite C in E; discriminate.
      * destruct f as [| |v]; try discriminate Ek. exists v. split; [reflexivity|].
        intros st Hst. unfold cached_key in Ek. cbn [load_state] in Ek.
        rewrite Hst in Ek. discriminate Ek.
    + intros (v & -> & Hv). cbn [load_state] in C. unfold cached_key in C.
      destruct (method_get v "devices" (VDict [])) as [dv|] eqn:Ed; [|exact C].
      destruct dv as [| | | | | |st]; cbn [method_get] in C; try exact C.
      exfalso. exact (Hv st eq_refl).
Qed.

(** *** The listener *)

Lemma event_line_has_colon (line : string) :
  prefix "event:" line = true -> exists t, after_colon line = Some t.
Proof.
  intro E. destruct (prefix_split _ _ E) as [r ->]. exists r. reflexivity.
Qed.

Lemma data_line_has_colon (line : string) :
  prefix "data:" line = true -> exists t, after_colon line = Some t.
Proof.
  intro E. destruct (prefix_split _ _ E) as [r ->]. exists r. reflexivity.
Qed.

Lemma comment_is_no_event (line : string) :
  prefix ":" line = true ->
  prefix "event:" line = false /\ prefix "data:" line = false.
Proof.
  intro E. destruct (prefix_split _ _ E) as [r ->]. split; reflexivity.
Qed.

(** One line, by the branch the listener takes. *)
Ltac line_cases line :=
  destruct (String.eqb_spec line "") as [?E|?N];
  [|destruct (prefix ":" line) eqn:?Ec;
    [|destruct (prefix "event:" line) eqn:?Ee;
      [|destruct (prefix "data:" line) eqn:?Ed]]].

(** X12. The listener goes through the stream line by line and carries
    nothing from one line to the next but the last event type: what it
    does on two pieces of a stream is what it does on the first, then
    what it does on the second starting from the event type the first
    leaves. Once [stop_flag] is seen set, no later line has any effect.
    The hypothesis: [stop_flag] is not set while the first piece is read. *)
Theorem X12_listener_line_by_line
    (cb : bool) (last_event : option string) (l1 l2 : list (bool * string)) :
  forallb (fun l => negb (fst l)) l1 = true ->
  listen_lines cb last_event (l1 ++ l2) =
    (listen_lines cb last_event l1 ++
     listen_lines cb (last_event_after last_event (map snd l1)) l2)%list /\
  forall line, listen_lines cb last_event (l1 ++ (true, line) :: l2) =
               listen_lines cb last_event l1.
Proof.
  assert (Comp : forall l2 l1 last_event,
            forallb (fun l => negb (fst l)) l1 = true ->
            listen_lines cb last_event (l1 ++ l2) =
              (listen_lines cb last_event l1 ++
               listen_lines cb (last_event_after last_event (map snd l1)) l2)%list).
  { clear. intros l2 l1. induction l1 as [|[stop line] l1 IH]; intros le Hs; [reflexivity|].
    cbn [forallb fst] in Hs. apply andb_prop in Hs. destruct Hs as [Hst Hs].
    destruct stop; [discriminate|].
    cbn [List.app listen_lines map snd last_event_after].
    line_cases line; cbn [negb andb].
    - subst line. cbn [String.eqb negb andb]. apply IH; exact Hs.
    - apply IH; exact Hs.
    - destruct (event_line_has_colon line Ee) as [t ->]. apply IH; exact Hs.
    - destruct (data_line_has_colon line Ed) as [t ->].
      destruct le as [ev|]; [|apply IH; exact Hs].
      destruct (ev =? "settings")%string;
        [cbn [List.app]; f_equal; apply IH; exact Hs|].
      destruct ((ev =? "command")%string && cb); [|apply IH; exact Hs].
      destruct (command_patch (str_strip t));
        [cbn [List.app]; f_equal|]; apply IH; exact Hs.
    - apply IH; exact Hs. }
  intro Hs. split; [apply Comp; exact Hs|].
  intro line. rewrite (Comp _ _ _ Hs). cbn [listen_lines]. apply app_nil_r.
Qed.

(** X13. Blank lines, comment lines and lines that are neither [event:]
    nor [data:] lines change nothing: the listener does on a stream what
    it does on the stream without them. In particular the blank line
    that ends an event in the stream does not reset the event type, and
    a later [data:] line is handled under the type last named. *)
Theorem X13_listener_skips_other_lines
    (cb : bool) (last_event : option string) (lines : list (bool * string)) :
  listen_lines cb last_event lines =
  listen_lines cb last_event (filter acted_on lines).
Proof.
  revert last_event. induction lines as [|[stop line] lines IH]; intro le; [reflexivity|].
  cbn [filter]. unfold acted_on at 1. cbn [fst snd].
  destruct stop; [reflexivity|]. cbn [orb].
  line_cases line.
  - subst line. cbn [prefix orb listen_lines String.eqb]. apply IH.
  - destruct (comment_is_no_event line Ec) as [-> ->]. cbn [orb listen_lines].
    destruct (String.eqb_spec line ""); [apply IH|]. rewrite Ec. apply IH.
  - cbn [orb listen_lines].
    destruct (String.eqb_spec line ""); [contradiction|]. rewrite Ec, Ee.
    destruct (after_colon line); [apply IH|reflexivity].
  - rewrite orb_true_r. cbn [listen_lines].
    destruct (String.eqb_spec line ""); [contradiction|]. rewrite Ec, Ee, Ed.
    destruct (after_colon line); [|reflexivity].
    destruct le as [ev|]; [|apply IH].
    destruct (ev =? "settings")%string; [f_equal; apply IH|].
    destruct ((ev =? "command")%string && cb); [|apply IH].
    destruct (command_patch (str_strip s)); [f_equal|]; apply IH.
  - cbn [orb listen_lines].
    destruct (String.eqb_spec line ""); [contradiction|]. rewrite Ec, Ee, Ed.
    apply IH.
Qed.

Lemma command_patch_some (data : string) (p : dict) :
  command_patch data = Some p ->
  data <> "" /\ exists j, json_loads data = Some j /\
                          method_get j "patch" VNone = Some (VDict p).
Proof.
  unfold command_patch. destruct (String.eqb_spec data ""); [discriminate|].
  destruct (json_loads data) as [j|]; [|discriminate].
  destruct (method_get j "patch" VNone) as [[| | | | | |q]|] eqn:Eg; try discriminate.
  intro E. injection E as <-. split; [assumption|]. exists j. split; [reflexivity|exact Eg].
Qed.

Lemma listen_lines_command (cb : bool) (p : dict) (lines : list (bool * string)) :
  forall last_event,
  In (EvCommand p) (listen_lines cb last_event lines) ->
  cb = true /\
  exists line t j,
    In (false, line) lines /\ prefix "data:" line = true /\
    after_colon line = Some t /\ str_strip t <> "" /\
    json_loads (str_strip t) = Some j /\
    method_get j "patch" VNone = Some (VDict p).
Proof.
  induction lines as [|[stop line] lines IH]; intros le Hin; [contradiction|].
  assert (Next : forall le', In (EvCommand p) (listen_lines cb le' lines) ->
            cb = true /\
            exists line0 t j,
              In (false, line0) ((stop, line) :: lines) /\ prefix "data:" line0 = true /\
              after_colon line0 = Some t /\ str_strip t <> "" /\
              json_loads (str_strip t) = Some j /\
              method_get j "patch" VNone = Some (VDict p)).
  { intros le' Hin'. destruct (IH le' Hin') as (Hcb & l0 & t & j & Hl & Hrest).
    split; [exact Hcb|]. exists l0, t, j. split; [right; exact Hl|exact Hrest]. }
  cbn [listen_lines] in Hin.
  destruct stop; [contradiction|].
  line_cases line.
  - subst line. cbn [String.eqb] in Hin. exact (Next _ Hin).
  - destruct (String.eqb_spec line ""); [contradiction|]. exact (Next _ Hin).
  - destruct (String.eqb_spec line ""); [contradiction|].
    destruct (after_colon line); [exact (Next _ Hin)|contradiction].
  - destruct (String.eqb_spec line ""); [contradiction|].
    destruct (after_colon line) as [t|] eqn:Et; [|contradiction].
    destruct le as [ev|]; [|exact (Next _ Hin)].
    destruct (ev =? "settings")%string.
    { destruct Hin as [Hin|Hin]; [discriminate|exact (Next _ Hin)]. }
    destruct ((ev =? "command")%string && cb) eqn:Eb; [|exact (Next _ Hin)].
    destruct (command_patch (str_strip t)) as [q|] eqn:Eq; [|exact (Next _ Hin)].
    destruct Hin as [Hin|Hin]; [|exact (Next _ Hin)].
    injection Hin as ->. apply andb_prop in Eb. destruct Eb as [_ ->].
    split; [reflexivity|].
    destruct (command_patch_some _ _ Eq) as (Hne & j & Hj & Hg).
    exists line, t, j. split; [left; reflexivity|]. repeat split; assumption.
  - destruct (String.eqb_spec line ""); [contradiction|]. exact (Next _ Hin).
Qed.

(** X14. [on_command] is called with a patch only for a [data:] line,
    read from a stream answered with status 200 while [stop_flag] was
    not set, whose text after the colon is, once stripped, a non-empty
    JSON document that is an object with [patch] an object -- that
    patch. A connection that fails or answers with another status, data
    that does not parse, a document that is no object, a missing patch
    or one that is no object never reach [on_command]; and without an
    [on_command] callback no command is delivered at all. *)
Theorem X14_commands_carry_an_object_patch (s : stream) (cb : bool) (p : dict) :
  In (EvCommand p) (listen_sse s cb) ->
  cb = true /\
  exists lines line t j,
    s = Stream 200 lines /\
    In (false, line) lines /\ prefix "data:" line = true /\
    after_colon line = Some t /\ str_strip t <> "" /\
    json_loads (str_strip t) = Some j /\
    method_get j "patch" VNone = Some (VDict p).
Proof.
  unfold listen_sse. destruct s as [|status lines]; [contradiction|].
  destruct (Z.eqb_spec status 200) as [->|]; [|contradiction].
  intro Hin. destruct (listen_lines_command cb p lines None Hin)
    as (Hcb & line & t & j & Hrest).
  split; [exact Hcb|]. exists lines, line, t, j. split; [reflexivity|exact Hrest].
Qed.

(** *** The sleep *)

Lemma deliver_app (e1 e2 : list sse_event) (mb : Shared.mailbox) :
  Shared.deliver (e1 ++ e2) mb = Shared.deliver e2 (Shared.deliver e1 mb).
Proof. unfold Shared.deliver. apply fold_left_app. Qed.

Lemma deliver_flag_stays (evs : list sse_event) (mb : Shared.mailbox) :
  Shared.mb_flag mb = true -> Shared.mb_flag (Shared.deliver evs mb) = true.
Proof.
  revert mb. induction evs as [|e evs IH]; intros mb E; [exact E|].
  cbn [Shared.deliver fold_left]. apply IH. destruct e; reflexivity.
Qed.

Lemma deliver_flag_false (evs : list sse_event) (mb : Shared.mailbox) :
  Shared.mb_flag (Shared.deliver evs mb) = false ->
  evs = [] /\ Shared.mb_flag mb = false.
Proof.
  destruct evs as [|e evs]; [intro E; split; [reflexivity|exact E]|].
  intro E. cbn [Shared.deliver fold_left] in E.
  rewrite (deliver_flag_stays evs) in E by (destruct e; reflexivity).
  discriminate.
Qed.

(** The slot of the loop's state and the slot of the mailbox are the
    same thing. *)
Lemma listener_deliver (evs : list sse_event) (st : state) (mb : Shared.mailbox) :
  pending_patch st = Shared.mb_patch mb ->
  pending_patch (listener evs st) = Shared.mb_patch (Shared.deliver evs mb).
Proof.
  revert st mb. induction evs as [|e evs IH]; intros st mb E; [exact E|].
  cbn [listener Shared.deliver fold_left]. apply IH. destruct e; [exact E|reflexivity].
Qed.

(** X15. The sleep at lines 314-322, turn by turn. With [seen] the
    callbacks that ran up to the turn at which it ends: it has called
    [time.sleep] only at turns that found the flag down, so none of the
    earlier turns saw any callback; it never touches the patch slot,
    which holds what the callbacks left and is what the next iteration
    finds; when it ends by a nudge the flag is down again, and was up
    at the start or raised by a callback; when it ends otherwise the
    flag is left as the callbacks set it, so that an event arriving as
    the sleep times out cuts the next sleep short. *)
Theorem X15_sleep_turn_by_turn (polls : list poll) (mb : Shared.mailbox) :
  let w := fst (fst (sleep polls mb)) in
  let mb' := snd (fst (sleep polls mb)) in
  let n := snd (sleep polls mb) in
  let seen := flat_map callbacks (firstn (S n) polls) in
  (n <= List.length polls)%nat /\
  flat_map callbacks (firstn n polls) = [] /\
  ((0 < n)%nat -> Shared.mb_flag mb = false) /\
  Shared.mb_patch mb' = Shared.mb_patch (Shared.deliver seen mb) /\
  (forall st, pending_patch st = Shared.mb_patch mb ->
              pending_patch (listener seen st) = Shared.mb_patch mb') /\
  (w = Nudged ->
   Shared.mb_flag mb' = false /\ (Shared.mb_flag mb = true \/ seen <> [])) /\
  (w <> Nudged -> mb' = Shared.deliver seen mb).
Proof.
  cbv zeta.
  assert (Core :
    (snd (sleep polls mb) <= List.length polls)%nat /\
    flat_map callbacks (firstn (snd (sleep polls mb)) polls) = [] /\
    ((0 < snd (sleep polls mb))%nat -> Shared.mb_flag mb = false) /\
    Shared.mb_patch (snd (fst (sleep polls mb))) =
      Shared.mb_patch
        (Shared.deliver
           (flat_map callbacks (firstn (S (snd (sleep polls mb))) polls)) mb) /\
    (fst (fst (sleep polls mb)) = Nudged ->
     Shared.mb_flag (snd (fst (sleep polls mb))) = false /\
     (Shared.mb_flag mb = true \/
      flat_map callbacks (firstn (S (snd (sleep polls mb))) polls) <> [])) /\
    (fst (fst (sleep polls mb)) <> Nudged ->
     snd (fst (sleep polls mb)) =
       Shared.deliver
         (flat_map callbacks (firstn (S (snd (sleep polls mb))) polls)) mb)).
  { revert mb. induction polls as [|p polls IH]; intro mb.
    { cbn. repeat split; intros; try reflexivity; try lia; discriminate. }
    cbn [sleep].
    destruct (in_time p) eqn:Et; cbn [negb];
      [destruct (stop_seen p) eqn:Es;
       [|destruct (Shared.mb_flag (Shared.deliver (callbacks p) mb)) eqn:Ef]|].
    - cbn [fst snd firstn flat_map List.length]. rewrite app_nil_r.
      repeat split; intros; try reflexivity; try lia; discriminate.
    - cbn [fst snd firstn flat_map List.length Shared.mb_patch Shared.mb_flag].
      rewrite app_nil_r.
      repeat split; intros; try reflexivity; try lia; try contradiction.
      destruct (Shared.mb_flag mb) eqn:Em; [left; reflexivity|right].
      intro En. rewrite En in Ef. cbn in Ef. congruence.
    - destruct (deliver_flag_false _ _ Ef) as [Ecb Em].
      specialize (IH (Shared.deliver (callbacks p) mb)).
      destruct (sleep polls (Shared.deliver (callbacks p) mb)) as [[w mb'] n].
      cbn [fst snd] in *. cbn [firstn flat_map List.length].
      rewrite Ecb in *. cbn [List.app Shared.deliver fold_left] in *.
      destruct IH as (I1 & I2 & I3 & I4 & I5 & I6).
      split; [lia|]. split; [exact I2|]. split; [intros _; exact Em|].
      split; [exact I4|]. split; [|exact I6].
      intro Ew. destruct (I5 Ew) as [F [Fm|Fs]].
      + rewrite Fm in Ef. discriminate.
      + split; [exact F|right; exact Fs].
    - cbn [fst snd firstn flat_map List.length]. rewrite app_nil_r.
      repeat split; intros; try reflexivity; try lia; discriminate. }
  destruct Core as (C1 & C2 & C3 & C4 & C5 & C6).
  repeat split; try assumption.
  - intros st E. rewrite C4. apply listener_deliver. exact E.
  - apply C5; assumption.
  - apply C5; assumption.
Qed.

(** *** The manifest poll *)

(** X16. The manifest poll at the end of the [try] leaves no trace in
    the loop: the state after the body is the same with and without it,
    for any answer to the request. The poll itself can raise -- exactly
    when it is due and the answer is an OK response whose body is
    truthy but no object -- and being the last statement of the [try],
    that skips nothing. *)
Theorem X16_manifest_poll_leaves_no_trace
    (a : args) (i : tick_in) (due : bool) (r : response) (st : state) :
  snd (loop_body_polled a i due r st) = snd (loop_body a i st) /\
  (fst (loop_body_polled a i due r st) = Raised <->
   fst (loop_body a i st) = Raised \/
   (due = true /\
    exists j, r = Resp true (Some j) /\ truthy j = true /\
              method_get j "version" VNone = None)).
Proof.
  unfold loop_body_polled. rewrite bind_run.
  assert (Poll : forall st1,
            snd (ota_poll due r st1) = st1 /\
            (fst (ota_poll due r st1) = Raised <->
             due = true /\
             exists j, r = Resp true (Some j) /\ truthy j = true /\
                       method_get j "version" VNone = None)).
  { intro st1. unfold ota_poll, when. destruct due.
    2:{ cbn. split; [reflexivity|]. split; [discriminate|intros [E _]; discriminate]. }
    unfold get_ota_manifest.
    destruct r as [|[] [j|]];
      try (cbn; split; [reflexivity|];
           split; [discriminate|intros (_ & j' & E & _); discriminate]).
    unfold or_. destruct (truthy j) eqn:Et.
    - destruct j as [| | | | | |d];
        try (cbn; split; [reflexivity|];
             split; [intros _; split; [reflexivity|];
                     eexists; split; [reflexivity|split; [exact Et|reflexivity]]
                    |reflexivity]).
      cbn [method_get]. unfold bind, lift, ret. cbn [fst snd].
      destruct (truthy (get d "version" VNone)); cbn [fst snd];
        (split; [reflexivity|]);
        (split; [discriminate|intros (_ & j' & E & _ & E'); injection E as <-;
                              discriminate E']).
    - cbn. split; [reflexivity|].
      split; [discriminate|intros (_ & j' & E & Et' & _)].
      injection E as <-. congruence. }
  destruct (fst (loop_body a i st)) as [[]|] eqn:Eb; cbn [fst snd].
  - destruct (Poll (snd (loop_body a i st))) as [P1 P2].
    split; [exact P1|]. rewrite P2. split; [intro P; right; exact P|].
    intros [E|P]; [discriminate|exact P].
  - split; [reflexivity|]. split; [intros _; left; reflexivity|reflexivity].
Qed.

(** *** A command that arrives while another is being taken *)

(** X7. A command the listener stores between line 247, where the loop
    reads the slot, and line 248, where it clears it, is lost as a
    command: the patch the loop goes on with does not depend on it, the
    slot is empty after line 248, and the iteration ends with the same
    locals, the same slot and the same requests recorded, whatever
    arrived in between. What the command leaves is the wake flag: it is
    up after line 248, so that the next sleep, unless it has timed out
    or [stop_flag] is set at its first turn, ends at once by a nudge. *)
Theorem X7_command_in_the_window_is_lost
    (a : args) (before at_read at_clear at_clear' : list sse_event)
    (f : fetch_result) (c1 c2 c3 c4 : bool) (w : Z) (st : state)
    (mb : Shared.mailbox) (turn : poll) (polls : list poll) :
  let mb' := snd (Shared.take at_read at_clear mb) in
  iteration a (mkTick before at_clear f c1 c2 c3 c4 w) st =
    iteration a (mkTick before at_clear' f c1 c2 c3 c4 w) st /\
  fst (Shared.take at_read at_clear mb) = fst (Shared.take at_read at_clear' mb) /\
  (patch_truthy (Shared.mb_patch mb) = true ->
   Shared.mb_patch mb' = None /\
   Shared.mb_flag mb' = Shared.mb_flag (Shared.deliver (at_read ++ at_clear) mb) /\
   (at_clear <> [] ->
    Shared.mb_flag mb' = true /\
    (in_time turn = true -> stop_seen turn = false ->
     fst (fst (sleep (turn :: polls) mb')) = Nudged /\
     snd (sleep (turn :: polls) mb') = 0%nat))).
Proof.
  intro mb'. subst mb'.
  split; [apply iteration_racing|].
  unfold Shared.take.
  destruct (Shared.mb_patch mb) as [[|b p]|]; cbn [fst snd patch_truthy];
    (split; [reflexivity|]); try discriminate.
  intros _. cbn [Shared.mb_patch Shared.mb_flag].
  split; [reflexivity|]. split; [rewrite deliver_app; reflexivity|].
  intro Hne.
  assert (Hup : Shared.mb_flag
                  (Shared.deliver at_clear (Shared.deliver at_read mb)) = true).
  { destruct (Shared.mb_flag
                (Shared.deliver at_clear (Shared.deliver at_read mb))) eqn:E;
      [reflexivity|].
    destruct (deliver_flag_false _ _ E) as [En _]. contradiction. }
  split; [exact Hup|]. intros Ht Hs.
  cbn [sleep]. rewrite Ht, Hs. cbn [negb].
  rewrite deliver_flag_stays by exact Hup. split; reflexivity.
Qed.

(** *** The reading of a tick *)

Lemma ota_poll_state (due : bool) (r : response) (st : state) :
  snd (ota_poll due r st) = st.
Proof.
  unfold ota_poll, when. destruct due; [|reflexivity].
  unfold bind, lift, ret.
  destruct (method_get (get_ota_manifest r) "version" VNone) as [v|];
    cbn [fst snd]; [|reflexivity].
  destruct (truthy v); [|reflexivity].
  destruct (method_get (get_ota_manifest r) "url" VNone); reflexivity.
Qed.

(** X18. In an iteration [post_reading] returns exactly when lines
    238-303 have all completed: a request that raises before it, or a
    patch or a settings object that cannot be applied, costs the tick
    its reading. Of the requests of a tick that returned, the reading
    is the last; it reports the moisture, pump state and raw value the
    iteration ends with, and before it come acknowledgements only, at
    most three. The manifest poll that ends the [try] changes none of
    this: the iteration ends in the same state with it, and a [try]
    that completes with it has its reading -- though the poll can raise
    after the reading has gone out. *)
Theorem X18_reading_iff_lines_238_303_complete
    (a : args) (i : tick_in) (due : bool) (r : response) (st : state) :
  let st0 := listener (sse_before i) st in
  let st' := iteration a i st in
  snd (loop_body_polled a i due r st0) = st' /\
  (fst (loop_body a i st0) = Done tt <->
   exists mo p x, In (Reading mo p x) (emitted a i st)) /\
  (fst (loop_body_polled a i due r st0) = Done tt ->
   exists mo p x, In (Reading mo p x) (emitted a i st)) /\
  (forall mo p x, In (Reading mo p x) (emitted a i st) ->
     mo = moisture st' /\ p = pump_on st' /\ raw st' = Some x /\
     exists acks, forallb is_ack acks = true /\ (List.length acks <= 3)%nat /\
                  emitted a i st = (acks ++ [Reading mo p x])%list) /\
  (List.length (emitted a i st) <= 4)%nat.
Proof.
  intros st0 st'.
  assert (Hpoll : snd (loop_body_polled a i due r st0) = st' /\
                  (fst (loop_body_polled a i due r st0) = Done tt ->
                   fst (loop_body a i st0) = Done tt)).
  { unfold loop_body_polled. rewrite bind_run. subst st'. unfold iteration. fold st0.
    destruct (fst (loop_body a i st0)) as [[]|]; cbn [fst snd].
    - split; [apply ota_poll_state|reflexivity].
    - split; [reflexivity|discriminate]. }
  destruct Hpoll as [Hstate Hdone].
  destruct (iteration_requests a i st) as (acks & Ha & Hl & Hs).
  fold st' in Hs. fold st0 in Hs.
  split; [exact Hstate|].
  destruct (fst (loop_body a i st0)) as [[]|].
  - destruct Hs as (x & Hx & Hs). rewrite Hs.
    assert (Hin : exists mo p y,
              In (Reading mo p y) (acks ++ [Reading (moisture st') (pump_on st') x])).
    { exists (moisture st'), (pump_on st'), x. apply in_or_app. right. left. reflexivity. }
    split; [split; [intros _; exact Hin|reflexivity]|].
    split; [intros _; exact Hin|]. split.
    + intros mo p y Hy. apply in_app_or in Hy. destruct Hy as [Hy|[E|[]]];
        [exfalso; exact (all_acks_no_reading _ _ _ _ Ha Hy)|].
      injection E as <- <- <-.
      repeat split; try assumption. exists acks. repeat split; assumption.
    + rewrite length_app. cbn [List.length]. lia.
  - rewrite Hs.
    assert (Hno : ~ exists mo p x, In (Reading mo p x) acks).
    { intros (mo & p & x & Hin). exact (all_acks_no_reading _ _ _ _ Ha Hin). }
    split; [split; [discriminate|intro E; exfalso; exact (Hno E)]|].
    split; [intro E; specialize (Hdone E); discriminate|]. split.
    + intros mo p x Hin. exfalso. exact (all_acks_no_reading _ _ _ _ Ha Hin).
    + lia.
Qed.

(** *** The launcher *)

Lemma NoDup_map_injective {A B} (f : A -> B) (l : list A) :
  (forall x y, f x = f y -> x = y) -> NoDup l -> NoDup (map f l).
Proof.
  intros Hf Hl. induction Hl as [|x l Hx Hl IH]; cbn [map]; constructor; [|exact IH].
  intro Hin. apply in_map_iff in Hin. destruct Hin as (y & E & Hy).
  apply Hf in E. subst y. contradiction.
Qed.

Lemma range_NoDup (n : Z) : NoDup (range n).
Proof.
  unfold range. apply NoDup_map_injective; [|apply seq_NoDup].
  intros x y E. apply Nat2Z.inj. exact E.
Qed.

Lemma range_in (n i : Z) : In i (range n) <-> 0 <= i < n.
Proof.
  unfold range. rewrite in_map_iff. split.
  - intros (k & <- & Hk). apply in_seq in Hk. lia.
  - intro Hi. exists (Z.to_nat i). split; [lia|]. apply in_seq. lia.
Qed.

Lemma launched_device_id (executable sim_path : string) (m : multi_args) (i : Z) :
  launched_device executable sim_path m i = device_id_of m i.
Proof. reflexivity. Qed.

Lemma launched_seed_last (executable sim_path : string) (m : multi_args) (i seed : Z) :
  m_seed m = Some seed ->
  launched_seed executable sim_path m i = str_of_int (seed + i).
Proof.
  intro E. unfold launched_seed, launch. rewrite E.
  change ["--seed"; str_of_int (seed + i)]
    with (["--seed"] ++ [str_of_int (seed + i)])%list.
  rewrite !app_assoc. apply last_last.
Qed.

(** X17. [sim_multi.py] starts [max(1, count)] simulators -- one even
    for a count of zero or less --, for the indices 0 to
    [max(1, count) - 1]; the device ids on their command lines are
    pairwise different, and when a base seed is given so are the seeds,
    which are the last argument of each command line. *)
Theorem X17_launches_are_distinct (executable sim_path : string) (m : multi_args) :
  List.length (launched m) = Z.to_nat (Z.max 1 (m_count m)) /\
  (1 <= List.length (launched m))%nat /\
  (forall i, In i (launched m) <-> 0 <= i < Z.max 1 (m_count m)) /\
  NoDup (map (launched_device executable sim_path m) (launched m)) /\
  (m_seed m <> None ->
   NoDup (map (launched_seed executable sim_path m) (launched m))).
Proof.
  assert (L : List.length (launched m) = Z.to_nat (Z.max 1 (m_count m))).
  { unfold launched, range. rewrite length_map, length_seq. reflexivity. }
  split; [exact L|]. split; [lia|]. split; [intro i; apply range_in|]. split.
  - apply NoDup_map_injective; [|apply range_NoDup].
    intros x y E. rewrite !launched_device_id in E. unfold device_id_of in E.
    apply append_cancel, str_of_int_inj in E. lia.
  - intro Hs. destruct (m_seed m) as [seed|] eqn:Es; [|contradiction].
    apply NoDup_map_injective; [|apply range_NoDup].
    intros x y E. rewrite !(launched_seed_last _ _ _ _ seed Es) in E.
    apply str_of_int_inj in E. lia.
Qed.

(** *** The tester and the simulator on one state file *)

(** X19. [test_device.py] and the simulator share the state file. When
    the tester saves a state, it has rotated the key -- its
    [rotate_key] accepts what the simulator's accepts --, every request
    it goes on to make carries that key, and a simulator started
    afterwards for the same device finds the key in the file and makes
    no rotation request. With [--provision], the default, the tester
    rotates whatever the file holds: it ends without a saved state
    exactly when the rotation fails. It posts the acknowledgement only
    after a reading that was accepted, and prints "Done." only when
    both requests were. *)
Theorem X19_tester_then_simulator
    (provision_flag : bool) (reading : Z) (ack_on : bool)
    (f : file_read) (device_id : string) (r : response) (reading_ok ack_ok : bool) :
  let out := TestDevice.main provision_flag reading ack_on f device_id r
               reading_ok ack_ok in
  TestDevice.rotate_key r = rotate_key r /\
  (forall saved, TestDevice.saved_by out = Some saved ->
     exists key,
       rotate_key r = Some key /\
       TestDevice.calls_of out <> [] /\
       (forall c, In c (TestDevice.calls_of out) -> TestDevice.key_of c = key) /\
       (forall r', provision (FileJson saved) device_id r' = Ready key false None)) /\
  (provision_flag = true -> out <> TestDevice.Crash ->
     (TestDevice.saved_by out = None <-> rotate_key r = None)) /\
  (forall k p, In (TestDevice.PostAck k p) (TestDevice.calls_of out) ->
     reading_ok = true) /\
  (forall saved calls, out = TestDevice.Finished saved calls ->
     reading_ok = true /\ ack_ok = true).
Proof.
  intro out.
  assert (Hrk : TestDevice.rotate_key r = rotate_key r)
    by (destruct r as [|[] [data|]]; reflexivity).
  split; [exact Hrk|].
  subst out. unfold TestDevice.main. rewrite Hrk.
  destruct (load_state f) as [| | | | | |sd]; cbn [method_get];
    try (repeat split; intros; try discriminate; try contradiction; congruence).
  destruct (get sd "devices" (VDict [])) as [| | | | | |st] eqn:Ed; cbn [method_get];
    try (repeat split; intros; try discriminate; try contradiction; congruence).
  set (cached := get st device_id VNone).
  destruct (rotate_key r) as [key|] eqn:Er.
  - pose proof (rotate_key_truthy r key Er) as Hk.
    set (saved0 := VDict (dict_set sd "devices" (VDict (dict_set st device_id key)))).
    assert (Hfound : forall r', provision (FileJson saved0) device_id r'
                                = Ready key false None).
    { intro r'. pose proof (provision_cases (FileJson saved0) device_id r') as C.
      cbn [load_state] in C. unfold cached_key, saved0 in C. cbn [method_get] in C.
      rewrite get_dict_set_same in C. cbn [method_get] in C.
      rewrite get_dict_set_same, Hk in C. exact C. }
    destruct (provision_flag || negb (truthy cached)) eqn:Eb;
      destruct reading_ok; destruct ack_ok;
      cbn [TestDevice.saved_by TestDevice.calls_of];
      repeat match goal with |- _ /\ _ => split end;
      first
        [ solve [intros saved Es; discriminate Es]
        | solve [intros saved Es; injection Es as <-; exists key;
                 split; [reflexivity|]; split; [discriminate|];
                 split; [|exact Hfound];
                 intros c Hin; cbn [In] in Hin;
                 repeat (destruct Hin as [Hin|Hin]; [subst c; reflexivity|]);
                 contradiction]
        | solve [intros Ep _; rewrite Ep in Eb; discriminate Eb]
        | solve [intros _ _; split; discriminate]
        | solve [intros k p Hin; reflexivity]
        | solve [intros k p Hin; cbn [In] in Hin;
                 repeat (destruct Hin as [Hin|Hin]; [discriminate Hin|]);
                 contradiction]
        | solve [intros saved calls E; discriminate E]
        | solve [intros saved calls E; split; reflexivity] ].
  - destruct (provision_flag || negb (truthy cached)) eqn:Eb;
      destruct reading_ok; destruct ack_ok;
      cbn [TestDevice.saved_by TestDevice.calls_of];
      repeat match goal with |- _ /\ _ => split end;
      first
        [ solve [intros saved Es; discriminate Es]
        | solve [intros Ep _; rewrite Ep in Eb; discriminate Eb]
        | solve [intros _ _; split; reflexivity]
        | solve [intros k p Hin; reflexivity]
        | solve [intros k p Hin; cbn [In] in Hin;
                 repeat (destruct Hin as [Hin|Hin]; [discriminate Hin|]);
                 contradiction]
        | solve [intros saved calls E; discriminate E]
        | solve [intros saved calls E; split; reflexivity] ].
Qed.

End Surroundings.

(** ** Concrete runs *)

#[local] Existing Instance small_builtins.
#[local] Existing Instance lcg_random.

Lemma start0_moisture : moisture start0 = 56.
Proof. vm_compute. reflexivity. Qed.

(** C1 applies: mode "auto", thresholds 35 < 45, moisture 34, pump off. *)
Lemma C1_auto_policy_hysteresis_witness :
  "auto" <> "manual" /\ 0 <= 34 <= 100 /\ 35 < 45 /\
  ((false = false /\ control_logic "auto" false 35 45 34 false = true)
   <-> (false = false /\ 34 < 35)) /\
  (34 > 45 -> control_logic "auto" false 35 45 34 false = false).
Proof.
  assert (Hm : "auto" <> "manual") by discriminate.
  assert (Hr : 0 <= 34 <= 100) by lia.
  assert (Hlt : 35 < 45) by lia.
  pose proof (C1_auto_policy_hysteresis "auto" false 35 45 34 false Hm Hr Hlt) as T.
  cbv zeta in T.
  split; [exact Hm|]. split; [exact Hr|]. split; [exact Hlt|].
  split; [exact (proj1 T)|exact (proj2 (proj2 (proj2 (proj2 T))))].
Defined.

(** C8 applies to the first tick of the run from [start0]. *)
Lemma C8_environment_in_range_witness :
  0 <= moisture start0 <= 100 /\
  0 <= env_step (moisture start0) 2 5 <= 100 /\
  moisture (snd (environment (tick_at 4) start0))
    = env_step (moisture start0) (fst (randint (-2) 2 (rng start0))) 4 /\
  0 <= moisture (iteration args0 (tick_at 4) start0) <= 100.
Proof.
  assert (Hm : 0 <= moisture start0 <= 100) by (rewrite start0_moisture; lia).
  split; [exact Hm|].
  exact (C8_environment_in_range args0 (tick_at 4) start0 2 5 Hm).
Defined.

(** C10 applies at the two ends of the moisture range. *)
Lemma C10_raw_value_witness :
  0 <= 0 <= 100 /\ 0 <= 100 <= 100 /\
  raw_of 0 = Some (1400 + (100 - 0) * (3200 - 1400) / 100) /\
  1400 <= 1400 + (100 - 0) * (3200 - 1400) / 100 <= 3200.
Proof.
  assert (H0 : 0 <= 0 <= 100) by lia.
  assert (H1 : 0 <= 100 <= 100) by lia.
  split; [exact H0|]. split; [exact H1|].
  pose proof (C10_raw_value args0 (tick_at 0) start0 0 100 (Some 7) H0 H1) as T.
  split; [exact (proj1 T)|exact (proj1 (proj2 T))].
Defined.

(** The merge of a patch of the two thresholds over the defaults. *)
Lemma merge_patch_fields_example :
  working defaults0 = Some (defaults args0) /\
  (contains thresholds_patch "pumpOnBelow" = true /\
   truthy (get thresholds_patch "pumpOnBelow" VNone) = true /\
   int_ (get thresholds_patch "pumpOnBelow" VNone) <> None) /\
  (contains thresholds_patch "pumpOffAbove" = true /\
   truthy (get thresholds_patch "pumpOffAbove" VNone) = true /\
   int_ (get thresholds_patch "pumpOffAbove" VNone) <> None) /\
  fst (merge_patch thresholds_patch defaults0) = Done tt /\
  rest_of (snd (merge_patch thresholds_patch defaults0)) = rest_of defaults0 /\
  on_below (snd (merge_patch thresholds_patch defaults0)) = Some 30 /\
  off_above (snd (merge_patch thresholds_patch defaults0)) = Some 60.
Proof.
  assert (Hw : working defaults0 = Some (defaults args0)) by reflexivity.
  assert (Hb : int_ (get thresholds_patch "pumpOnBelow" VNone) <> None)
    by (vm_compute; discriminate).
  assert (Ha : int_ (get thresholds_patch "pumpOffAbove" VNone) <> None)
    by (vm_compute; discriminate).
  split; [exact Hw|].
  split; [split; [reflexivity|split; [reflexivity|exact Hb]]|].
  split; [split; [reflexivity|split; [reflexivity|exact Ha]]|].
  pose proof (merge_patch_fields thresholds_patch defaults0 (defaults args0) Hw
                (fun _ _ => Hb) (fun _ _ => Ha)) as T.
  cbv zeta in T.
  destruct T as (T1 & T2 & _ & _ & _ & _ & _ & _ & _ & T10 & T11 & _).
  split; [exact T1|]. split; [exact T2|].
  split; [exact (T10 eq_refl eq_refl)|exact (T11 eq_refl eq_refl)].
Defined.

(** The patch [{"pumpOnBelow": 0}] merged over the defaults. The key is
    present and [int(0)] is 0, so the merge as the specification words
    it gives a threshold of 0; the code keeps 35. *)
Lemma zero_patch_merge :
  contains zero_patch "pumpOnBelow" = true /\
  int_ (get zero_patch "pumpOnBelow" VNone) = Some 0 /\
  spec_merge zero_patch (defaults args0) = Some (mkSettings "auto" false 0 45 f60) /\
  working defaults0 = Some (defaults args0) /\
  fst (merge_patch zero_patch defaults0) = Done tt /\
  on_below (snd (merge_patch zero_patch defaults0)) = Some 35 /\
  working (snd (merge_patch zero_patch defaults0))
    <> spec_merge zero_patch (defaults args0).
Proof.
  vm_compute. repeat split; discriminate.
Qed.

(** C6 as stated fails: a tick with manual settings, then a tick whose
    fetch is not OK. The second tick works with the defaults, not with
    what the first tick held. *)
Lemma C6_counterexample :
  fetch (tick_at 0) = FetchNotOk /\
  working after_manual = Some (mkSettings "manual" true 20 80 f5) /\
  working (iteration args0 (tick_at 0) after_manual)
    = Some (mkSettings "auto" false 35 45 f60) /\
  working (iteration args0 (tick_at 0) after_manual) <> working after_manual.
Proof.
  vm_compute. repeat split; discriminate.
Qed.


(** C9 applies: a patch delivered before the first tick, a quiet second tick. *)
Lemma C9_patch_consumed_once_witness :
  pending_patch (listener (sse_before (tick_patch thresholds_patch)) start0)
    = Some thresholds_patch /\
  thresholds_patch <> [] /\
  fst (fetch_settings args0 (tick_patch thresholds_patch)
         (listener (sse_before (tick_patch thresholds_patch)) start0)) = Done tt /\
  no_command (sse_before (tick_at 0)) = true /\
  pending_patch (iteration args0 (tick_patch thresholds_patch) start0) = None /\
  pending_patch (iteration args0 (tick_at 0)
                   (iteration args0 (tick_patch thresholds_patch) start0)) = None.
Proof.
  assert (H1 : pending_patch
                 (listener (sse_before (tick_patch thresholds_patch)) start0)
               = Some thresholds_patch) by reflexivity.
  assert (H2 : thresholds_patch <> []) by discriminate.
  assert (H3 : fst (fetch_settings args0 (tick_patch thresholds_patch)
                      (listener (sse_before (tick_patch thresholds_patch)) start0))
               = Done tt) by (vm_compute; reflexivity).
  assert (H4 : no_command (sse_before (tick_at 0)) = true) by reflexivity.
  pose proof (C9_patch_consumed_once args0 (tick_patch thresholds_patch) (tick_at 0)
                start0 thresholds_patch H1 H2 H3 H4) as T.
  cbv zeta in T.
  split; [exact H1|]. split; [exact H2|]. split; [exact H3|]. split; [exact H4|].
  split; [exact (proj1 T)|exact (proj1 (proj2 (proj2 T)))].
Defined.

#[local] Existing Instance small_text.

(** X4 applies to the first tick of the run from [start0]. *)
Lemma X4_moisture_step_bounded_witness :
  0 <= moisture start0 <= 100 /\
  Z.abs (moisture (iteration args0 (tick_at 4) start0) - moisture start0)
    <= 2 + Z.abs (wave (tick_at 4)).
Proof.
  assert (Hm : 0 <= moisture start0 <= 100) by (rewrite start0_moisture; lia).
  split; [exact Hm|].
  exact (X4_moisture_step_bounded args0 (tick_at 4) start0 Hm).
Defined.

(** X5 applies to a first tick in which every request returns. *)
Lemma X5_completed_iteration_is_in_sync_witness :
  fst (loop_body args0 tick_auto (listener (sse_before tick_auto) start0)) = Done tt /\
  exists s x before,
    working (iteration args0 tick_auto start0) = Some s /\
    settings_applied_acked (iteration args0 tick_auto start0) = true /\
    last_ack_state (iteration args0 tick_auto start0)
      = Some (pump_on (iteration args0 tick_auto start0), s_mode s) /\
    raw (iteration args0 tick_auto start0) = Some x /\
    raw_of (moisture (iteration args0 tick_auto start0)) = Some x /\
    sent (iteration args0 tick_auto start0)
      = (before ++ [Reading (moisture (iteration args0 tick_auto start0))
                      (pump_on (iteration args0 tick_auto start0)) x])%list.
Proof.
  assert (Hd : fst (loop_body args0 tick_auto
                      (listener (sse_before tick_auto) start0)) = Done tt)
    by (vm_compute; reflexivity).
  split; [exact Hd|].
  exact (X5_completed_iteration_is_in_sync args0 tick_auto start0 Hd).
Defined.

(** X6 applies: mode "auto" with the default thresholds 35 and 45. *)
Lemma X6_auto_policy_settles_iff_witness :
  "auto" <> "manual" /\
  ((forall m prior,
      control_logic "auto" false 35 45 m (control_logic "auto" false 35 45 m prior)
        = control_logic "auto" false 35 45 m prior) <-> 35 <= 45 + 1).
Proof.
  assert (Hm : "auto" <> "manual") by discriminate.
  split; [exact Hm|].
  exact (proj1 (X6_auto_policy_settles_iff "auto" false 35 45 Hm)).
Defined.

(** X10 applies: no state file, and a rotation that returns the key [k1]. *)
Lemma X10_rotated_key_is_found_again_witness :
  provision FileAbsent "esp32-sim1" key_response
    = Ready (VStr "k1") true (Some saved0) /\
  cached_key saved0 "esp32-sim1" = Some (VStr "k1") /\
  provision (FileJson saved0) "esp32-sim1" RespRaise = Ready (VStr "k1") false None.
Proof.
  assert (Hp : provision FileAbsent "esp32-sim1" key_response
               = Ready (VStr "k1") true (Some saved0)) by reflexivity.
  pose proof (X10_rotated_key_is_found_again FileAbsent "esp32-sim1" key_response
                (VStr "k1") saved0 Hp) as T.
  destruct T as (_ & _ & T3 & T4 & _).
  split; [exact Hp|]. split; [exact T3|exact (T4 RespRaise)].
Defined.

(** X12 applies: an [event:] line, then a [data:] line and a blank line. *)
Lemma X12_listener_line_by_line_witness :
  forallb (fun l : bool * string => negb (fst l)) command_lines = true /\
  listen_lines true None (command_lines ++ data_lines) =
    (listen_lines true None command_lines ++
     listen_lines true (last_event_after None (map snd command_lines)) data_lines)%list.
Proof.
  assert (Hs : forallb (fun l : bool * string => negb (fst l)) command_lines = true)
    by reflexivity.
  split; [exact Hs|].
  exact (proj1 (X12_listener_line_by_line true None command_lines data_lines Hs)).
Defined.

(** X14 applies: the stream [stream0] delivers the patch of [doc_patch]. *)
Lemma X14_commands_carry_an_object_patch_witness :
  In (EvCommand [("pumpOffAbove", VInt 60)]) (listen_sse stream0 true) /\
  exists lines line t j,
    stream0 = Stream 200 lines /\
    In (false, line) lines /\ prefix "data:" line = true /\
    after_colon line = Some t /\ str_strip t <> "" /\
    json_loads (str_strip t) = Some j /\
    method_get j "patch" VNone = Some (VDict [("pumpOffAbove", VInt 60)]).
Proof.
  assert (Hin : In (EvCommand [("pumpOffAbove", VInt 60)]) (listen_sse stream0 true))
    by (vm_compute; left; reflexivity).
  split; [exact Hin|].
  exact (proj2 (X14_commands_carry_an_object_patch stream0 true
                  [("pumpOffAbove", VInt 60)] Hin)).
Defined.

End Sim.
